(** * OasisLMF exposures manager: item materialisation and FM term derivation

    A shallow embedding of [oasislmf/exposures/manager.py]
    ([OasisExposuresManager.load_exposure_master_data_frame],
    [load_fm_master_data_frame] and the FM file generators) together with
    the properties of the item table, the level expansion, the term
    resolution and the calc-rule selection.

    Conventions of the embedding:
    - numeric cells of a data frame and Python [float] values are exact
      rationals ([Q]); rounding, NaN and infinities are outside the model,
      and so are null and text cells;
    - Python [int] identifiers are [Z];
    - a Python exception is a value of [exn]; code that can raise returns
      [result];
    - a Python [dict] whose iteration order the code depends on is an
      association list in iteration order;
    - the function locals that survive from one loop iteration to the next
      ([limit_val], [ded_type]) are an explicit loop state. *)

From Stdlib Require Import List String Ascii ZArith QArith Bool Lia Lqa Permutation Sorted.
Import ListNotations.
Local Open Scope string_scope.
Local Open Scope list_scope.
Local Open Scope Q_scope.

(* [length] and [++] are the list ones throughout. *)
Local Abbreviation length := List.length (only parsing).

(** ** Keys-lookup rows

    [keys_df] after the rename of [CoverageID] and the lower-casing of the
    column names: one record per row of the keys file. *)
Record KeysRow := {
  locid : Q;
  perilid : Z;
  coveragetype : Z;
  areaperilid : Z;
  vulnerabilityid : Z
}.

(** ** Exceptions and results *)
Inductive exn :=
| OasisException (keys_item : KeysRow)
    (* "No matching canonical exposure item found ... for keys item {}" *)
| KeyError (key : string)
| UnboundLocalError (name : string)
| TypeError (what : string)
| IndexError
| AttributeError (name : string).

Inductive result (A : Type) :=
| Ok (a : A)
| Raise (e : exn).
Arguments Ok {A} a.
Arguments Raise {A} e.

Definition bind {A B} (m : result A) (k : A -> result B) : result B :=
  match m with
  | Ok a => k a
  | Raise e => Raise e
  end.

Notation "x <- m ;; k" := (bind m (fun x => k))
  (at level 61, m at next level, right associativity).
Notation "' pat <- m ;; k" := (bind m (fun x => match x with pat => k end))
  (at level 61, pat pattern, m at next level, right associativity).

(** A [for] loop whose body can raise and which threads a state. *)
Fixpoint foldM {A S} (body : S -> A -> result S) (l : list A) (s : S) : result S :=
  match l with
  | [] => Ok s
  | a :: l' => s' <- body s a ;; foldM body l' s'
  end.

(** Python 2 [filter(pred, l)]: eager, the predicate may raise. *)
Fixpoint filterM {A} (pred : A -> result bool) (l : list A) : result (list A) :=
  match l with
  | [] => Ok []
  | a :: l' =>
      b <- pred a ;;
      rest <- filterM pred l' ;;
      Ok (if b then a :: rest else rest)
  end.

(** ** Numbers *)

(** [x > y] on floats. *)
Definition Qgt_bool (x y : Q) : bool := negb (Qle_bool x y).

(** ** Strings *)

Definition lower_ascii (c : ascii) : ascii :=
  let n := nat_of_ascii c in
  if (65 <=? n)%nat && (n <=? 90)%nat then ascii_of_nat (n + 32) else c.

(** [str.lower()], on ASCII letters. *)
Fixpoint lower (s : string) : string :=
  match s with
  | EmptyString => EmptyString
  | String c s' => String (lower_ascii c) (lower s')
  end.

(** Truth value of a string: the empty string is falsy. *)
Definition truthy (s : string) : bool :=
  match s with EmptyString => false | _ => true end.

(** ** Data frames

    A frame has column labels and rows; a row gives the cell under a
    label. Cells are only ever read under a label of [columns]. *)
Record DataFrame := {
  columns : list string;
  rows : list (string -> Q)
}.

(** One row taken out of a frame: [df.iloc[i]]. *)
Record Series := {
  index : list string;
  values : string -> Q
}.

(** [read_csv]: a frame from a header and rows of cells in header order
    (column names already lower-cased). *)
Fixpoint cell_of (header : list string) (cells : list Q) (label : string) : Q :=
  match header, cells with
  | h :: header', c :: cells' => if h =? label then c else cell_of header' cells' label
  | _, _ => 0
  end.

Definition read_csv (header : list string) (data : list (list Q)) : DataFrame :=
  {| columns := header; rows := map (cell_of header) data |}.

(** [label in df] *)
Definition has_column (label : string) (df : DataFrame) : bool :=
  existsb (String.eqb label) (columns df).

(** [df[df[label] == v]] *)
Definition select_eq (df : DataFrame) (label : string) (v : Q) : result DataFrame :=
  if has_column label df
  then Ok {| columns := columns df;
             rows := filter (fun r => Qeq_bool (r label) v) (rows df) |}
  else Raise (KeyError label).

(** [df.empty]: some axis has length 0. *)
Definition empty (df : DataFrame) : bool :=
  match rows df, columns df with
  | _ :: _, _ :: _ => false
  | _, _ => true
  end.

(** [df.iloc[0]] *)
Definition iloc0 (df : DataFrame) : result Series :=
  match rows df with
  | r :: _ => Ok {| index := columns df; values := r |}
  | [] => Raise IndexError
  end.

(** [series[label]] *)
Definition series_get (s : Series) (label : string) : result Q :=
  if existsb (String.eqb label) (index s) then Ok (values s label)
  else Raise (KeyError label).

(** [float(df[label])]: the column must exist and hold exactly one cell. *)
Definition float_of_column (df : DataFrame) (label : string) : result Q :=
  if has_column label df then
    match rows df with
    | [r] => Ok (r label)
    | _ => Raise (TypeError "cannot convert the series to float")
    end
  else Raise (KeyError label).

(** ** Profile entries

    One value of a profile dict. [ProfileElementName] is always there; the
    keys the code tests for, or reads with [get], are optional. *)
Record ProfileEntry := {
  ProfileElementName : string;
  FieldName : option string;
  CoverageTypeID : option Z;
  FMLevel : option string;
  FMLevelOrder : option Z;
  FMTermType : option string;
  FMTermGroupID : option Z;
  DeductibleType : option string
}.

(** [d[key]] on an optional key of an entry. *)
Definition getitem {A} (key : string) (v : option A) : result A :=
  match v with
  | Some a => Ok a
  | None => Raise (KeyError key)
  end.

(** ** The item table ([load_exposure_master_data_frame]) *)
Module Item.
Record t := {
  item_id : Z;
  canloc_id : Q;
  coverage_id : Z;
  tiv : Q;
  areaperil_id : Z;
  vulnerability_id : Z;
  group_id : Z;
  summary_id : Z;
  summaryset_id : Z
}.
End Item.

(** Loop state of the item loop: the counter [item_id] and [result]. *)
Definition item_state : Type := (Z * list Item.t)%type.

(** The inner loop body, lines 563-577: one matching TIV field. *)
Definition tiv_field_step (canexp_item : Series) (keys_item : KeysRow)
    (st : item_state) (tiv_field : ProfileEntry) : result item_state :=
  let tiv_lookup := lower (ProfileElementName tiv_field) in
  tiv_value <- series_get canexp_item tiv_lookup ;;
  if Qgt_bool tiv_value 0 then
    let item_id := (fst st + 1)%Z in
    canloc <- series_get canexp_item "row_id" ;;
    Ok (item_id,
        snd st ++ [ {| Item.item_id := item_id;
                       Item.canloc_id := canloc;
                       Item.coverage_id := item_id;
                       Item.tiv := tiv_value;
                       Item.areaperil_id := areaperilid keys_item;
                       Item.vulnerability_id := vulnerabilityid keys_item;
                       Item.group_id := item_id;
                       Item.summary_id := 1;
                       Item.summaryset_id := 1 |} ])
  else Ok st.

(** [filter(lambda f: f['CoverageTypeID'] == keys_item['coveragetype'], tiv_fields)] *)
Definition tiv_field_matches (tiv_fields : list ProfileEntry) (keys_item : KeysRow)
    : result (list ProfileEntry) :=
  filterM (fun f => c <- getitem "CoverageTypeID" (CoverageTypeID f) ;;
                    Ok (c =? coveragetype keys_item)%Z) tiv_fields.

(** The outer loop body, lines 550-577: one keys row. *)
Definition keys_item_step (canexp_df : DataFrame) (tiv_fields : list ProfileEntry)
    (st : item_state) (keys_item : KeysRow) : result item_state :=
  canexp_item <- select_eq canexp_df "row_id" (locid keys_item) ;;
  if empty canexp_item then Raise (OasisException keys_item)
  else
    canexp_item <- iloc0 canexp_item ;;
    matches <- tiv_field_matches tiv_fields keys_item ;;
    foldM (tiv_field_step canexp_item keys_item) matches st.

(** [load_exposure_master_data_frame], from the frames read at lines
    517-526 and the list [tiv_fields] of line 528 (the profile entries whose
    [FieldName] is ['TIV'], in the order [sorted] leaves them). *)
Definition load_exposure_master_data_frame (canexp_df : DataFrame)
    (keys_df : list KeysRow) (tiv_fields : list ProfileEntry) : result (list Item.t) :=
  st <- foldM (keys_item_step canexp_df tiv_fields) keys_df (0%Z, []) ;;
  Ok (snd st).

(** ** Dictionaries

    A [dict] as the list of its items in iteration order. The dicts of the
    code have unique keys; [dict_get] returns the first item under a key. *)
Definition dict (K V : Type) : Type := list (K * V).

Fixpoint dict_get {K V} (eqb : K -> K -> bool) (k : K) (d : dict K V) : option V :=
  match d with
  | [] => None
  | (k', v) :: d' => if eqb k k' then Some v else dict_get eqb k d'
  end.

(** [d[k]] with a string key. *)
Definition dict_getitem {V} (k : string) (d : dict string V) : result V :=
  match dict_get String.eqb k d with
  | Some v => Ok v
  | None => Raise (KeyError k)
  end.

(** [d[k]] with an integer key; [repr] is the key as the error shows it. *)
Definition dict_getitem_int {V} (k : Z) (repr : string) (d : dict Z V) : result V :=
  match dict_get Z.eqb k d with
  | Some v => Ok v
  | None => Raise (KeyError repr)
  end.

(** [k in d] *)
Definition dict_has {V} (k : string) (d : dict string V) : bool :=
  match dict_get String.eqb k d with Some _ => true | None => false end.

(** ** The profile index

    [fm_term_fields] (lines 598-608): level name, lower-cased, to the
    entries declared at that level, keyed by lower-cased element name.
    [grouped_fm_term_fields] (lines 612-616): level name to term-group id
    to term type (['tiv'], ['limit'], ['deductible']) to entry. Both are
    inputs of the embedding, in whatever order Python iterates them. *)
Definition LevelFields : Type := dict string ProfileEntry.
Definition TermGroup : Type := dict string ProfileEntry.
Definition TermGroups : Type := dict Z TermGroup.

(** ** Sorting with a key ([sorted(l, key=...)])

    Python's sort is stable, and so is insertion from the right with [<=?]. *)
Fixpoint insert_by_key {A} (x : Z * A) (l : list (Z * A)) : list (Z * A) :=
  match l with
  | [] => [x]
  | y :: l' => if (fst x <=? fst y)%Z then x :: l else y :: insert_by_key x l'
  end.

Fixpoint sort_by_key {A} (l : list (Z * A)) : list (Z * A) :=
  match l with
  | [] => []
  | x :: l' => insert_by_key x (sort_by_key l')
  end.

Fixpoint mapM {A B} (f : A -> result B) (l : list A) : result (list B) :=
  match l with
  | [] => Ok []
  | a :: l' => b <- f a ;; bs <- mapM f l' ;; Ok (b :: bs)
  end.

Definition sorted {A} (l : list A) (key : A -> result Z) : result (list A) :=
  keyed <- mapM (fun a => k <- key a ;; Ok (k, a)) l ;;
  Ok (map snd (sort_by_key keyed)).

(** [fm_term_fields[f].values()[0]['FMLevelOrder']], the sort key of line 610. *)
Definition level_order (fm_term_fields : dict string LevelFields) (f : string) : result Z :=
  fields <- dict_getitem f fm_term_fields ;;
  match fields with
  | [] => Raise IndexError
  | (_, entry) :: _ => getitem "FMLevelOrder" (FMLevelOrder entry)
  end.

(** Line 610: the level names by ascending level order. *)
Definition fm_levels (fm_term_fields : dict string LevelFields) : result (list string) :=
  sorted (map fst fm_term_fields) (level_order fm_term_fields).

(** ** FM term rows *)
Module Fm.
Record t := {
  itemid : Z;
  canlocid : Q;
  levelid : option Z;
  layerid : option Z;
  aggid : option Z;
  policytcid : option Z;
  deductible : option Q;
  limit : option Q;
  share : option Q;
  deductibletype : option string;
  calcrule : option Z;
  tiv : Q;
  fm_level : string
}.

(** [fm_df.at[i, 'limit'] = v] and its siblings. *)
Definition set_limit (v : Q) (r : t) : t :=
  {| itemid := itemid r; canlocid := canlocid r; levelid := levelid r;
     layerid := layerid r; aggid := aggid r; policytcid := policytcid r;
     deductible := deductible r; limit := Some v; share := share r;
     deductibletype := deductibletype r; calcrule := calcrule r;
     tiv := tiv r; fm_level := fm_level r |}.

Definition set_deductible (v : Q) (r : t) : t :=
  {| itemid := itemid r; canlocid := canlocid r; levelid := levelid r;
     layerid := layerid r; aggid := aggid r; policytcid := policytcid r;
     deductible := Some v; limit := limit r; share := share r;
     deductibletype := deductibletype r; calcrule := calcrule r;
     tiv := tiv r; fm_level := fm_level r |}.

Definition set_share (v : Q) (r : t) : t :=
  {| itemid := itemid r; canlocid := canlocid r; levelid := levelid r;
     layerid := layerid r; aggid := aggid r; policytcid := policytcid r;
     deductible := deductible r; limit := limit r; share := Some v;
     deductibletype := deductibletype r; calcrule := calcrule r;
     tiv := tiv r; fm_level := fm_level r |}.

Definition set_deductibletype (v : string) (r : t) : t :=
  {| itemid := itemid r; canlocid := canlocid r; levelid := levelid r;
     layerid := layerid r; aggid := aggid r; policytcid := policytcid r;
     deductible := deductible r; limit := limit r; share := share r;
     deductibletype := Some v; calcrule := calcrule r;
     tiv := tiv r; fm_level := fm_level r |}.

Definition set_calcrule (v : Z) (r : t) : t :=
  {| itemid := itemid r; canlocid := canlocid r; levelid := levelid r;
     layerid := layerid r; aggid := aggid r; policytcid := policytcid r;
     deductible := deductible r; limit := limit r; share := share r;
     deductibletype := deductibletype r; calcrule := Some v;
     tiv := tiv r; fm_level := fm_level r |}.
End Fm.

(** ** Level expansion (lines 618-629) *)

(** [itertools.product(fm_levels, zip(item_id, canloc_id, tiv))] *)
Definition preset_data (levels : list string) (exp_mdf : list Item.t)
    : list (string * (Z * Q * Q)) :=
  list_prod levels
    (map (fun it => (Item.item_id it, Item.canloc_id it, Item.tiv it)) exp_mdf).

(** One dict of [fm_data]: the columns zipped with
    [[item_id, canloc_id, None x 9, tiv, fm_level]]. *)
Definition fm_data_row (p : string * (Z * Q * Q)) : Fm.t :=
  let '(fm_level, (item_id, canloc_id, tiv)) := p in
  {| Fm.itemid := item_id; Fm.canlocid := canloc_id;
     Fm.levelid := None; Fm.layerid := None; Fm.aggid := None;
     Fm.policytcid := None; Fm.deductible := None; Fm.limit := None;
     Fm.share := None; Fm.deductibletype := None; Fm.calcrule := None;
     Fm.tiv := tiv; Fm.fm_level := fm_level |}.

Definition fm_data (levels : list string) (exp_mdf : list Item.t) : list Fm.t :=
  map fm_data_row (preset_data levels exp_mdf).

(** ** Term resolution and calc-rule selection (lines 631-679) *)

(** The locals of [load_fm_master_data_frame] that one iteration of the
    row loop can leave to the next: Python locals are function-scoped, and
    [None] here is a local not yet bound. *)
Record locals := {
  limit_val : option Q;
  ded_type : option string
}.

(** Reading a local: unbound raises. *)
Definition read_local {A} (name : string) (v : option A) : result A :=
  match v with
  | Some a => Ok a
  | None => Raise (UnboundLocalError name)
  end.

(** [v if v > 1 else (v * float(fm_item['tiv']))], lines 641, 645, 654, 658. *)
Definition amount_or_fraction (v tiv : Q) : Q :=
  if Qgt_bool v 1 then v else v * tiv.

(** [entry['DeductibleType'] if 'DeductibleType' in entry else u'B'] *)
Definition deductible_type_of (entry : ProfileEntry) : string :=
  match DeductibleType entry with
  | Some t => t
  | None => "B"
  end.

(** The [for gid in grouped_fm_term_fields['coverage']] loop, lines
    636-650, over the items of the coverage dict. It returns at the [break]
    with the locals and the row as assigned, or falls off the end with both
    untouched. *)
Fixpoint coverage_loop (canexp_item : DataFrame) (groups : TermGroups)
    (loc : locals) (fm_item : Fm.t) : result (locals * Fm.t) :=
  match groups with
  | [] => Ok (loc, fm_item)
  | (gid, group) :: groups' =>
      tiv_entry <- dict_getitem "tiv" group ;;
      let tiv_field_name := lower (ProfileElementName tiv_entry) in
      found <- (if has_column tiv_field_name canexp_item
                then v <- float_of_column canexp_item tiv_field_name ;;
                     Ok (Qeq_bool v (Fm.tiv fm_item))
                else Ok false) ;;
      if (found : bool) then
        limit_entry <- dict_getitem "limit" group ;;
        let limit_field_name := lower (ProfileElementName limit_entry) in
        limit_val <- float_of_column canexp_item limit_field_name ;;
        let row := Fm.set_limit (amount_or_fraction limit_val (Fm.tiv fm_item)) fm_item in
        ded_entry <- dict_getitem "deductible" group ;;
        let ded_field_name := lower (ProfileElementName ded_entry) in
        ded_val <- float_of_column canexp_item ded_field_name ;;
        let row := Fm.set_deductible (amount_or_fraction ded_val (Fm.tiv fm_item)) row in
        let ded_type := deductible_type_of ded_entry in
        let row := Fm.set_deductibletype ded_type row in
        Ok ({| limit_val := Some limit_val; ded_type := Some ded_type |}, row)
      else coverage_loop canexp_item groups' loc fm_item
  end.

(** [float(canexp_item[name]) if name and name in canexp_item else 0],
    with [name] the lower-cased element name of the level's entry for
    [term], or [None] when group 1 of the level has no such entry
    (lines 652-653 and 656-657). *)
Definition level_term_value (canexp_item : DataFrame) (group : TermGroup)
    (term : string) : result Q :=
  let field_name :=
    match dict_get String.eqb term group with
    | Some entry => Some (lower (ProfileElementName entry))
    | None => None
    end in
  match field_name with
  | Some name =>
      if truthy name && has_column name canexp_item
      then float_of_column canexp_item name
      else Ok 0
  | None => Ok 0
  end.

(** The [else] branch, lines 652-661: a row of any other level. Note the
    level read at line 660. *)
Definition other_level_terms (grouped_fm_term_fields : dict string TermGroups)
    (canexp_item : DataFrame) (fm_item : Fm.t) : result (locals * Fm.t) :=
  level_groups <- dict_getitem (Fm.fm_level fm_item) grouped_fm_term_fields ;;
  group <- dict_getitem_int 1 "1" level_groups ;;
  limit_val <- level_term_value canexp_item group "limit" ;;
  let row := Fm.set_limit (amount_or_fraction limit_val (Fm.tiv fm_item)) fm_item in
  ded_val <- level_term_value canexp_item group "deductible" ;;
  let row := Fm.set_deductible (amount_or_fraction ded_val (Fm.tiv fm_item)) row in
  coverage_groups <- dict_getitem "coverage" grouped_fm_term_fields ;;
  coverage_group <- dict_getitem_int 1 "1" coverage_groups ;;
  ded_entry <- dict_getitem "deductible" coverage_group ;;
  let ded_type := deductible_type_of ded_entry in
  let row := Fm.set_deductibletype ded_type row in
  Ok ({| limit_val := Some limit_val; ded_type := Some ded_type |}, row).

(** The [if/elif] chain of lines 666-677. *)
Definition calc_rule (limit_val share_prop_of_lim : Q) (ded_type : string) : Z :=
  if Qeq_bool limit_val share_prop_of_lim && Qeq_bool share_prop_of_lim 0
     && (ded_type =? "B") then 12
  else if Qeq_bool limit_val 0 && Qgt_bool share_prop_of_lim 0
          && (ded_type =? "B") then 15
  else if Qgt_bool limit_val 0 && Qeq_bool share_prop_of_lim 0
          && (ded_type =? "B") then 1
  else if ded_type =? "MI" then 11
  else if ded_type =? "MA" then 10
  else 2.

(** One iteration of the row loop, lines 632-679. *)
Definition fm_item_step (grouped_fm_term_fields : dict string TermGroups)
    (canexp_df : DataFrame) (loc : locals) (fm_item : Fm.t)
    : result (locals * Fm.t) :=
  canexp_item <- select_eq canexp_df "row_id" (Fm.canlocid fm_item) ;;
  '(loc, row) <-
    (if Fm.fm_level fm_item =? "coverage" then
       coverage_groups <- dict_getitem "coverage" grouped_fm_term_fields ;;
       coverage_loop canexp_item coverage_groups loc fm_item
     else other_level_terms grouped_fm_term_fields canexp_item fm_item) ;;
  let share_prop_of_lim := 0 in
  let row := Fm.set_share share_prop_of_lim row in
  limit_val <- read_local "limit_val" (limit_val loc) ;;
  ded_type <- read_local "ded_type" (ded_type loc) ;;
  let row := Fm.set_calcrule (calc_rule limit_val share_prop_of_lim ded_type) row in
  Ok (loc, row).

(** The row loop: row [i] is read and written by iteration [i] only, the
    locals pass from one iteration to the next. *)
Fixpoint fm_loop (grouped_fm_term_fields : dict string TermGroups)
    (canexp_df : DataFrame) (loc : locals) (fm_df : list Fm.t)
    : result (list Fm.t) :=
  match fm_df with
  | [] => Ok []
  | fm_item :: fm_df' =>
      '(loc', row) <- fm_item_step grouped_fm_term_fields canexp_df loc fm_item ;;
      rest <- fm_loop grouped_fm_term_fields canexp_df loc' fm_df' ;;
      Ok (row :: rest)
  end.

Definition no_locals : locals := {| limit_val := None; ded_type := None |}.

(** The frame [fm_df] as the body of [load_fm_master_data_frame] leaves it. *)
Definition fm_master_data_frame (canexp_df : DataFrame) (keys_df : list KeysRow)
    (tiv_fields : list ProfileEntry) (fm_term_fields : dict string LevelFields)
    (grouped_fm_term_fields : dict string TermGroups) : result (list Fm.t) :=
  exp_mdf <- load_exposure_master_data_frame canexp_df keys_df tiv_fields ;;
  levels <- fm_levels fm_term_fields ;;
  fm_loop grouped_fm_term_fields canexp_df no_locals (fm_data levels exp_mdf).

(** What a method returns to its caller. *)
Inductive pyvalue :=
| PyNone
| PyItems (data_frame : list Item.t)
| PyFmTerms (data_frame : list Fm.t).

(** [load_fm_master_data_frame]: the body ends at line 679 without a
    [return]. *)
Definition load_fm_master_data_frame (canexp_df : DataFrame) (keys_df : list KeysRow)
    (tiv_fields : list ProfileEntry) (fm_term_fields : dict string LevelFields)
    (grouped_fm_term_fields : dict string TermGroups) : result pyvalue :=
  _ <- fm_master_data_frame canexp_df keys_df tiv_fields fm_term_fields
         grouped_fm_term_fields ;;
  Ok PyNone.

(** ** File emitter (lines 682-837) *)

(** A written file: its header and its rows of cells. The file system is
    the list of writes, latest first. *)
Definition csv : Type := (list string * list (list Q))%type.
Definition filesystem : Type := dict string csv.

(** [data_frame.to_csv(columns=columns, path_or_buf=file_path, ...)] *)
Definition _write_csvs (columns : list string) (data_frame : list (string -> Q))
    (file_path : string) (fs : filesystem) : filesystem :=
  (file_path, (columns, map (fun r => map r columns) data_frame)) :: fs.

(** A row of the item table as cells under its column labels. *)
Definition item_cell (it : Item.t) (label : string) : Q :=
  if label =? "item_id" then inject_Z (Item.item_id it)
  else if label =? "canloc_id" then Item.canloc_id it
  else if label =? "coverage_id" then inject_Z (Item.coverage_id it)
  else if label =? "tiv" then Item.tiv it
  else if label =? "areaperil_id" then inject_Z (Item.areaperil_id it)
  else if label =? "vulnerability_id" then inject_Z (Item.vulnerability_id it)
  else if label =? "group_id" then inject_Z (Item.group_id it)
  else if label =? "summary_id" then inject_Z (Item.summary_id it)
  else inject_Z (Item.summaryset_id it).

(** The keyword arguments as [_process_default_kwargs] returns them, with
    the files behind the input paths already read and the profiles already
    indexed. *)
Record kwargs := {
  canonical_exposures_file : DataFrame;
  keys_file : list KeysRow;
  profile_tiv_fields : list ProfileEntry;
  profile_fm_term_fields : dict string LevelFields;
  profile_grouped_fm_term_fields : dict string TermGroups;
  items_file_path : string;
  coverages_file_path : string;
  gulsummaryxref_file_path : string;
  fm_policytc_file_path : string;
  fm_profile_file_path : string;
  fm_programme_file_path : string;
  fm_xref_file_path : string;
  fmsummaryxref_file_path : string
}.

(** Every name the body of [class OasisExposuresManager] binds. *)
Definition OasisExposuresManager_names : list string :=
  [ "__init__"; "add_model"; "add_models"; "delete_model"; "delete_models";
    "keys_lookup_factory"; "models"; "transform_source_to_canonical";
    "transform_canonical_to_model"; "load_canonical_exposures_profile";
    "load_canonical_account_profile"; "get_keys"; "_process_default_kwargs";
    "load_exposure_master_data_frame"; "load_fm_master_data_frame";
    "_write_csvs"; "generate_items_file"; "generate_coverages_file";
    "generate_gulsummaryxref_file"; "generate_fm_policytc_file";
    "generate_fm_profile_file"; "generate_fm_programme_file";
    "generate_fm_xref_file"; "generate_fmsummaryxref_file";
    "generate_gul_files"; "generate_fm_files"; "generate_oasis_files";
    "clear_oasis_files_pipeline"; "start_oasis_files_pipeline"; "create" ].

(** The frame loaders among them, as called with [**kwargs]. *)
Definition frame_loaders : dict string (kwargs -> result pyvalue) :=
  [ ("load_exposure_master_data_frame",
     fun k => df <- load_exposure_master_data_frame (canonical_exposures_file k)
                      (keys_file k) (profile_tiv_fields k) ;;
              Ok (PyItems df));
    ("load_fm_master_data_frame",
     fun k => load_fm_master_data_frame (canonical_exposures_file k) (keys_file k)
                (profile_tiv_fields k) (profile_fm_term_fields k)
                (profile_grouped_fm_term_fields k)) ].

(** [self.<name>] for a frame loader. *)
Definition self_loader (name : string) : result (kwargs -> result pyvalue) :=
  match dict_get String.eqb name frame_loaders with
  | Some m => Ok m
  | None => Raise (AttributeError name)
  end.

Definition generate_items_file (data_frame : list Item.t) (k : kwargs)
    (fs : filesystem) : filesystem * string :=
  (_write_csvs ["item_id"; "coverage_id"; "areaperil_id"; "vulnerability_id"; "group_id"]
     (map item_cell data_frame) (items_file_path k) fs,
   items_file_path k).

Definition generate_coverages_file (data_frame : list Item.t) (k : kwargs)
    (fs : filesystem) : filesystem * string :=
  (_write_csvs ["coverage_id"; "tiv"]
     (map item_cell data_frame) (coverages_file_path k) fs,
   coverages_file_path k).

Definition generate_gulsummaryxref_file (data_frame : list Item.t) (k : kwargs)
    (fs : filesystem) : filesystem * string :=
  (_write_csvs ["coverage_id"; "summary_id"; "summaryset_id"]
     (map item_cell data_frame) (gulsummaryxref_file_path k) fs,
   gulsummaryxref_file_path k).

(** The five FM generators, lines 751-779: each body is [pass]. *)
Definition generate_fm_policytc_file (data_frame : pyvalue) (k : kwargs)
    (fs : filesystem) : filesystem * pyvalue := (fs, PyNone).
Definition generate_fm_profile_file (data_frame : pyvalue) (k : kwargs)
    (fs : filesystem) : filesystem * pyvalue := (fs, PyNone).
Definition generate_fm_programme_file (data_frame : pyvalue) (k : kwargs)
    (fs : filesystem) : filesystem * pyvalue := (fs, PyNone).
Definition generate_fm_xref_file (data_frame : pyvalue) (k : kwargs)
    (fs : filesystem) : filesystem * pyvalue := (fs, PyNone).
Definition generate_fmsummaryxref_file (data_frame : pyvalue) (k : kwargs)
    (fs : filesystem) : filesystem * pyvalue := (fs, PyNone).

Definition generate_gul_files (k : kwargs) (fs : filesystem)
    : result (filesystem * dict string string) :=
  data_frame <- load_exposure_master_data_frame (canonical_exposures_file k)
                  (keys_file k) (profile_tiv_fields k) ;;
  let fs := fst (generate_items_file data_frame k fs) in
  let fs := fst (generate_coverages_file data_frame k fs) in
  let fs := fst (generate_gulsummaryxref_file data_frame k fs) in
  Ok (fs, [ ("items_file_path", items_file_path k);
            ("coverages_file_path", coverages_file_path k);
            ("gulsummaryxref_file_path", gulsummaryxref_file_path k) ]).

(** Lines 802-827. Line 813 looks up [load_fm_exposure_master_data_frame]. *)
Definition generate_fm_files (k : kwargs) (fs : filesystem)
    : result (filesystem * dict string string) :=
  load <- self_loader "load_fm_exposure_master_data_frame" ;;
  data_frame <- load k ;;
  let fs := fst (generate_fm_policytc_file data_frame k fs) in
  let fs := fst (generate_fm_profile_file data_frame k fs) in
  let fs := fst (generate_fm_programme_file data_frame k fs) in
  let fs := fst (generate_fm_xref_file data_frame k fs) in
  let fs := fst (generate_fmsummaryxref_file data_frame k fs) in
  Ok (fs, [ ("fm_policytc_file_path", fm_policytc_file_path k);
            ("fm_profile_file_path", fm_profile_file_path k);
            ("fm_programme_file_path", fm_programme_file_path k);
            ("fm_xref_file_path", fm_xref_file_path k);
            ("fmsummaryxref_file_path", fmsummaryxref_file_path k) ]).

(** Lines 829-837. *)
Definition generate_oasis_files (include_fm : bool) (k : kwargs) (fs : filesystem)
    : result (filesystem * dict string string) :=
  '(fs, gul_files) <- generate_gul_files k fs ;;
  if negb include_fm then Ok (fs, gul_files)
  else
    '(fs, fm_files) <- generate_fm_files k fs ;;
    Ok (fs, gul_files ++ fm_files).

(** ** Sample inputs

    A canonical exposures file with two locations, a keys file and the
    entries of an exposures and an account profile. *)
Module Sample.

Definition entry (name : string) (field : option string) (cov : option Z)
    (level : string) (order : Z) (term : string) (group : Z)
    (ded_type : option string) : ProfileEntry :=
  {| ProfileElementName := name; FieldName := field; CoverageTypeID := cov;
     FMLevel := Some level; FMLevelOrder := Some order;
     FMTermType := Some term; FMTermGroupID := Some group;
     DeductibleType := ded_type |}.

Definition WSCV1VAL : ProfileEntry :=
  entry "WSCV1VAL" (Some "TIV") (Some 1%Z) "Coverage" 1 "TIV" 1 None.
Definition WSCV1LIMIT : ProfileEntry :=
  entry "WSCV1LIMIT" (Some "CoverageLimit") (Some 1%Z) "Coverage" 1 "Limit" 1 None.
Definition WSCV1DED : ProfileEntry :=
  entry "WSCV1DED" (Some "CoverageDeductible") (Some 1%Z) "Coverage" 1 "Deductible" 1
    (Some "B").
Definition POLDED : ProfileEntry :=
  entry "POLDED" (Some "PolicyDeductible") None "Policy" 3 "Deductible" 1 (Some "MI").
Definition POLLIMIT : ProfileEntry :=
  entry "POLLIMIT" (Some "PolicyLimit") None "Policy" 3 "Limit" 1 None.

(** A second TIV column, declared for coverage type 2 without FM keys. *)
Definition WSCV2VAL : ProfileEntry :=
  {| ProfileElementName := "WSCV2VAL"; FieldName := Some "TIV";
     CoverageTypeID := Some 2%Z; FMLevel := None; FMLevelOrder := None;
     FMTermType := None; FMTermGroupID := None; DeductibleType := None |}.

Definition canexp_df : DataFrame :=
  read_csv
    ["row_id"; "wscv1val"; "wscv1limit"; "wscv1ded"; "wscv2val"; "polded"; "pollimit"]
    [ [1; 1000; 0.5; 0.1; 0; 250; 0];
      [2; 1000; 1500; 50; 300; 250; 5000] ].

Definition key (loc : Q) (cov ap vul : Z) : KeysRow :=
  {| locid := loc; perilid := 1; coveragetype := cov; areaperilid := ap;
     vulnerabilityid := vul |}.

(** Location 1 and 2 under coverage type 1, then location 1 under type 2
    (TIV 0) and location 2 under type 2 (TIV 300). *)
Definition keys_df : list KeysRow :=
  [ key 1 1 11 101; key 2 1 12 102; key 1 2 13 103; key 2 2 14 104 ].

Definition tiv_fields : list ProfileEntry := [ WSCV1VAL; WSCV2VAL ].

(** The index as Python may iterate it: policy before coverage. *)
Definition fm_term_fields : dict string LevelFields :=
  [ ("policy", [ ("polded", POLDED); ("pollimit", POLLIMIT) ]);
    ("coverage", [ ("wscv1val", WSCV1VAL); ("wscv1limit", WSCV1LIMIT);
                   ("wscv1ded", WSCV1DED) ]) ].

Definition grouped_fm_term_fields : dict string TermGroups :=
  [ ("coverage", [ (1%Z, [ ("deductible", WSCV1DED); ("limit", WSCV1LIMIT);
                           ("tiv", WSCV1VAL) ]) ]);
    ("policy", [ (1%Z, [ ("deductible", POLDED); ("limit", POLLIMIT) ]) ]) ].

(** A fresh FM row, as the level expansion makes it. *)
Definition fm_row (item : Z) (canloc tiv : Q) (level : string) : Fm.t :=
  fm_data_row (level, (item, canloc, tiv)).

(** The canonical file without its coverage limit column. *)
Definition canexp_df_no_limit : DataFrame :=
  read_csv ["row_id"; "wscv1val"; "wscv1ded"] [ [1; 1000; 0.1] ].

(** A keys file whose only row is location 2 under coverage type 2. *)
Definition keys_df_type2 : list KeysRow := [ key 2 2 14 104 ].

(** A keys file with a location the canonical file does not have. *)
Definition keys_df_unmatched : list KeysRow :=
  [ key 1 1 11 101; key 7 1 12 102; key 2 1 13 103 ].

Definition kw : kwargs :=
  {| canonical_exposures_file := canexp_df; keys_file := keys_df;
     profile_tiv_fields := tiv_fields;
     profile_fm_term_fields := fm_term_fields;
     profile_grouped_fm_term_fields := grouped_fm_term_fields;
     items_file_path := "items.csv";
     coverages_file_path := "coverages.csv";
     gulsummaryxref_file_path := "gulsummaryxref.csv";
     fm_policytc_file_path := "fm_policytc.csv";
     fm_profile_file_path := "fm_profile.csv";
     fm_programme_file_path := "fm_programme.csv";
     fm_xref_file_path := "fm_xref.csv";
     fmsummaryxref_file_path := "fmsummaryxref.csv" |}.

End Sample.

(** ** Vocabulary of the properties *)

(** What one emitted item looks like, given the counter before it. *)
Definition emitted (counter : Z) (keys_item : KeysRow) (it : Item.t) : Prop :=
  Item.item_id it = (counter + 1)%Z /\
  Item.coverage_id it = Item.item_id it /\
  Item.group_id it = Item.item_id it /\
  Item.areaperil_id it = areaperilid keys_item /\
  Item.vulnerability_id it = vulnerabilityid keys_item /\
  0 < Item.tiv it.

(** The loop invariant: the counter is the number of items so far, and
    the items carry the ids 1, 2, ... in order. *)
Definition numbered (st : item_state) : Prop :=
  fst st = Z.of_nat (length (snd st)) /\
  map Item.item_id (snd st) = map Z.of_nat (seq 1 (length (snd st))) /\
  Forall (fun it => Item.coverage_id it = Item.item_id it /\
                    Item.group_id it = Item.item_id it /\
                    0 < Item.tiv it) (snd st).

(** The item list only grows. *)
Definition extends (st st' : item_state) : Prop :=
  exists more, snd st' = snd st ++ more.

(** The canonical row of a keys row: the first one whose row id is the
    location id (line 559, [iloc[0]] of the selection). *)
Definition canonical_row (canexp_df : DataFrame) (keys_item : KeysRow)
    : option (string -> Q) :=
  find (fun r => Qeq_bool (r "row_id") (locid keys_item)) (rows canexp_df).

(** Some canonical row has the location id of the keys row as its row id. *)
Definition matched (canexp_df : DataFrame) (keys_item : KeysRow) : bool :=
  existsb (fun r => Qeq_bool (r "row_id") (locid keys_item)) (rows canexp_df).

(** The canonical file has the columns the item loop reads, [row_id] and
    the column of every TIV entry, and every TIV entry names its coverage
    type. *)
Definition schema_ok (canexp_df : DataFrame) (tiv_fields : list ProfileEntry) : bool :=
  has_column "row_id" canexp_df &&
  forallb (fun f => match CoverageTypeID f with
                    | Some _ => has_column (lower (ProfileElementName f)) canexp_df
                    | None => false
                    end) tiv_fields.

(** The row the level expansion makes for an item at a level: the item's
    id, location and TIV, the level name, and nothing else set. *)
Definition blank_row (level : string) (it : Item.t) : Fm.t :=
  {| Fm.itemid := Item.item_id it; Fm.canlocid := Item.canloc_id it;
     Fm.levelid := None; Fm.layerid := None; Fm.aggid := None;
     Fm.policytcid := None; Fm.deductible := None; Fm.limit := None;
     Fm.share := None; Fm.deductibletype := None; Fm.calcrule := None;
     Fm.tiv := Item.tiv it; Fm.fm_level := level |}.

(** A row is the row of this item at this level. *)
Definition row_of (level : string) (it : Item.t) (r : Fm.t) : bool :=
  (Fm.itemid r =? Item.item_id it)%Z && (Fm.fm_level r =? level).

Definition by_key {A} (x y : Z * A) : Prop := (fst x <= fst y)%Z.

(** The value of a term of a term group as read from the canonical rows
    selected for an FM row: the group declares an entry for the term and
    the entry's column, lower-cased, holds the value. *)
Definition term_read (canexp_item : DataFrame) (group : TermGroup)
    (term : string) (v : Q) : Prop :=
  exists entry,
    dict_get String.eqb term group = Some entry /\
    float_of_column canexp_item (lower (ProfileElementName entry)) = Ok v.

(** The locals and the row after the terms of [fm_item] were assigned from
    the limit value [limit_v], the deductible value [ded_v] and the
    deductible entry [ded_entry]. *)
Definition assigned (fm_item : Fm.t) (limit_v ded_v : Q) (ded_entry : ProfileEntry)
    (loc : locals) (row : Fm.t) : Prop :=
  loc = {| limit_val := Some limit_v;
           ded_type := Some (deductible_type_of ded_entry) |} /\
  row = Fm.set_deductibletype (deductible_type_of ded_entry)
          (Fm.set_deductible (amount_or_fraction ded_v (Fm.tiv fm_item))
             (Fm.set_limit (amount_or_fraction limit_v (Fm.tiv fm_item)) fm_item)).

(** A level of the index has entries, and its first entry carries a level
    order (line 604 sorted the entries by it). *)
Definition level_ordered (level : string * LevelFields) : Prop :=
  match snd level with
  | (_, entry) :: _ => FMLevelOrder entry <> None
  | [] => False
  end.

(** A coverage term group that the coverage loop passes over for a row:
    it declares a TIV entry, and the entry's column is missing from the
    canonical rows of the row's location or holds another value than the
    TIV of the row. *)
Definition passed_over (canexp_item : DataFrame) (fm_item : Fm.t)
    (g : Z * TermGroup) : Prop :=
  exists tiv_entry,
    dict_get String.eqb "tiv" (snd g) = Some tiv_entry /\
    (has_column (lower (ProfileElementName tiv_entry)) canexp_item = false \/
     exists v,
       float_of_column canexp_item (lower (ProfileElementName tiv_entry)) = Ok v /\
       ~ v == Fm.tiv fm_item).

(** The TIV entry declares this coverage type. *)
Definition declares (coverage_type : Z) (f : ProfileEntry) : bool :=
  match CoverageTypeID f with
  | Some c => (c =? coverage_type)%Z
  | None => false
  end.

(** Where an item comes from: a keys row, a canonical row with the
    location id of the keys row and a TIV entry declared for the coverage
    type of the keys row. *)
Definition item_from (canexp_df : DataFrame) (keys_df : list KeysRow)
    (tiv_fields : list ProfileEntry) (it : Item.t) : Prop :=
  exists keys_item row tiv_field,
    In keys_item keys_df /\ In row (rows canexp_df) /\ In tiv_field tiv_fields /\
    row "row_id" == locid keys_item /\
    CoverageTypeID tiv_field = Some (coveragetype keys_item) /\
    Item.tiv it = row (lower (ProfileElementName tiv_field)) /\
    Item.canloc_id it = row "row_id" /\
    Item.areaperil_id it = areaperilid keys_item /\
    Item.vulnerability_id it = vulnerabilityid keys_item /\
    Item.summary_id it = 1%Z /\ Item.summaryset_id it = 1%Z.

(** The exceptions the item loop can end in. *)
Definition item_loop_error (canexp_df : DataFrame) (keys_df : list KeysRow)
    (tiv_fields : list ProfileEntry) (e : exn) : Prop :=
  (exists keys_item,
     In keys_item keys_df /\ matched canexp_df keys_item = false /\
     e = OasisException keys_item) \/
  (has_column "row_id" canexp_df = false /\ e = KeyError "row_id") \/
  (exists tiv_field,
     In tiv_field tiv_fields /\ CoverageTypeID tiv_field = None /\
     e = KeyError "CoverageTypeID") \/
  (exists tiv_field,
     In tiv_field tiv_fields /\
     has_column (lower (ProfileElementName tiv_field)) canexp_df = false /\
     e = KeyError (lower (ProfileElementName tiv_field))).

(** The item the loop appends for a keys row when the counter stands at
    [counter] (lines 566-577). *)
Definition new_item (counter : Z) (canloc tiv_value : Q) (keys_item : KeysRow)
    : Item.t :=
  {| Item.item_id := counter + 1;
     Item.canloc_id := canloc;
     Item.coverage_id := counter + 1;
     Item.tiv := tiv_value;
     Item.areaperil_id := areaperilid keys_item;
     Item.vulnerability_id := vulnerabilityid keys_item;
     Item.group_id := counter + 1;
     Item.summary_id := 1;
     Item.summaryset_id := 1 |}.

(** The element has this sort key. *)
Definition has_key {A} (key : A -> result Z) (k : Z) (a : A) : bool :=
  match key a with
  | Ok k' => (k' =? k)%Z
  | Raise _ => false
  end.

(** ** More sample inputs *)
Module Sample2.

Definition ACCDED : ProfileEntry :=
  Sample.entry "ACCDED" (Some "AccountDeductible") None "Account" 3 "Deductible" 1
    (Some "MA").

(** An index with two levels of level order 3, policy iterated first. *)
Definition fm_term_fields : dict string LevelFields :=
  [ ("policy", [ ("polded", Sample.POLDED); ("pollimit", Sample.POLLIMIT) ]);
    ("account", [ ("accded", ACCDED) ]);
    ("coverage", [ ("wscv1val", Sample.WSCV1VAL); ("wscv1limit", Sample.WSCV1LIMIT);
                   ("wscv1ded", Sample.WSCV1DED) ]) ].

(** A canonical file in which row id 1 occurs twice. *)
Definition canexp_df_dup : DataFrame :=
  read_csv
    ["row_id"; "wscv1val"; "wscv1limit"; "wscv1ded"; "wscv2val"; "polded"; "pollimit"]
    [ [1; 1000; 0.5; 0.1; 0; 250; 0];
      [1; 2000; 1500; 50; 300; 250; 5000] ].

(** An index whose account level declares its only term group under id 2,
    and whose site level declares a group with no limit or deductible. *)
Definition grouped_fm_term_fields : dict string TermGroups :=
  [ ("coverage", [ (1%Z, [ ("deductible", Sample.WSCV1DED);
                           ("limit", Sample.WSCV1LIMIT);
                           ("tiv", Sample.WSCV1VAL) ]);
                   (2%Z, [ ("deductible", Sample.POLDED);
                           ("limit", Sample.POLLIMIT);
                           ("tiv", Sample.WSCV1VAL) ]) ]);
    ("site", [ (1%Z, [ ("tiv", Sample.WSCV1VAL) ]) ]);
    ("account", [ (2%Z, [ ("deductible", ACCDED) ]) ]) ].

End Sample2.

(** The columns the level expansion fills and the row loop leaves alone,
    and the four columns no line assigns. *)
Definition same_frame (r0 r : Fm.t) : Prop :=
  Fm.itemid r = Fm.itemid r0 /\ Fm.canlocid r = Fm.canlocid r0 /\
  Fm.tiv r = Fm.tiv r0 /\ Fm.fm_level r = Fm.fm_level r0 /\
  Fm.levelid r = Fm.levelid r0 /\ Fm.layerid r = Fm.layerid r0 /\
  Fm.aggid r = Fm.aggid r0 /\ Fm.policytcid r = Fm.policytcid r0.

(** What the row loop always leaves in a row: share 0 and a calc rule
    other than 15. *)
Definition no_share_rule (r : Fm.t) : Prop :=
  Fm.share r = Some 0 /\
  exists rule, Fm.calcrule r = Some rule /\ In rule [1; 2; 10; 11; 12]%Z.

(** A term group offers no value for a term on this canonical file: it
    declares no entry for the term, or the entry's column is missing. *)
Definition no_term_value (canexp_df : DataFrame) (group : TermGroup)
    (term : string) : Prop :=
  dict_get String.eqb term group = None \/
  exists entry,
    dict_get String.eqb term group = Some entry /\
    has_column (lower (ProfileElementName entry)) canexp_df = false.

(** ** The manager: models, resources and keyword arguments (lines 165-514)

    The values that keyword arguments and model resources hold. An object
    of a class defined outside this file (the files pipeline of a model) is
    the map of its attributes. *)
#[warnings="-register-all"]
Inductive value :=
| VNone
| VBool (b : bool)
| VStr (s : string)
| VProfile (p : dict string ProfileEntry)
| VObject (attrs : list (string * value)).

(** Truth value: [None], [False], the empty string and the empty dict are
    falsy. *)
Definition truth (v : value) : bool :=
  match v with
  | VNone => false
  | VBool b => b
  | VStr s => truthy s
  | VProfile p => match p with [] => false | _ => true end
  | VObject _ => true
  end.

(** [a or b], with [b] evaluated only when [a] is falsy. *)
Definition py_or (a : value) (b : result value) : result value :=
  if truth a then Ok a else b.

(** [d[k] = v] *)
Fixpoint dict_set {V} (k : string) (v : V) (d : dict string V) : dict string V :=
  match d with
  | [] => [(k, v)]
  | (k', v') :: d' => if k =? k' then (k, v) :: d' else (k', v') :: dict_set k v d'
  end.

(** [d.setdefault(k, v)], for its effect on [d]. *)
Definition dict_setdefault {V} (k : string) (v : V) (d : dict string V)
    : dict string V :=
  if dict_has k d then d else dict_set k v d.

(** [del d[k]] *)
Definition dict_del {V} (k : string) (d : dict string V) : dict string V :=
  filter (fun p => negb (k =? fst p)) d.

(** [d.update(other)] *)
Definition dict_update {V} (d other : dict string V) : dict string V :=
  fold_left (fun acc p => dict_set (fst p) (snd p) acc) other d.

(** [d.get(k)] *)
Definition dict_get_or_None (k : string) (d : dict string value) : value :=
  match dict_get String.eqb k d with
  | Some v => v
  | None => VNone
  end.

(** [obj.name] *)
Definition getattr (obj : value) (name : string) : result value :=
  match obj with
  | VObject attrs =>
      match dict_get String.eqb name attrs with
      | Some v => Ok v
      | None => Raise (AttributeError name)
      end
  | _ => Raise (AttributeError name)
  end.

(** [obj.name = v] *)
Definition setattr (obj : value) (name : string) (v : value) : result value :=
  match obj with
  | VObject attrs => Ok (VObject (dict_set name v attrs))
  | _ => Raise (AttributeError name)
  end.

(** An Oasis model object, as far as the manager uses it: its key and its
    resources dict. *)
Module Model.
Record t := {
  key : string;
  resources : dict string value
}.

(** [oasis_model.resources[k] = v] *)
Definition set_resource (k : string) (v : value) (m : t) : t :=
  {| key := key m; resources := dict_set k v (resources m) |}.
End Model.

(** What the manager calls outside this file: the JSON parser on a string
    and on the file at a path, [clear] of a files pipeline, [os.path.abspath],
    [save_keys] of the keys lookup factory and the translator run. *)
Record External := {
  json_loads : value -> result (dict string ProfileEntry);
  json_load_path : value -> result (dict string ProfileEntry);
  pipeline_clear : value -> result value;
  abspath : string -> string;
  save_keys : value -> value -> value -> value
              -> result (value * value * value * value);
  translator : string -> string -> string -> string -> bool -> result unit
}.

(** *** The models dict (lines 165-246) *)

(** [add_model]: [self._models[oasis_model.key] = oasis_model]. *)
Definition add_model (_models : dict string Model.t) (oasis_model : Model.t)
    : dict string Model.t * Model.t :=
  (dict_set (Model.key oasis_model) oasis_model _models, oasis_model).

(** [add_models]: [for model in oasis_models or []]. *)
Definition add_models (_models : dict string Model.t)
    (oasis_models : option (list Model.t)) : dict string Model.t :=
  fold_left (fun acc model => fst (add_model acc model))
    (match oasis_models with Some l => l | None => [] end) _models.

(** [__init__]: an empty dict, then [add_models]. *)
Definition __init__ (oasis_models : option (list Model.t)) : dict string Model.t :=
  add_models [] oasis_models.

(** [delete_model]: when the key is in the dict, clear the files pipeline
    of the model passed in and delete the key. *)
Definition delete_model (ext : External) (_models : dict string Model.t)
    (oasis_model : Model.t) : result (dict string Model.t * Model.t) :=
  if dict_has (Model.key oasis_model) _models then
    pipeline <- dict_getitem "oasis_files_pipeline" (Model.resources oasis_model) ;;
    cleared <- pipeline_clear ext pipeline ;;
    Ok (dict_del (Model.key oasis_model) _models,
        Model.set_resource "oasis_files_pipeline" cleared oasis_model)
  else Ok (_models, oasis_model).

(** [delete_models]: [for model in oasis_models], which raises on [None]. *)
Definition delete_models (ext : External) (_models : dict string Model.t)
    (oasis_models : option (list Model.t)) : result (dict string Model.t) :=
  match oasis_models with
  | None => Raise (TypeError "'NoneType' object is not iterable")
  | Some l =>
      foldM (fun acc model => p <- delete_model ext acc model ;; Ok (fst p)) l _models
  end.

(** The argument of the [models] setter: the manager's own dict object, or
    another dict. *)
Inductive models_arg :=
| SameDict
| OtherDict (val : dict string Model.t).

(** The [models] setter: [self._models.clear()], then
    [self._models.update(val)]. *)
Definition models_setter (_models : dict string Model.t) (val : models_arg)
    : dict string Model.t :=
  let cleared : dict string Model.t := [] in
  match val with
  | SameDict => dict_update cleared cleared
  | OtherDict d => dict_update cleared d
  end.

(** *** Profiles and default keyword arguments (lines 350-404, 472-514) *)

(** The body shared by [load_canonical_exposures_profile] and
    [load_canonical_account_profile], which differ in the names of the
    resources they read and write: the JSON string wins over the JSON file,
    and with neither the profile is the empty dict. *)
Definition load_profile (ext : External) (json_name path_name profile_name : string)
    (oasis_model : option Model.t) (profile_json profile_json_path : value)
    : result (dict string ProfileEntry * option Model.t) :=
  let resource name :=
    match oasis_model with
    | Some m => Ok (dict_get_or_None name (Model.resources m))
    | None => Ok VNone
    end in
  profile_json <-
    (match oasis_model with
     | Some _ => py_or profile_json (resource json_name)
     | None => Ok profile_json
     end) ;;
  profile_json_path <-
    (match oasis_model with
     | Some _ => py_or profile_json_path (resource path_name)
     | None => Ok profile_json_path
     end) ;;
  profile <-
    (if truth profile_json then json_loads ext profile_json
     else if truth profile_json_path then json_load_path ext profile_json_path
     else Ok []) ;;
  Ok (profile,
      option_map (Model.set_resource profile_name (VProfile profile)) oasis_model).

Definition load_canonical_exposures_profile (ext : External) :=
  load_profile ext "canonical_exposures_profile_json"
    "canonical_exposures_profile_json_path" "canonical_exposures_profile".

Definition load_canonical_account_profile (ext : External) :=
  load_profile ext "canonical_account_profile_json"
    "canonical_account_profile_json_path" "canonical_account_profile".

(** Where a default comes from: a resource of the model, read with [get],
    or an attribute of the model's files pipeline. *)
Inductive default_source :=
| FromResources (name : string)
| FromPipeline (attr : string).

(** Lines 474-498, one [setdefault] per line, in order. *)
Definition default_kwargs : list (string * default_source) :=
  [ ("source_exposures_file_path", FromResources "source_exposures_file_path");
    ("source_account_file_path", FromResources "source_account_file_path");
    ("source_exposures_validation_file_path",
     FromResources "source_exposures_validation_file_path");
    ("source_to_canonical_exposures_transformation_file_path",
     FromResources "source_to_canonical_exposures_transformation_file_path");
    ("canonical_exposures_profile", FromResources "canonical_exposures_profile");
    ("canonical_exposures_profile_json",
     FromResources "canonical_exposures_profile_json");
    ("canonical_exposures_profile_json_path",
     FromResources "canonical_exposures_profile_json_path");
    ("canonical_account_profile", FromResources "canonical_account_profile");
    ("canonical_account_profile_json", FromResources "canonical_account_profile_json");
    ("canonical_account_profile_json_path",
     FromResources "canonical_account_profile_json_path");
    ("canonical_account_file_path", FromPipeline "canonical_account_file_path");
    ("canonical_exposures_file_path", FromPipeline "canonical_exposures_file_path");
    ("canonical_exposures_validation_file_path",
     FromResources "canonical_exposures_validation_file_path");
    ("canonical_to_model_exposures_transformation_file_path",
     FromResources "canonical_to_model_exposures_transformation_file_path");
    ("model_exposures_file_path", FromPipeline "model_exposures_file_path");
    ("keys_file_path", FromPipeline "keys_file_path");
    ("keys_errors_file_path", FromPipeline "keys_errors_file_path");
    ("items_file_path", FromPipeline "items_file_path");
    ("coverages_file_path", FromPipeline "coverages_file_path");
    ("gulsummaryxref_file_path", FromPipeline "gulsummaryxref_file_path");
    ("fm_policytc_file_path", FromPipeline "fm_policytc_file_path");
    ("fm_profile_file_path", FromPipeline "fm_profile_file_path");
    ("fm_policytc_file_path", FromPipeline "fm_programme_file_path");
    ("fm_xref_file_path", FromPipeline "fm_xref_file_path");
    ("fmsummaryxref_file_path", FromPipeline "fmsummaryxref_file_path") ].

(** The second argument of one [setdefault], evaluated whether or not the
    key is there. *)
Definition default_value (oasis_model : Model.t) (src : default_source)
    : result value :=
  match src with
  | FromResources name => Ok (dict_get_or_None name (Model.resources oasis_model))
  | FromPipeline attr =>
      pipeline <- dict_getitem "oasis_files_pipeline" (Model.resources oasis_model) ;;
      getattr pipeline attr
  end.

Definition setdefault_step (oasis_model : Model.t) (kwargs : dict string value)
    (line : string * default_source) : result (dict string value) :=
  v <- default_value oasis_model (snd line) ;;
  Ok (dict_setdefault (fst line) v kwargs).

(** [_process_default_kwargs] *)
Definition _process_default_kwargs (ext : External) (oasis_model : option Model.t)
    (kwargs : dict string value) : result (dict string value * option Model.t) :=
  kwargs <-
    (match oasis_model with
     | Some m => foldM (setdefault_step m) default_kwargs kwargs
     | None => Ok kwargs
     end) ;;
  '(kwargs, oasis_model) <-
    (if negb (truth (dict_get_or_None "canonical_exposures_profile" kwargs)) then
       '(profile, oasis_model) <-
         load_canonical_exposures_profile ext oasis_model
           (dict_get_or_None "canonical_exposures_profile_json" kwargs)
           (dict_get_or_None "canonical_exposures_profile_json_path" kwargs) ;;
       Ok (dict_set "canonical_exposures_profile" (VProfile profile) kwargs,
           oasis_model)
     else Ok (kwargs, oasis_model)) ;;
  if truth (dict_get_or_None "include_fm" kwargs)
     && negb (truth (dict_get_or_None "canonical_account_profile" kwargs)) then
    '(profile, oasis_model) <-
      load_canonical_account_profile ext oasis_model
        (dict_get_or_None "canonical_account_profile_json" kwargs)
        (dict_get_or_None "canonical_account_profile_json_path" kwargs) ;;
    Ok (dict_set "canonical_account_profile" (VProfile profile) kwargs, oasis_model)
  else Ok (kwargs, oasis_model).

(** *** Keys and transformations (lines 248-348, 406-470) *)

(** [os.path.isabs] *)
Definition isabs (s : string) : bool :=
  match s with
  | String c _ => Ascii.eqb c "/"
  | EmptyString => false
  end.

(** [os.path.abspath(p) if p and not os.path.isabs(p) else p]; a truthy
    value that is no string has no [startswith]. *)
Definition absolute (ext : External) (p : value) : result value :=
  if truth p then
    match p with
    | VStr s => Ok (if negb (isabs s) then VStr (abspath ext s) else p)
    | _ => Raise (AttributeError "startswith")
    end
  else Ok p.

(** [oasis_model.resources['oasis_files_pipeline'].attr] *)
Definition pipeline_attr (oasis_model : Model.t) (attr : string) : result value :=
  pipeline <- dict_getitem "oasis_files_pipeline" (Model.resources oasis_model) ;;
  getattr pipeline attr.

(** [oasis_model.resources['oasis_files_pipeline'].attr = v] *)
Definition set_pipeline_attr (oasis_model : Model.t) (attr : string) (v : value)
    : result Model.t :=
  pipeline <- dict_getitem "oasis_files_pipeline" (Model.resources oasis_model) ;;
  pipeline <- setattr pipeline attr v ;;
  Ok (Model.set_resource "oasis_files_pipeline" pipeline oasis_model).

(** [get_keys]: the four locals are bound under [if oasis_model:] only. *)
Definition get_keys (ext : External) (oasis_model : option Model.t)
    (model_exposures_file_path lookup keys_file_path keys_errors_file_path : value)
    : result (value * value * option Model.t) :=
  '(_model_exposures_file_path, _lookup, _keys_file_path, _keys_errors_file_path) <-
    (match oasis_model with
     | Some m =>
         a <- py_or model_exposures_file_path
                (pipeline_attr m "model_exposures_file_path") ;;
         b <- py_or lookup (Ok (dict_get_or_None "lookup" (Model.resources m))) ;;
         c <- py_or keys_file_path (pipeline_attr m "keys_file_path") ;;
         d <- py_or keys_errors_file_path (pipeline_attr m "keys_errors_file_path") ;;
         Ok (Some a, Some b, Some c, Some d)
     | None => Ok (None, None, None, None)
     end) ;;
  a <- read_local "_model_exposures_file_path" _model_exposures_file_path ;;
  c <- read_local "_keys_file_path" _keys_file_path ;;
  d <- read_local "_keys_errors_file_path" _keys_errors_file_path ;;
  a <- absolute ext a ;;
  c <- absolute ext c ;;
  d <- absolute ext d ;;
  b <- read_local "_lookup" _lookup ;;
  '(c, _, d, _) <- save_keys ext c d b a ;;
  oasis_model <-
    (match oasis_model with
     | Some m =>
         m <- set_pipeline_attr m "keys_file_path" c ;;
         m <- set_pipeline_attr m "keys_errors_file_path" d ;;
         Ok (Some m)
     | None => Ok None
     end) ;;
  Ok (c, d, oasis_model).

(** [os.path.abspath(kwargs[k])] *)
Definition kwargs_path (ext : External) (kwargs : dict string value) (k : string)
    : result string :=
  v <- dict_getitem k kwargs ;;
  match v with
  | VStr s => Ok (abspath ext s)
  | _ => Raise (AttributeError "startswith")
  end.

(** [transform_source_to_canonical] *)
Definition transform_source_to_canonical (ext : External)
    (oasis_model : option Model.t) (source_type : string)
    (kwargs : dict string value) : result (string * option Model.t) :=
  '(kwargs, oasis_model) <- _process_default_kwargs ext oasis_model kwargs ;;
  let account := source_type =? "account" in
  input_file_path <-
    kwargs_path ext kwargs
      (if account then "source_account_file_path"
       else "source_exposures_file_path") ;;
  validation_file_path <-
    kwargs_path ext kwargs
      (if account then "source_account_validation_file_path"
       else "source_exposures_validation_file_path") ;;
  transformation_file_path <-
    kwargs_path ext kwargs
      (if account then "source_to_canonical_account_transformation_file_path"
       else "source_to_canonical_exposures_transformation_file_path") ;;
  output_file_path <-
    kwargs_path ext kwargs
      (if account then "canonical_account_file_path"
       else "canonical_exposures_file_path") ;;
  _ <- translator ext input_file_path output_file_path validation_file_path
         transformation_file_path true ;;
  oasis_model <-
    (match oasis_model with
     | Some m =>
         m <- set_pipeline_attr m
                (if account then "canonical_account_file_path"
                 else "canonical_exposures_file_path") (VStr output_file_path) ;;
         Ok (Some m)
     | None => Ok None
     end) ;;
  Ok (output_file_path, oasis_model).

(** [transform_canonical_to_model] *)
Definition transform_canonical_to_model (ext : External)
    (oasis_model : option Model.t) (kwargs : dict string value)
    : result (string * option Model.t) :=
  '(kwargs, oasis_model) <- _process_default_kwargs ext oasis_model kwargs ;;
  input_file_path <- kwargs_path ext kwargs "canonical_exposures_file_path" ;;
  validation_file_path <-
    kwargs_path ext kwargs "canonical_exposures_validation_file_path" ;;
  transformation_file_path <-
    kwargs_path ext kwargs "canonical_to_model_exposures_transformation_file_path" ;;
  output_file_path <- kwargs_path ext kwargs "model_exposures_file_path" ;;
  _ <- translator ext input_file_path output_file_path validation_file_path
         transformation_file_path false ;;
  oasis_model <-
    (match oasis_model with
     | Some m =>
         m <- set_pipeline_attr m "model_exposures_file_path" (VStr output_file_path) ;;
         Ok (Some m)
     | None => Ok None
     end) ;;
  Ok (output_file_path, oasis_model).

(** A model with a files pipeline and the external calls of a run in which
    nothing fails, for the examples. *)
Module Sample3.

Definition pipeline : value :=
  VObject
    (map (fun attr => (attr, VStr ("/run/" ++ attr)%string))
       [ "canonical_account_file_path"; "canonical_exposures_file_path";
         "model_exposures_file_path"; "keys_file_path"; "keys_errors_file_path";
         "items_file_path"; "coverages_file_path"; "gulsummaryxref_file_path";
         "fm_policytc_file_path"; "fm_profile_file_path"; "fm_programme_file_path";
         "fm_xref_file_path"; "fmsummaryxref_file_path" ]).

Definition model : Model.t :=
  {| Model.key := "supplier/model/1";
     Model.resources :=
       [ ("oasis_files_pipeline", pipeline);
         ("source_account_file_path", VStr "/in/account.csv");
         ("source_exposures_file_path", VStr "/in/exposures.csv");
         ("canonical_exposures_profile",
          VProfile [ ("WSCV1VAL", Sample.WSCV1VAL) ]) ] |}.

Definition other_model : Model.t :=
  {| Model.key := "supplier/other/1"; Model.resources := [] |}.

Definition ext : External :=
  {| json_loads := fun _ => Ok [];
     json_load_path := fun _ => Ok [];
     pipeline_clear := fun _ => Ok (VObject []);
     abspath := fun s => if isabs s then s else ("/cwd/" ++ s)%string;
     save_keys := fun k e _ _ => Ok (k, VNone, e, VNone);
     translator := fun _ _ _ _ _ => Ok tt |}.

End Sample3.

(** External calls among which the JSON parser rejects every input. *)
Definition no_json (ext : External) : External :=
  {| json_loads := fun _ => Raise (TypeError "not JSON");
     json_load_path := fun _ => Raise (TypeError "not JSON");
     pipeline_clear := pipeline_clear ext;
     abspath := abspath ext;
     save_keys := save_keys ext;
     translator := translator ext |}.

(** The term a row stores for a value read: the value times the TIV of the
    row when the value is at most 1, the value itself when it is above 1. *)
Definition fraction_or_amount (tiv v : Q) (stored : option Q) : Prop :=
  (v <= 1 -> stored = Some (v * tiv)) /\ (1 < v -> stored = Some v).

(** The value a row of another level than coverage reads for a term from
    group 1 of its level (lines 652-653 and 656-657): the value of the
    column the group declares for the term, when it declares one under a
    name that is not empty and the canonical rows have the column; 0 when
    the group declares no entry for the term, the name is empty or the
    column is missing. *)
Definition level_term_read (canexp_item : DataFrame) (group : TermGroup)
    (term : string) (v : Q) : Prop :=
  (exists entry,
     dict_get String.eqb term group = Some entry /\
     lower (ProfileElementName entry) <> "" /\
     float_of_column canexp_item (lower (ProfileElementName entry)) = Ok v) \/
  (v = 0 /\
   (dict_get String.eqb term group = None \/
    exists entry,
      dict_get String.eqb term group = Some entry /\
      (lower (ProfileElementName entry) = "" \/
       has_column (lower (ProfileElementName entry)) canexp_item = false))).

(** ** A sample whose first coverage row has limit 0

    The canonical file of [Sample] with the coverage limit of location 1
    at 0, and a keys file with location 1 under coverage type 1 and
    location 2 under coverage type 2. *)
Module Sample4.

Definition canexp_df : DataFrame :=
  read_csv
    ["row_id"; "wscv1val"; "wscv1limit"; "wscv1ded"; "wscv2val"; "polded"; "pollimit"]
    [ [1; 1000; 0; 0.1; 0; 250; 0];
      [2; 1000; 1500; 50; 300; 250; 5000] ].

Definition keys_df : list KeysRow :=
  [ Sample.key 1 1 11 101; Sample.key 2 2 14 104 ].

End Sample4.

(** * Properties *)

#[local] Arguments String.eqb : simpl never.
#[local] Arguments lower : simpl never.

(** ** The result monad and the loops *)

Lemma bind_Ok_inv {A B} (m : result A) (k : A -> result B) (b : B) :
  bind m k = Ok b -> exists a, m = Ok a /\ k a = Ok b.
Proof.
  destruct m as [a|e]; simpl; intros H; [exists a; auto | discriminate].
Qed.

Ltac inv_bind H :=
  let a := fresh "a" in
  let Ha := fresh "Ha" in
  apply bind_Ok_inv in H as (a & Ha & H).

Tactic Notation "bind_inv" hyp(H) "as" ident(x) ident(Hx) :=
  apply bind_Ok_inv in H as (x & Hx & H).

Lemma foldM_app {A S} (body : S -> A -> result S) (l1 l2 : list A) (s : S) :
  foldM body (l1 ++ l2) s = bind (foldM body l1 s) (foldM body l2).
Proof.
  revert s; induction l1 as [|a l1 IH]; intros s; simpl; [reflexivity|].
  destruct (body s a) as [s'|e]; simpl; [apply IH | reflexivity].
Qed.

(** A relation between states that every iteration respects holds between
    the first and the last state of the loop. *)
Lemma foldM_rel {A S} (body : S -> A -> result S) (R : S -> S -> Prop) :
  (forall s, R s s) ->
  (forall s1 s2 s3, R s1 s2 -> R s2 s3 -> R s1 s3) ->
  forall l : list A,
  (forall s a s', In a l -> body s a = Ok s' -> R s s') ->
  forall s s', foldM body l s = Ok s' -> R s s'.
Proof.
  intros Hrefl Htrans l; induction l as [|a l IH]; intros Hstep s s' H; simpl in H.
  - injection H as <-; apply Hrefl.
  - inv_bind H. apply Htrans with a0.
    + apply (Hstep s a a0); [left; reflexivity | assumption].
    + apply IH; [|assumption]. intros; eapply Hstep; [right|]; eassumption.
Qed.

Lemma foldM_inv {A S} (body : S -> A -> result S) (P : S -> Prop) (l : list A) :
  (forall s a s', In a l -> P s -> body s a = Ok s' -> P s') ->
  forall s s', P s -> foldM body l s = Ok s' -> P s'.
Proof.
  induction l as [|a l IH]; intros Hstep s s' Hs H; simpl in H.
  - injection H as <-; assumption.
  - inv_bind H. apply (IH (fun s a s' Hin => Hstep s a s' (or_intror Hin)) a0 s');
      [|assumption].
    apply (Hstep s a a0); [left; reflexivity | assumption | assumption].
Qed.

(** A loop with an iteration that raises from every state raises. *)
Lemma foldM_raises {A S} (body : S -> A -> result S) (l : list A) (a : A) :
  In a l -> (forall s, exists e, body s a = Raise e) ->
  forall s, exists e, foldM body l s = Raise e.
Proof.
  intros Hin Ha; induction l as [|b l IH]; intros s; [destruct Hin|].
  simpl. destruct (body s b) as [s'|e] eqn:Hb; simpl; [|eauto].
  destruct Hin as [->|Hin]; [|apply IH; assumption].
  destruct (Ha s) as [e He]; congruence.
Qed.

Lemma filterM_sub {A} (pred : A -> result bool) (P : A -> Prop) (l ms : list A) :
  Forall P l -> filterM pred l = Ok ms -> Forall P ms.
Proof.
  revert ms; induction l as [|a l IH]; intros ms Hl H; simpl in H.
  - injection H as <-; constructor.
  - inv_bind H. inv_bind H. injection H as <-.
    inversion Hl; subst. destruct a0; [constructor|]; auto.
Qed.

(** ** Comparisons *)

Lemma Qgt_bool_true (x y : Q) : Qgt_bool x y = true <-> y < x.
Proof.
  unfold Qgt_bool. rewrite negb_true_iff. split.
  - intros H. apply Qnot_le_lt. intros Hle.
    apply Qle_bool_iff in Hle. congruence.
  - intros H. destruct (Qle_bool x y) eqn:E; [|reflexivity].
    apply Qle_bool_iff in E. exfalso. apply (Qlt_not_le _ _ H E).
Qed.

Lemma Qgt_bool_false (x y : Q) : Qgt_bool x y = false <-> x <= y.
Proof.
  unfold Qgt_bool. rewrite negb_false_iff. apply Qle_bool_iff.
Qed.

(** ** The item table *)

Lemma tiv_field_step_inv canexp_item keys_item st tiv_field st' :
  tiv_field_step canexp_item keys_item st tiv_field = Ok st' ->
  st' = st \/
  exists it, emitted (fst st) keys_item it /\
             st' = ((fst st + 1)%Z, snd st ++ [it]).
Proof.
  unfold tiv_field_step; intros H. inv_bind H.
  destruct (Qgt_bool a 0) eqn:E.
  - inv_bind H. injection H as <-. right. eexists; split; [|reflexivity].
    unfold emitted; simpl. apply Qgt_bool_true in E. repeat split; assumption.
  - injection H as <-. left; reflexivity.
Qed.

Lemma numbered_tiv_field_step canexp_item keys_item st tiv_field st' :
  numbered st ->
  tiv_field_step canexp_item keys_item st tiv_field = Ok st' ->
  numbered st'.
Proof.
  intros (Hc & Hids & Hall) H.
  apply tiv_field_step_inv in H as [->|(it & Hit & ->)]; [repeat split; assumption|].
  destruct Hit as (Hid & Hcov & Hgrp & _ & _ & Htiv).
  unfold numbered; simpl. rewrite length_app; simpl.
  replace (length (snd st) + 1)%nat with (S (length (snd st))) by lia.
  repeat split.
  - rewrite Hc; lia.
  - rewrite map_app, Hids, seq_S, map_app; simpl.
    rewrite Hid, Hc. do 2 f_equal. lia.
  - apply Forall_app; split; [assumption|]. constructor; [|constructor]. auto.
Qed.

Lemma numbered_keys_item_step canexp_df tiv_fields st keys_item st' :
  numbered st ->
  keys_item_step canexp_df tiv_fields st keys_item = Ok st' ->
  numbered st'.
Proof.
  unfold keys_item_step; intros Hst H. inv_bind H.
  destruct (empty a); [discriminate|]. inv_bind H. inv_bind H.
  revert H; apply foldM_inv; [|assumption].
  intros s f s' _; apply numbered_tiv_field_step.
Qed.

Lemma extends_keys_item_step canexp_df tiv_fields st keys_item st' :
  keys_item_step canexp_df tiv_fields st keys_item = Ok st' -> extends st st'.
Proof.
  unfold keys_item_step; intros H. inv_bind H.
  destruct (empty a); [discriminate|]. inv_bind H. inv_bind H.
  revert H; apply foldM_rel.
  - intros s; exists []; symmetry; apply app_nil_r.
  - intros s1 s2 s3 (m1 & H1) (m2 & H2); exists (m1 ++ m2).
    rewrite H2, H1, app_assoc; reflexivity.
  - intros s f s' _ Hf. apply tiv_field_step_inv in Hf as [->|(it & _ & ->)].
    + exists []; symmetry; apply app_nil_r.
    + exists [it]; reflexivity.
Qed.

Lemma numbered_load canexp_df keys_df tiv_fields st :
  foldM (keys_item_step canexp_df tiv_fields) keys_df (0%Z, []) = Ok st ->
  numbered st.
Proof.
  apply foldM_inv.
  - intros s k s' _; apply numbered_keys_item_step.
  - repeat split; constructor.
Qed.

(** C3: the item ids of a run are 1, 2, ..., n with no gap and no repeat;
    every item has coverage id = group id = item id; and the items follow
    the order of the keys rows: the table of any leading part of the keys
    file is a leading part of the table of the whole file. *)
Theorem item_ids_contiguous canexp_df keys_df tiv_fields items :
  load_exposure_master_data_frame canexp_df keys_df tiv_fields = Ok items ->
  map Item.item_id items = map Z.of_nat (seq 1 (length items)) /\
  Forall (fun it => Item.coverage_id it = Item.item_id it /\
                    Item.group_id it = Item.item_id it) items /\
  (forall pre post, keys_df = pre ++ post ->
     exists before after,
       load_exposure_master_data_frame canexp_df pre tiv_fields = Ok before /\
       items = before ++ after).
Proof.
  unfold load_exposure_master_data_frame; intros H. inv_bind H.
  injection H as <-. split; [|split].
  - apply numbered_load in Ha. apply Ha.
  - apply numbered_load in Ha. destruct Ha as (_ & _ & Hall).
    revert Hall; apply Forall_impl; intros it (? & ? & _); auto.
  - intros pre post ->. rewrite foldM_app in Ha. inv_bind Ha.
    assert (Hext : extends a0 a).
    { revert Ha; apply foldM_rel.
      - intros s; exists []; symmetry; apply app_nil_r.
      - intros s1 s2 s3 (m1 & H1) (m2 & H2); exists (m1 ++ m2).
        rewrite H2, H1, app_assoc; reflexivity.
      - intros s k s' _; apply extends_keys_item_step. }
    destruct Hext as (more & Hmore).
    exists (snd a0), more. rewrite Ha0; simpl. auto.
Qed.

Lemma item_ids_contiguous_sample :
  exists items,
    load_exposure_master_data_frame Sample.canexp_df Sample.keys_df Sample.tiv_fields
      = Ok items /\
    map Item.item_id items = [1; 2; 3]%Z /\
    map Item.item_id items = map Z.of_nat (seq 1 (length items)).
Proof.
  destruct (load_exposure_master_data_frame Sample.canexp_df Sample.keys_df
              Sample.tiv_fields) as [items|e] eqn:E; [|vm_compute in E; discriminate].
  exists items. split; [reflexivity|]. split.
  - vm_compute in E. injection E as <-. reflexivity.
  - exact (proj1 (item_ids_contiguous _ _ _ items E)).
Defined.

(** Every item of the table has a strictly positive TIV. *)
Lemma items_positive_tiv canexp_df keys_df tiv_fields items :
  load_exposure_master_data_frame canexp_df keys_df tiv_fields = Ok items ->
  Forall (fun it => 0 < Item.tiv it) items.
Proof.
  unfold load_exposure_master_data_frame; intros H. inv_bind H.
  injection H as <-. apply numbered_load in Ha. destruct Ha as (_ & _ & Hall).
  revert Hall; apply Forall_impl; intros it (_ & _ & ?); assumption.
Qed.

Lemma find_filter {A} (p : A -> bool) (l : list A) (a : A) :
  find p l = Some a -> exists t, filter p l = a :: t.
Proof.
  induction l as [|b l IH]; simpl; [discriminate|].
  destruct (p b) eqn:E.
  - intros [= ->]. eauto.
  - assumption.
Qed.

Lemma has_column_nonempty label df :
  has_column label df = true -> columns df <> [].
Proof.
  unfold has_column; destruct (columns df); simpl; congruence.
Qed.

(** C4: for a keys row with a canonical row and one TIV entry for its
    coverage type, the TIV value read from the entry's column decides: at a
    value <= 0 the row leaves the item table and the counter as they are,
    at a value > 0 it appends exactly one item, carrying that value. *)
Theorem item_iff_positive_tiv canexp_df tiv_fields st keys_item row tiv_field :
  has_column "row_id" canexp_df = true ->
  canonical_row canexp_df keys_item = Some row ->
  tiv_field_matches tiv_fields keys_item = Ok [tiv_field] ->
  has_column (lower (ProfileElementName tiv_field)) canexp_df = true ->
  let tiv_value := row (lower (ProfileElementName tiv_field)) in
  (tiv_value <= 0 ->
     keys_item_step canexp_df tiv_fields st keys_item = Ok st) /\
  (0 < tiv_value ->
     keys_item_step canexp_df tiv_fields st keys_item =
       Ok ((fst st + 1)%Z,
           snd st ++ [ {| Item.item_id := fst st + 1;
                          Item.canloc_id := row "row_id";
                          Item.coverage_id := fst st + 1;
                          Item.tiv := tiv_value;
                          Item.areaperil_id := areaperilid keys_item;
                          Item.vulnerability_id := vulnerabilityid keys_item;
                          Item.group_id := fst st + 1;
                          Item.summary_id := 1;
                          Item.summaryset_id := 1 |} ])).
Proof.
  intros Hrow Hcan Hmatch Hcol tiv_value.
  assert (Hstep : keys_item_step canexp_df tiv_fields st keys_item =
                  bind (tiv_field_step {| index := columns canexp_df; values := row |}
                          keys_item st tiv_field) (fun s => Ok s)).
  { unfold keys_item_step, select_eq. rewrite Hrow; simpl.
    apply find_filter in Hcan as (t & Ht).
    unfold empty, iloc0; simpl. rewrite Ht.
    destruct (columns canexp_df) eqn:Ec;
      [apply has_column_nonempty in Hrow; congruence|].
    simpl. rewrite Hmatch. reflexivity. }
  rewrite Hstep. unfold tiv_field_step, series_get; simpl.
  unfold has_column in Hcol, Hrow. rewrite Hcol; simpl. fold tiv_value.
  split; intros Hv.
  - apply Qgt_bool_false in Hv. rewrite Hv. destruct st; reflexivity.
  - apply Qgt_bool_true in Hv. rewrite Hv, Hrow. reflexivity.
Qed.

Lemma item_iff_positive_tiv_sample :
  keys_item_step Sample.canexp_df Sample.tiv_fields (2%Z, []) (Sample.key 1 2 13 103)
    = Ok (2%Z, []) /\
  exists it,
    keys_item_step Sample.canexp_df Sample.tiv_fields (0%Z, []) (Sample.key 1 1 11 101)
      = Ok (1%Z, [it]) /\ Item.tiv it = 1000.
Proof.
  split.
  - refine (proj1 (item_iff_positive_tiv Sample.canexp_df Sample.tiv_fields
                     (2%Z, []) (Sample.key 1 2 13 103) _ Sample.WSCV2VAL
                     eq_refl eq_refl eq_refl eq_refl) _).
    vm_compute; discriminate.
  - eexists; split.
    + refine (proj2 (item_iff_positive_tiv Sample.canexp_df Sample.tiv_fields
                       (0%Z, []) (Sample.key 1 1 11 101) _ Sample.WSCV1VAL
                       eq_refl eq_refl eq_refl eq_refl) _).
      vm_compute; reflexivity.
    + reflexivity.
Defined.

(** ** The missing canonical record *)

Lemma existsb_filter {A} (p : A -> bool) (l : list A) :
  existsb p l = true -> exists a t, filter p l = a :: t.
Proof.
  induction l as [|b l IH]; simpl; [discriminate|].
  destruct (p b); simpl; eauto.
Qed.

Lemma not_existsb_filter {A} (p : A -> bool) (l : list A) :
  existsb p l = false -> filter p l = [].
Proof.
  induction l as [|b l IH]; simpl; [reflexivity|].
  destruct (p b); simpl; [discriminate | assumption].
Qed.

Lemma keys_item_step_unmatched canexp_df tiv_fields st keys_item :
  matched canexp_df keys_item = false ->
  keys_item_step canexp_df tiv_fields st keys_item =
    if has_column "row_id" canexp_df then Raise (OasisException keys_item)
    else Raise (KeyError "row_id").
Proof.
  unfold matched, keys_item_step, select_eq; intros H.
  destruct (has_column "row_id" canexp_df); [|reflexivity].
  apply not_existsb_filter in H. cbn [bind]. unfold empty; cbn [rows columns].
  rewrite H. reflexivity.
Qed.

Lemma filterM_total {A} (pred : A -> result bool) (l : list A) :
  (forall a, In a l -> exists b, pred a = Ok b) ->
  exists ms, filterM pred l = Ok ms.
Proof.
  induction l as [|a l IH]; intros H; simpl; [eauto|].
  destruct (H a (or_introl eq_refl)) as (b & ->).
  destruct IH as (ms & ->); [intros; apply H; right; assumption|].
  simpl; eauto.
Qed.

Lemma foldM_total {A S} (body : S -> A -> result S) (l : list A) :
  (forall s a, In a l -> exists s', body s a = Ok s') ->
  forall s, exists s', foldM body l s = Ok s'.
Proof.
  induction l as [|a l IH]; intros H s; simpl; [eauto|].
  destruct (H s a (or_introl eq_refl)) as (s1 & ->). simpl.
  apply IH. intros; apply H; right; assumption.
Qed.

(** With the columns in place, a matched keys row is processed without an
    exception. *)
Lemma keys_item_step_matched canexp_df tiv_fields st keys_item :
  schema_ok canexp_df tiv_fields = true ->
  matched canexp_df keys_item = true ->
  exists st', keys_item_step canexp_df tiv_fields st keys_item = Ok st'.
Proof.
  unfold schema_ok, matched, keys_item_step, select_eq.
  intros Hs Hm. apply andb_true_iff in Hs as (Hrow & Hall). rewrite Hrow.
  apply existsb_filter in Hm as (r & t & Hf). cbn [bind].
  unfold empty, iloc0; cbn [rows columns]. rewrite Hf.
  destruct (columns canexp_df) eqn:Ec;
    [apply has_column_nonempty in Hrow; congruence|].
  rewrite <- Ec. cbn [bind].
  rewrite forallb_forall in Hall.
  destruct (filterM_total
              (fun f => c <- getitem "CoverageTypeID" (CoverageTypeID f) ;;
                        Ok (c =? coveragetype keys_item)%Z) tiv_fields)
    as (ms & Hms).
  { intros f Hf'. specialize (Hall f Hf').
    destruct (CoverageTypeID f); [simpl; eauto | discriminate]. }
  unfold tiv_field_matches. rewrite Hms. cbn [bind].
  assert (Hcols : Forall (fun f => has_column (lower (ProfileElementName f))
                                     canexp_df = true) ms).
  { eapply filterM_sub; [|exact Hms].
    apply Forall_forall; intros f Hf'. specialize (Hall f Hf').
    destruct (CoverageTypeID f); [assumption | discriminate]. }
  rewrite Forall_forall in Hcols.
  apply foldM_total. intros s0 f Hf'. specialize (Hcols f Hf').
  unfold tiv_field_step, series_get; cbn [index values].
  unfold has_column in Hcols, Hrow. rewrite Hcols. cbn [bind].
  destruct (Qgt_bool _ 0); [rewrite Hrow; cbn [bind]|]; eauto.
Qed.

Lemma first_unmatched_raises canexp_df tiv_fields keys_df :
  schema_ok canexp_df tiv_fields = true ->
  forallb (matched canexp_df) keys_df = false ->
  forall st, exists pre first post,
    keys_df = pre ++ first :: post /\
    forallb (matched canexp_df) pre = true /\
    matched canexp_df first = false /\
    foldM (keys_item_step canexp_df tiv_fields) keys_df st
      = Raise (OasisException first).
Proof.
  intros Hs; induction keys_df as [|k l IH]; intros Hl st; [discriminate|].
  simpl in Hl. destruct (matched canexp_df k) eqn:Hk.
  - destruct (keys_item_step_matched _ _ st _ Hs Hk) as (st' & Hst').
    destruct (IH Hl st') as (pre & first & post & -> & Hpre & Hfirst & Hrun).
    exists (k :: pre), first, post. simpl. rewrite Hk, Hst'. simpl. auto.
  - exists [], k, l. simpl. rewrite keys_item_step_unmatched by assumption.
    unfold schema_ok in Hs. apply andb_true_iff in Hs as (-> & _). auto.
Qed.

(** C9: a keys row with no canonical row aborts the run, so that no item
    table comes out of it; and with the columns of the canonical file in
    place the exception is the [OasisException] for the first such keys
    row. *)
Theorem unmatched_keys_row_aborts canexp_df keys_df tiv_fields keys_item :
  In keys_item keys_df ->
  matched canexp_df keys_item = false ->
  (exists e, load_exposure_master_data_frame canexp_df keys_df tiv_fields = Raise e) /\
  (schema_ok canexp_df tiv_fields = true ->
   exists pre first post,
     keys_df = pre ++ first :: post /\
     forallb (matched canexp_df) pre = true /\
     matched canexp_df first = false /\
     load_exposure_master_data_frame canexp_df keys_df tiv_fields
       = Raise (OasisException first)).
Proof.
  intros Hin Hk. unfold load_exposure_master_data_frame. split.
  - destruct (foldM_raises (keys_item_step canexp_df tiv_fields) keys_df keys_item Hin)
      with (s := (0%Z, @nil Item.t)) as (e & He).
    + intros s. rewrite keys_item_step_unmatched by assumption.
      destruct (has_column "row_id" canexp_df); eauto.
    + exists e. rewrite He. reflexivity.
  - intros Hs.
    assert (Hl : forallb (matched canexp_df) keys_df = false).
    { destruct (forallb (matched canexp_df) keys_df) eqn:E; [|reflexivity].
      rewrite forallb_forall in E. rewrite (E _ Hin) in Hk. discriminate. }
    destruct (first_unmatched_raises _ _ _ Hs Hl (0%Z, []))
      as (pre & first & post & Heq & Hpre & Hfirst & Hrun).
    exists pre, first, post. rewrite Hrun. auto.
Qed.

Lemma unmatched_keys_row_aborts_sample :
  load_exposure_master_data_frame Sample.canexp_df Sample.keys_df_unmatched
    Sample.tiv_fields = Raise (OasisException (Sample.key 7 1 12 102)) /\
  exists e,
    load_exposure_master_data_frame Sample.canexp_df Sample.keys_df_unmatched
      Sample.tiv_fields = Raise e.
Proof.
  split; [vm_compute; reflexivity|].
  apply (unmatched_keys_row_aborts Sample.canexp_df Sample.keys_df_unmatched
           Sample.tiv_fields (Sample.key 7 1 12 102)).
  - simpl; auto.
  - reflexivity.
Defined.

(** ** Sorting by key *)

Lemma insert_by_key_perm {A} (x : Z * A) (l : list (Z * A)) :
  Permutation (insert_by_key x l) (x :: l).
Proof.
  induction l as [|y l IH]; simpl; [reflexivity|].
  destruct (fst x <=? fst y)%Z; [reflexivity|].
  rewrite IH. apply perm_swap.
Qed.

Lemma sort_by_key_perm {A} (l : list (Z * A)) : Permutation (sort_by_key l) l.
Proof.
  induction l as [|x l IH]; simpl; [reflexivity|].
  rewrite insert_by_key_perm. constructor; assumption.
Qed.

Lemma insert_by_key_hd {A} (x y : Z * A) (l : list (Z * A)) :
  by_key y x -> HdRel by_key y l -> HdRel by_key y (insert_by_key x l).
Proof.
  intros Hyx Hl; destruct l as [|z l]; simpl; [constructor; assumption|].
  destruct (fst x <=? fst z)%Z; constructor; [assumption|].
  inversion Hl; assumption.
Qed.

Lemma insert_by_key_sorted {A} (x : Z * A) (l : list (Z * A)) :
  Sorted by_key l -> Sorted by_key (insert_by_key x l).
Proof.
  induction l as [|y l IH]; intros Hl; simpl.
  - constructor; constructor.
  - destruct (fst x <=? fst y)%Z eqn:E.
    + constructor; [assumption|]. constructor. unfold by_key; lia.
    + inversion Hl; subst. constructor; [apply IH; assumption|].
      apply insert_by_key_hd; [unfold by_key; lia | assumption].
Qed.

Lemma sort_by_key_sorted {A} (l : list (Z * A)) : Sorted by_key (sort_by_key l).
Proof.
  induction l as [|x l IH]; simpl; [constructor|].
  apply insert_by_key_sorted; assumption.
Qed.

Lemma sorted_keys {A} (l : list (Z * A)) :
  Sorted by_key l -> StronglySorted Z.le (map fst l).
Proof.
  intros H. apply Sorted_StronglySorted; [intros a b c; apply Z.le_trans|].
  induction H as [|x l Hl IH Hhd]; simpl; constructor; [assumption|].
  destruct Hhd; simpl; constructor; assumption.
Qed.

(** The keys [sorted] computes are the keys of the elements, in order. *)
Lemma mapM_keyed {A} (key : A -> result Z) (l : list A) (keyed : list (Z * A)) :
  mapM (fun a => k <- key a ;; Ok (k, a)) l = Ok keyed ->
  map snd keyed = l /\ Forall (fun p => key (snd p) = Ok (fst p)) keyed.
Proof.
  revert keyed; induction l as [|a l IH]; intros keyed H; simpl in H.
  - injection H as <-. split; constructor.
  - inv_bind H. inv_bind Ha. injection Ha as <-. inv_bind H. injection H as <-.
    destruct (IH _ Ha) as (Hsnd & Hall). simpl. split.
    + f_equal; assumption.
    + constructor; assumption.
Qed.

Lemma mapM_of_keyed {A} (key : A -> result Z) (keyed : list (Z * A)) :
  Forall (fun p => key (snd p) = Ok (fst p)) keyed ->
  mapM key (map snd keyed) = Ok (map fst keyed).
Proof.
  induction 1 as [|p l Hp Hl IH]; simpl; [reflexivity|].
  rewrite Hp, IH. reflexivity.
Qed.

(** What [sorted] returns: the elements, each exactly once, by ascending
    key. *)
Lemma sorted_spec {A} (l : list A) (key : A -> result Z) (out : list A) :
  sorted l key = Ok out ->
  Permutation out l /\
  exists keys, mapM key out = Ok keys /\ StronglySorted Z.le keys.
Proof.
  unfold sorted; intros H. inv_bind H. injection H as <-.
  apply mapM_keyed in Ha as (Hsnd & Hall). split.
  - rewrite <- Hsnd. apply Permutation_map, sort_by_key_perm.
  - exists (map fst (sort_by_key a)). split.
    + apply mapM_of_keyed.
      rewrite Forall_forall in *. intros p Hp. apply Hall.
      apply (Permutation_in p (sort_by_key_perm a) Hp).
    + apply sorted_keys, sort_by_key_sorted.
Qed.

(** ** Level expansion *)

Lemma fm_data_flat_map (levels : list string) (exp_mdf : list Item.t) :
  fm_data levels exp_mdf =
  flat_map (fun level => map (blank_row level) exp_mdf) levels.
Proof.
  unfold fm_data, preset_data.
  induction levels as [|level levels IH]; simpl; [reflexivity|].
  rewrite map_app, IH. f_equal. rewrite !map_map. reflexivity.
Qed.

Lemma row_of_other_level level level' it (items : list Item.t) :
  level' <> level ->
  filter (row_of level it) (map (blank_row level') items) = [].
Proof.
  intros Hne; induction items as [|a items IH]; simpl; [reflexivity|].
  unfold row_of at 1; simpl.
  destruct (String.eqb_spec level' level); [contradiction|].
  rewrite andb_false_r. assumption.
Qed.

Lemma row_of_other_items level it (items : list Item.t) :
  ~ In (Item.item_id it) (map Item.item_id items) ->
  filter (row_of level it) (map (blank_row level) items) = [].
Proof.
  induction items as [|a items IH]; simpl; intros Hn; [reflexivity|].
  unfold row_of at 1; simpl.
  destruct (Z.eqb_spec (Item.item_id a) (Item.item_id it)) as [e|_];
    [exfalso; apply Hn; left; assumption|].
  simpl. apply IH. intros Hin; apply Hn; right; assumption.
Qed.

Lemma row_of_item level it (items : list Item.t) :
  NoDup (map Item.item_id items) -> In it items ->
  filter (row_of level it) (map (blank_row level) items) = [blank_row level it].
Proof.
  induction items as [|a items IH]; simpl; intros Hnd Hin; [destruct Hin|].
  inversion Hnd as [|? ? Hnotin Hnd']; subst.
  unfold row_of at 1; simpl. destruct Hin as [->|Hin].
  - rewrite Z.eqb_refl, String.eqb_refl. simpl.
    rewrite row_of_other_items by assumption. reflexivity.
  - destruct (Z.eqb_spec (Item.item_id a) (Item.item_id it)) as [e|_].
    + exfalso. apply Hnotin. rewrite e. apply in_map; assumption.
    + simpl. apply IH; assumption.
Qed.

Lemma row_of_level_item levels level it (items : list Item.t) :
  NoDup levels -> In level levels ->
  NoDup (map Item.item_id items) -> In it items ->
  filter (row_of level it)
    (flat_map (fun level => map (blank_row level) items) levels)
  = [blank_row level it].
Proof.
  intros Hlv Hin Hnd Hit. induction levels as [|l levels IH]; [destruct Hin|].
  simpl. rewrite filter_app. inversion Hlv as [|? ? Hnotin Hlv']; subst.
  destruct Hin as [->|Hin].
  - rewrite row_of_item by assumption.
    assert (Hrest : forall ls, ~ In level ls ->
              filter (row_of level it)
                (flat_map (fun level => map (blank_row level) items) ls) = []).
    { induction ls as [|l' ls IHls]; simpl; intros Hn; [reflexivity|].
      rewrite filter_app, row_of_other_level, IHls; [reflexivity| |].
      - intros H; apply Hn; right; assumption.
      - intros ->; apply Hn; left; reflexivity. }
    rewrite Hrest by assumption. reflexivity.
  - rewrite row_of_other_level; [apply IH; assumption|].
    intros ->; contradiction.
Qed.

Lemma item_ids_NoDup canexp_df keys_df tiv_fields items :
  load_exposure_master_data_frame canexp_df keys_df tiv_fields = Ok items ->
  NoDup (map Item.item_id items).
Proof.
  unfold load_exposure_master_data_frame; intros H. inv_bind H.
  injection H as <-. apply numbered_load in Ha. destruct Ha as (_ & -> & _).
  generalize (seq_NoDup (length (snd a)) 1).
  generalize (seq 1 (length (snd a))) as l.
  induction l as [|n l IH]; simpl; intros Hnd; [constructor|].
  inversion Hnd; subst. constructor; [|auto].
  rewrite in_map_iff. intros (m & Hm & Hin).
  apply Nat2Z.inj in Hm; subst; contradiction.
Qed.

Lemma dict_get_In {V} (k : string) (d : dict string V) (v : V) :
  dict_get String.eqb k d = Some v -> In (k, v) d.
Proof.
  induction d as [|[k' v'] d IH]; simpl; [discriminate|].
  destruct (String.eqb_spec k k') as [->|_].
  - intros [= ->]; left; reflexivity.
  - intros H; right; auto.
Qed.

Lemma dict_get_of_key {V} (k : string) (d : dict string V) :
  In k (map fst d) -> exists v, dict_get String.eqb k d = Some v.
Proof.
  induction d as [|[k' v'] d IH]; simpl; [intros []|].
  destruct (String.eqb_spec k k') as [->|Hne]; [eauto|].
  intros [H|H]; [congruence | auto].
Qed.

Lemma mapM_total {A B} (f : A -> result B) (l : list A) :
  (forall a, In a l -> exists b, f a = Ok b) -> exists bs, mapM f l = Ok bs.
Proof.
  induction l as [|a l IH]; intros H; simpl; [eauto|].
  destruct (H a (or_introl eq_refl)) as (b & ->).
  destruct IH as (bs & ->); [intros; apply H; right; assumption|].
  simpl; eauto.
Qed.

(** Line 610 returns: every level of the index has a first entry with a
    level order. *)
Lemma fm_levels_total (fm_term_fields : dict string LevelFields) :
  Forall level_ordered fm_term_fields ->
  exists levels, fm_levels fm_term_fields = Ok levels.
Proof.
  intros Hall. unfold fm_levels, sorted.
  destruct (mapM_total
              (fun a => k <- level_order fm_term_fields a ;; Ok (k, a))
              (map fst fm_term_fields)) as (keyed & ->); [|simpl; eauto].
  intros level Hlevel. unfold level_order, dict_getitem.
  destruct (dict_get_of_key level fm_term_fields Hlevel) as (fields & Hget).
  rewrite Hget. cbn [bind]. apply dict_get_In in Hget.
  rewrite Forall_forall in Hall. specialize (Hall _ Hget).
  unfold level_ordered in Hall; cbn [snd] in Hall.
  destruct fields as [|[name entry] fields]; [destruct Hall|].
  destruct (FMLevelOrder entry); [simpl; eauto | congruence].
Qed.

(** C5: the expansion has, for every level of the index and every item of
    the table, exactly one row, the item's id, location and TIV under the
    level name with every level and term field unset; the rows come level
    by level, the levels by ascending level order, the items of a level in
    table order. *)
Theorem level_expansion canexp_df keys_df tiv_fields exp_mdf fm_term_fields levels :
  NoDup (map fst fm_term_fields) ->
  load_exposure_master_data_frame canexp_df keys_df tiv_fields = Ok exp_mdf ->
  fm_levels fm_term_fields = Ok levels ->
  Permutation levels (map fst fm_term_fields) /\
  (exists orders, mapM (level_order fm_term_fields) levels = Ok orders /\
                  StronglySorted Z.le orders) /\
  fm_data levels exp_mdf =
    flat_map (fun level => map (blank_row level) exp_mdf) levels /\
  (forall level it,
     In level (map fst fm_term_fields) -> In it exp_mdf ->
     filter (row_of level it) (fm_data levels exp_mdf) = [blank_row level it]).
Proof.
  intros Hkeys Hitems Hlevels. unfold fm_levels in Hlevels.
  apply sorted_spec in Hlevels as (Hperm & Hsorted).
  repeat split; try assumption.
  - apply fm_data_flat_map.
  - intros level it Hlevel Hit. rewrite fm_data_flat_map.
    apply row_of_level_item; try assumption.
    + apply (Permutation_NoDup (Permutation_sym Hperm) Hkeys).
    + apply (Permutation_in level (Permutation_sym Hperm) Hlevel).
    + apply (item_ids_NoDup _ _ _ _ Hitems).
Qed.

Lemma level_expansion_sample :
  exists exp_mdf,
    load_exposure_master_data_frame Sample.canexp_df Sample.keys_df Sample.tiv_fields
      = Ok exp_mdf /\
    fm_levels Sample.fm_term_fields = Ok ["coverage"; "policy"] /\
    length (fm_data ["coverage"; "policy"] exp_mdf) = 6%nat /\
    Permutation ["coverage"; "policy"] (map fst Sample.fm_term_fields) /\
    fm_data ["coverage"; "policy"] exp_mdf =
      flat_map (fun level => map (blank_row level) exp_mdf) ["coverage"; "policy"].
Proof.
  destruct (load_exposure_master_data_frame Sample.canexp_df Sample.keys_df
              Sample.tiv_fields) as [items|e] eqn:E; [|vm_compute in E; discriminate].
  exists items. split; [reflexivity|]. split; [reflexivity|]. split.
  - vm_compute in E. injection E as <-. reflexivity.
  - assert (Hkeys : NoDup (map fst Sample.fm_term_fields)).
    { simpl. repeat constructor; simpl; intuition discriminate. }
    destruct (level_expansion Sample.canexp_df Sample.keys_df Sample.tiv_fields
                items Sample.fm_term_fields ["coverage"; "policy"] Hkeys E eq_refl)
      as (Hperm & _ & Hdata & _).
    split; assumption.
Defined.

(** ** Term resolution *)

Lemma dict_getitem_Ok {V} (k : string) (d : dict string V) (v : V) :
  dict_getitem k d = Ok v -> dict_get String.eqb k d = Some v.
Proof.
  unfold dict_getitem; destruct (dict_get String.eqb k d); congruence.
Qed.

Lemma dict_getitem_int_Ok {V} (k : Z) (repr : string) (d : dict Z V) (v : V) :
  dict_getitem_int k repr d = Ok v -> dict_get Z.eqb k d = Some v.
Proof.
  unfold dict_getitem_int; destruct (dict_get Z.eqb k d); congruence.
Qed.

Lemma dict_get_int_In {V} (k : Z) (d : dict Z V) (v : V) :
  dict_get Z.eqb k d = Some v -> In (k, v) d.
Proof.
  induction d as [|[k' v'] d IH]; simpl; [discriminate|].
  destruct (Z.eqb_spec k k') as [->|_].
  - intros [= ->]; left; reflexivity.
  - intros H; right; auto.
Qed.

(** The coverage loop either falls off the end, leaving the locals and the
    row as they were, or stops at a group whose TIV column holds the TIV of
    the row and assigns the terms from that group. *)
Lemma coverage_loop_inv canexp_item groups loc fm_item loc' row :
  coverage_loop canexp_item groups loc fm_item = Ok (loc', row) ->
  (loc' = loc /\ row = fm_item) \/
  exists gid group limit_v ded_v ded_entry tiv_v,
    In (gid, group) groups /\
    term_read canexp_item group "tiv" tiv_v /\ tiv_v == Fm.tiv fm_item /\
    term_read canexp_item group "limit" limit_v /\
    term_read canexp_item group "deductible" ded_v /\
    dict_get String.eqb "deductible" group = Some ded_entry /\
    assigned fm_item limit_v ded_v ded_entry loc' row.
Proof.
  induction groups as [|[gid group] groups IH]; simpl; intros H.
  - injection H as <- <-. left; auto.
  - bind_inv H as tiv_entry Htiv. bind_inv H as found Hfound. destruct found.
    + right. bind_inv H as limit_entry Hlimit. bind_inv H as limit_v Hlv.
      bind_inv H as ded_entry Hded. bind_inv H as ded_v Hdv.
      injection H as <- <-.
      destruct (has_column (lower (ProfileElementName tiv_entry)) canexp_item);
        [|discriminate].
      bind_inv Hfound as tiv_v Htv. injection Hfound as Heq.
      apply Qeq_bool_iff in Heq.
      apply dict_getitem_Ok in Htiv, Hlimit, Hded.
      exists gid, group, limit_v, ded_v, ded_entry, tiv_v.
      repeat split; try assumption.
      * left; reflexivity.
      * exists tiv_entry; auto.
      * exists limit_entry; auto.
      * exists ded_entry; auto.
    + apply IH in H as [?|(g & gr & lv & dv & de & tv & Hin & Hrest)];
        [left; assumption|].
      right. exists g, gr, lv, dv, de, tv. split; [right|]; assumption.
Qed.

Lemma level_term_value_inv canexp_item group term v :
  level_term_value canexp_item group term = Ok v ->
  term_read canexp_item group term v \/ v = 0.
Proof.
  unfold level_term_value, term_read.
  destruct (dict_get String.eqb term group) as [entry|];
    [|intros [= <-]; right; reflexivity].
  destruct (truthy _ && has_column _ canexp_item).
  - intros H; left; exists entry; auto.
  - intros [= <-]; right; reflexivity.
Qed.

(** A row of another level gets its limit and deductible from group 1 of
    its own level and its deductible type from group 1 of the coverage
    level. *)
Lemma other_level_terms_inv grouped canexp_item fm_item loc' row :
  other_level_terms grouped canexp_item fm_item = Ok (loc', row) ->
  exists level_groups group limit_v ded_v coverage_groups coverage_group ded_entry,
    dict_get String.eqb (Fm.fm_level fm_item) grouped = Some level_groups /\
    dict_get Z.eqb 1%Z level_groups = Some group /\
    level_term_value canexp_item group "limit" = Ok limit_v /\
    level_term_value canexp_item group "deductible" = Ok ded_v /\
    dict_get String.eqb "coverage" grouped = Some coverage_groups /\
    dict_get Z.eqb 1%Z coverage_groups = Some coverage_group /\
    dict_get String.eqb "deductible" coverage_group = Some ded_entry /\
    assigned fm_item limit_v ded_v ded_entry loc' row.
Proof.
  unfold other_level_terms; intros H.
  bind_inv H as level_groups Hlevel. bind_inv H as group Hgroup.
  bind_inv H as limit_v Hlv. bind_inv H as ded_v Hdv.
  bind_inv H as coverage_groups Hcov. bind_inv H as coverage_group Hcg.
  bind_inv H as ded_entry Hded. injection H as <- <-.
  apply dict_getitem_Ok in Hlevel, Hcov, Hded.
  apply dict_getitem_int_Ok in Hgroup, Hcg.
  exists level_groups, group, limit_v, ded_v, coverage_groups, coverage_group,
    ded_entry.
  repeat split; assumption.
Qed.

Lemma amount_or_fraction_rule (v tiv : Q) :
  (v <= 1 -> amount_or_fraction v tiv = v * tiv) /\
  (1 < v -> amount_or_fraction v tiv = v).
Proof.
  unfold amount_or_fraction; split; intros H.
  - apply Qgt_bool_false in H. rewrite H. reflexivity.
  - apply Qgt_bool_true in H. rewrite H. reflexivity.
Qed.

(** With a positive TIV the resolved amount is zero, or positive, exactly
    when the value read is. *)
Lemma amount_or_fraction_sign (v tiv : Q) :
  0 < tiv ->
  (amount_or_fraction v tiv == 0 <-> v == 0) /\
  (0 < amount_or_fraction v tiv <-> 0 < v).
Proof.
  intros Htiv. unfold amount_or_fraction.
  destruct (Qgt_bool v 1) eqn:E; [split; reflexivity|].
  split; split; intros H.
  - apply Qmult_integral in H as [H|H]; [assumption|].
    rewrite H in Htiv. exfalso; apply (Qlt_irrefl 0 Htiv).
  - rewrite H. apply Qmult_0_l.
  - apply (Qmult_lt_r 0 v tiv Htiv). rewrite Qmult_0_l. assumption.
  - apply Qmult_lt_0_compat; assumption.
Qed.

(** ** Calc-rule selection *)

(** The [if/elif] chain as a decision table on its three inputs. *)
Lemma calc_rule_table (limit_val share : Q) (ded_type : string) :
  (limit_val == 0 -> share == 0 -> ded_type = "B" ->
     calc_rule limit_val share ded_type = 12%Z) /\
  (limit_val == 0 -> 0 < share -> ded_type = "B" ->
     calc_rule limit_val share ded_type = 15%Z) /\
  (0 < limit_val -> share == 0 -> ded_type = "B" ->
     calc_rule limit_val share ded_type = 1%Z) /\
  (ded_type = "MI" -> calc_rule limit_val share ded_type = 11%Z) /\
  (ded_type = "MA" -> calc_rule limit_val share ded_type = 10%Z) /\
  (~ (limit_val == 0 /\ share == 0 /\ ded_type = "B") ->
   ~ (limit_val == 0 /\ 0 < share /\ ded_type = "B") ->
   ~ (0 < limit_val /\ share == 0 /\ ded_type = "B") ->
   ded_type <> "MI" -> ded_type <> "MA" ->
     calc_rule limit_val share ded_type = 2%Z).
Proof.
  assert (H1 : Qeq_bool limit_val share && Qeq_bool share 0 = true <->
               limit_val == 0 /\ share == 0).
  { rewrite andb_true_iff, !Qeq_bool_iff. split; intros [? ?]; split; lra. }
  assert (H2 : Qeq_bool limit_val 0 && Qgt_bool share 0 = true <->
               limit_val == 0 /\ 0 < share).
  { rewrite andb_true_iff, Qeq_bool_iff, Qgt_bool_true. reflexivity. }
  assert (H3 : Qgt_bool limit_val 0 && Qeq_bool share 0 = true <->
               0 < limit_val /\ share == 0).
  { rewrite andb_true_iff, Qeq_bool_iff, Qgt_bool_true. reflexivity. }
  unfold calc_rule. repeat split.
  - intros Hl Hs ->. rewrite (proj2 H1 (conj Hl Hs)). reflexivity.
  - intros Hl Hs ->.
    destruct (Qeq_bool limit_val share && Qeq_bool share 0) eqn:E1;
      [destruct (proj1 H1 eq_refl); lra|].
    rewrite (proj2 H2 (conj Hl Hs)). reflexivity.
  - intros Hl Hs ->.
    destruct (Qeq_bool limit_val share && Qeq_bool share 0) eqn:E1;
      [destruct (proj1 H1 eq_refl); lra|].
    destruct (Qeq_bool limit_val 0 && Qgt_bool share 0) eqn:E2;
      [destruct (proj1 H2 eq_refl); lra|].
    rewrite (proj2 H3 (conj Hl Hs)). reflexivity.
  - intros ->.
    destruct (Qeq_bool limit_val share && Qeq_bool share 0);
      destruct (Qeq_bool limit_val 0 && Qgt_bool share 0);
      destruct (Qgt_bool limit_val 0 && Qeq_bool share 0); reflexivity.
  - intros ->.
    destruct (Qeq_bool limit_val share && Qeq_bool share 0);
      destruct (Qeq_bool limit_val 0 && Qgt_bool share 0);
      destruct (Qgt_bool limit_val 0 && Qeq_bool share 0); reflexivity.
  - intros N1 N2 N3 NMI NMA.
    destruct (String.eqb_spec ded_type "B") as [->|HB].
    + destruct (Qeq_bool limit_val share && Qeq_bool share 0) eqn:E1;
        [exfalso; apply N1; destruct (proj1 H1 eq_refl); auto|].
      destruct (Qeq_bool limit_val 0 && Qgt_bool share 0) eqn:E2;
        [exfalso; apply N2; destruct (proj1 H2 eq_refl); auto|].
      destruct (Qgt_bool limit_val 0 && Qeq_bool share 0) eqn:E3;
        [exfalso; apply N3; destruct (proj1 H3 eq_refl); auto|].
      reflexivity.
    + rewrite !andb_false_r.
      destruct (String.eqb_spec ded_type "MI"); [contradiction|].
      destruct (String.eqb_spec ded_type "MA"); [contradiction|].
      reflexivity.
Qed.

(** One iteration that assigned the limit of a fresh row: the terms come
    from a term group of the row's level, read from the canonical rows of
    the row's location, and the calc rule from the values just read. *)
Lemma fm_item_step_resolved grouped canexp_df loc fm_item loc' row limit :
  Fm.limit fm_item = None ->
  fm_item_step grouped canexp_df loc fm_item = Ok (loc', row) ->
  Fm.limit row = Some limit ->
  exists canexp_item level_groups gid group limit_v ded_v ded_entry,
    select_eq canexp_df "row_id" (Fm.canlocid fm_item) = Ok canexp_item /\
    dict_get String.eqb (Fm.fm_level fm_item) grouped = Some level_groups /\
    In (gid, group) level_groups /\
    (term_read canexp_item group "limit" limit_v \/
     Fm.fm_level fm_item <> "coverage" /\ limit_v = 0) /\
    (term_read canexp_item group "deductible" ded_v \/
     Fm.fm_level fm_item <> "coverage" /\ ded_v = 0) /\
    loc' = {| limit_val := Some limit_v;
              ded_type := Some (deductible_type_of ded_entry) |} /\
    row = Fm.set_calcrule (calc_rule limit_v 0 (deductible_type_of ded_entry))
            (Fm.set_share 0
               (Fm.set_deductibletype (deductible_type_of ded_entry)
                  (Fm.set_deductible (amount_or_fraction ded_v (Fm.tiv fm_item))
                     (Fm.set_limit (amount_or_fraction limit_v (Fm.tiv fm_item))
                        fm_item)))).
Proof.
  intros Hfresh H Hlimit. unfold fm_item_step in H.
  bind_inv H as canexp_item Hsel. bind_inv H as p Hp. destruct p as [loc1 row1].
  bind_inv H as lv Hlv. bind_inv H as dt Hdt. injection H as <- <-.
  cbn [Fm.limit Fm.set_calcrule Fm.set_share] in Hlimit.
  destruct (Fm.fm_level fm_item =? "coverage") eqn:E.
  - apply String.eqb_eq in E. bind_inv Hp as coverage_groups Hcov.
    apply dict_getitem_Ok in Hcov.
    apply coverage_loop_inv in Hp
      as [[-> ->]|(gid & group & limit_v & ded_v & ded_entry & tiv_v & Hin & _ & _
                   & Hl & Hd & _ & -> & ->)]; [congruence|].
    cbn in Hlv, Hdt. injection Hlv as <-. injection Hdt as <-.
    exists canexp_item, coverage_groups, gid, group, limit_v, ded_v, ded_entry.
    rewrite E. repeat split; auto.
  - apply String.eqb_neq in E.
    apply other_level_terms_inv in Hp
      as (level_groups & group & limit_v & ded_v & cgs & cg & ded_entry & Hlevel
          & Hgroup & Hl & Hd & _ & _ & _ & -> & ->).
    cbn in Hlv, Hdt. injection Hlv as <-. injection Hdt as <-.
    exists canexp_item, level_groups, 1%Z, group, limit_v, ded_v, ded_entry.
    apply dict_get_int_In in Hgroup.
    apply level_term_value_inv in Hl, Hd.
    repeat split; auto.
    + destruct Hl; [left|right]; auto.
    + destruct Hd; [left|right]; auto.
Qed.

(** On a row whose limit the iteration assigned, the calc rule follows the
    decision table on the row's own limit, share and deductible type, first
    matching line first: no limit, no share, type 'B' gives 12; no limit, a
    share, type 'B' gives 15; a limit, no share, type 'B' gives 1; then
    type 'MI' gives 11; then type 'MA' gives 10; anything else gives 2. A
    coverage row that no term group matches is not such a row. *)
Lemma calc_rule_decision_table grouped canexp_df loc fm_item loc' row limit :
  0 < Fm.tiv fm_item ->
  Fm.limit fm_item = None ->
  fm_item_step grouped canexp_df loc fm_item = Ok (loc', row) ->
  Fm.limit row = Some limit ->
  exists share ded_type rule,
    Fm.share row = Some share /\
    Fm.deductibletype row = Some ded_type /\
    Fm.calcrule row = Some rule /\
    (limit == 0 -> share == 0 -> ded_type = "B" -> rule = 12%Z) /\
    (limit == 0 -> 0 < share -> ded_type = "B" -> rule = 15%Z) /\
    (0 < limit -> share == 0 -> ded_type = "B" -> rule = 1%Z) /\
    (ded_type = "MI" -> rule = 11%Z) /\
    (ded_type = "MA" -> rule = 10%Z) /\
    (~ (limit == 0 /\ share == 0 /\ ded_type = "B") ->
     ~ (limit == 0 /\ 0 < share /\ ded_type = "B") ->
     ~ (0 < limit /\ share == 0 /\ ded_type = "B") ->
     ded_type <> "MI" -> ded_type <> "MA" -> rule = 2%Z).
Proof.
  intros Htiv Hfresh H Hlimit.
  destruct (fm_item_step_resolved _ _ _ _ _ _ _ Hfresh H Hlimit)
    as (_ & _ & _ & _ & limit_v & ded_v & ded_entry & _ & _ & _ & _ & _ & _ & ->).
  cbn in Hlimit. injection Hlimit as <-.
  destruct (amount_or_fraction_sign limit_v _ Htiv) as (Hzero & Hpos).
  destruct (calc_rule_table limit_v 0 (deductible_type_of ded_entry))
    as (T1 & T2 & T3 & T4 & T5 & T6).
  exists 0, (deductible_type_of ded_entry),
    (calc_rule limit_v 0 (deductible_type_of ded_entry)).
  cbn [Fm.share Fm.deductibletype Fm.calcrule Fm.set_calcrule Fm.set_share
       Fm.set_deductibletype].
  repeat split; try assumption.
  - intros Hl; apply T1, Hzero, Hl.
  - intros Hl; apply T2, Hzero, Hl.
  - intros Hl; apply T3, Hpos, Hl.
  - intros N1 N2 N3. apply T6.
    + intros (Hl & ?). apply N1. split; [apply Hzero|]; assumption.
    + intros (Hl & ?). apply N2. split; [apply Hzero|]; assumption.
    + intros (Hl & ?). apply N3. split; [apply Hpos|]; assumption.
Qed.

Lemma calc_rule_decision_table_sample :
  exists loc' row limit,
    fm_item_step Sample.grouped_fm_term_fields Sample.canexp_df no_locals
      (Sample.fm_row 1 1 1000 "coverage") = Ok (loc', row) /\
    Fm.limit row = Some limit /\ 0 < limit /\
    Fm.deductibletype row = Some "B" /\
    Fm.calcrule row = Some 1%Z.
Proof.
  destruct (fm_item_step Sample.grouped_fm_term_fields Sample.canexp_df no_locals
              (Sample.fm_row 1 1 1000 "coverage")) as [[loc' row]|e] eqn:E;
    [|vm_compute in E; discriminate].
  assert (E' := E). vm_compute in E'. injection E' as <- <-.
  destruct (calc_rule_decision_table _ _ _ (Sample.fm_row 1 1 1000 "coverage")
              _ _ _ eq_refl eq_refl E eq_refl)
    as (share & ded_type & rule & Hs & Hd & Hr & _ & _ & T3 & _).
  injection Hs as <-. injection Hd as <-.
  do 3 eexists. split; [reflexivity|]. split; [reflexivity|].
  split; [reflexivity|]. split; [reflexivity|].
  rewrite Hr. f_equal. apply T3; reflexivity.
Defined.

Lemma float_of_column_has canexp_item name v :
  float_of_column canexp_item name = Ok v -> has_column name canexp_item = true.
Proof.
  unfold float_of_column. destruct (has_column name canexp_item);
    [reflexivity | discriminate].
Qed.

(** The coverage loop either passes over every group and leaves the locals
    and the row as they were, or stops at the first group whose TIV column
    holds the TIV of the row and assigns the terms from that group. *)
Lemma coverage_loop_cases canexp_item groups loc fm_item loc' row :
  coverage_loop canexp_item groups loc fm_item = Ok (loc', row) ->
  (Forall (passed_over canexp_item fm_item) groups /\ loc' = loc /\ row = fm_item) \/
  exists pre gid group post tiv_v limit_v ded_v ded_entry,
    groups = pre ++ (gid, group) :: post /\
    Forall (passed_over canexp_item fm_item) pre /\
    term_read canexp_item group "tiv" tiv_v /\ tiv_v == Fm.tiv fm_item /\
    term_read canexp_item group "limit" limit_v /\
    term_read canexp_item group "deductible" ded_v /\
    dict_get String.eqb "deductible" group = Some ded_entry /\
    assigned fm_item limit_v ded_v ded_entry loc' row.
Proof.
  induction groups as [|[gid group] groups IH]; cbn [coverage_loop]; intros H.
  - injection H as <- <-. left; auto.
  - bind_inv H as tiv_entry Htiv. bind_inv H as found Hfound.
    apply dict_getitem_Ok in Htiv. destruct found.
    + right. bind_inv H as limit_entry Hlimit. bind_inv H as limit_v Hlv.
      bind_inv H as ded_entry Hded. bind_inv H as ded_v Hdv.
      injection H as <- <-.
      destruct (has_column (lower (ProfileElementName tiv_entry)) canexp_item);
        [|discriminate].
      bind_inv Hfound as tiv_v Htv. injection Hfound as Heq.
      apply Qeq_bool_iff in Heq.
      apply dict_getitem_Ok in Hlimit, Hded.
      exists [], gid, group, groups, tiv_v, limit_v, ded_v, ded_entry.
      repeat split; try assumption.
      * constructor.
      * exists tiv_entry; auto.
      * exists limit_entry; auto.
      * exists ded_entry; auto.
    + assert (Hpass : passed_over canexp_item fm_item (gid, group)).
      { exists tiv_entry. split; [assumption|].
        destruct (has_column (lower (ProfileElementName tiv_entry)) canexp_item);
          [right | left; reflexivity].
        bind_inv Hfound as tiv_v Htv. injection Hfound as Hne.
        exists tiv_v. split; [assumption|].
        intros Heq. apply Qeq_bool_iff in Heq. congruence. }
      apply IH in H
        as [(Hall & -> & ->)
           |(pre & g & gr & post & tv & lv & dv & de & -> & Hpre & Hrest)].
      * left. split; [constructor; assumption | auto].
      * right. exists ((gid, group) :: pre), g, gr, post, tv, lv, dv, de.
        split; [reflexivity|]. split; [constructor; assumption | assumption].
Qed.

Lemma level_term_value_read canexp_item group term v :
  level_term_value canexp_item group term = Ok v ->
  level_term_read canexp_item group term v.
Proof.
  unfold level_term_value, level_term_read.
  destruct (dict_get String.eqb term group) as [entry|];
    [|intros [= <-]; right; auto].
  destruct (truthy (lower (ProfileElementName entry))) eqn:Hname; cbn [andb].
  - destruct (has_column (lower (ProfileElementName entry)) canexp_item) eqn:Hcol.
    + intros H. left. exists entry. split; [reflexivity|]. split; [|assumption].
      intros Hempty. rewrite Hempty in Hname. discriminate.
    + intros [= <-]. right. split; [reflexivity|]. right. exists entry. auto.
  - intros [= <-]. right. split; [reflexivity|]. right. exists entry.
    split; [reflexivity|]. left.
    destruct (lower (ProfileElementName entry)); [reflexivity | discriminate].
Qed.

Lemma fraction_or_amount_stored (tiv v : Q) :
  fraction_or_amount tiv v (Some (amount_or_fraction v tiv)).
Proof.
  destruct (amount_or_fraction_rule v tiv) as (H1 & H2).
  split; intros H; f_equal; auto.
Qed.

(** C2: in every row the row loop returns, the limit and the deductible
    are the values read from the columns the row's term group declares, a
    value <= 1 multiplied by the TIV of the row and a value > 1 stored as it
    is. A coverage row reads them from the first group whose TIV column
    holds the TIV of the row; a row of another level reads them from group 1
    of its level, and reads 0 only where the group declares no entry for the
    term, an empty name or a column the canonical rows lack. A coverage row
    that every group passes over reads no value and keeps both terms as they
    were. *)
Theorem terms_fraction_or_amount grouped canexp_df loc fm_item loc' row :
  fm_item_step grouped canexp_df loc fm_item = Ok (loc', row) ->
  exists canexp_item level_groups,
    select_eq canexp_df "row_id" (Fm.canlocid fm_item) = Ok canexp_item /\
    dict_get String.eqb (Fm.fm_level fm_item) grouped = Some level_groups /\
    ((Fm.fm_level fm_item = "coverage" /\
      exists pre gid group post tiv_v limit_v ded_v,
        level_groups = pre ++ (gid, group) :: post /\
        Forall (passed_over canexp_item fm_item) pre /\
        term_read canexp_item group "tiv" tiv_v /\ tiv_v == Fm.tiv fm_item /\
        term_read canexp_item group "limit" limit_v /\
        term_read canexp_item group "deductible" ded_v /\
        fraction_or_amount (Fm.tiv fm_item) limit_v (Fm.limit row) /\
        fraction_or_amount (Fm.tiv fm_item) ded_v (Fm.deductible row)) \/
     (Fm.fm_level fm_item <> "coverage" /\
      exists group limit_v ded_v,
        dict_get Z.eqb 1%Z level_groups = Some group /\
        level_term_read canexp_item group "limit" limit_v /\
        level_term_read canexp_item group "deductible" ded_v /\
        fraction_or_amount (Fm.tiv fm_item) limit_v (Fm.limit row) /\
        fraction_or_amount (Fm.tiv fm_item) ded_v (Fm.deductible row)) \/
     (Fm.fm_level fm_item = "coverage" /\
      Forall (passed_over canexp_item fm_item) level_groups /\
      Fm.limit row = Fm.limit fm_item /\
      Fm.deductible row = Fm.deductible fm_item)).
Proof.
  intros H. unfold fm_item_step in H.
  bind_inv H as canexp_item Hsel. bind_inv H as p Hp. destruct p as [loc1 row1].
  bind_inv H as lv Hlv. bind_inv H as dt Hdt. injection H as <- <-.
  exists canexp_item.
  cbn [Fm.limit Fm.deductible Fm.set_calcrule Fm.set_share].
  destruct (Fm.fm_level fm_item =? "coverage") eqn:E.
  - apply String.eqb_eq in E. bind_inv Hp as coverage_groups Hcov.
    apply dict_getitem_Ok in Hcov. exists coverage_groups.
    split; [assumption|]. split; [rewrite E; assumption|].
    apply coverage_loop_cases in Hp
      as [(Hall & -> & ->)
         |(pre & gid & group & post & tiv_v & limit_v & ded_v & ded_entry & Hgroups
           & Hpre & Htiv & Heq & Hl & Hd & _ & _ & ->)].
    + right; right. auto.
    + left. split; [assumption|].
      exists pre, gid, group, post, tiv_v, limit_v, ded_v.
      cbn [Fm.limit Fm.deductible Fm.set_deductibletype Fm.set_deductible
           Fm.set_limit].
      repeat split; try assumption; apply fraction_or_amount_stored.
  - apply String.eqb_neq in E.
    apply other_level_terms_inv in Hp
      as (level_groups & group & limit_v & ded_v & cgs & cg & ded_entry & Hlevel
          & Hgroup & Hl & Hd & _ & _ & _ & _ & ->).
    exists level_groups. split; [assumption|]. split; [assumption|].
    right; left. split; [assumption|].
    exists group, limit_v, ded_v.
    apply level_term_value_read in Hl, Hd.
    cbn [Fm.limit Fm.deductible Fm.set_deductibletype Fm.set_deductible
         Fm.set_limit].
    repeat split; try assumption; apply fraction_or_amount_stored.
Qed.

Lemma terms_fraction_or_amount_sample :
  (exists loc' row,
     fm_item_step Sample.grouped_fm_term_fields Sample.canexp_df no_locals
       (Sample.fm_row 1 1 1000 "coverage") = Ok (loc', row) /\
     Fm.limit row = Some (0.5 * 1000) /\ 0.5 * 1000 == 500) /\
  (exists loc' row,
     fm_item_step Sample.grouped_fm_term_fields Sample.canexp_df no_locals
       (Sample.fm_row 2 2 1000 "coverage") = Ok (loc', row) /\
     Fm.limit row = Some 1500) /\
  (exists loc' row,
     fm_item_step Sample.grouped_fm_term_fields Sample.canexp_df no_locals
       (Sample.fm_row 2 2 1000 "policy") = Ok (loc', row) /\
     Fm.limit row = Some 5000 /\ Fm.deductible row = Some 250).
Proof.
  split; [|split].
  - destruct (fm_item_step Sample.grouped_fm_term_fields Sample.canexp_df no_locals
                (Sample.fm_row 1 1 1000 "coverage")) as [[loc' row]|e] eqn:E;
      [|vm_compute in E; discriminate].
    exists loc', row. split; [reflexivity|]. split; [|reflexivity].
    destruct (terms_fraction_or_amount _ _ _ _ _ _ E)
      as (canexp_item & level_groups & Hsel & Hlg
          & [(_ & pre & gid & group & post & tiv_v & limit_v & ded_v & Hgroups & _
              & _ & _ & (entry & Hentry & Hv) & _ & (Hfraction & _) & _)
            |[(Hlevel & _)|(_ & Hall & _)]]).
    + cbv in Hsel. injection Hsel as <-. cbv in Hlg. injection Hlg as <-.
      destruct pre as [|g [|g' pre]]; try discriminate Hgroups.
      injection Hgroups as <- <- <-.
      cbv in Hentry. injection Hentry as <-.
      cbv in Hv. injection Hv as <-.
      apply Hfraction. discriminate.
    + exfalso. apply Hlevel. reflexivity.
    + exfalso. cbv in Hsel. injection Hsel as <-. cbv in Hlg. injection Hlg as <-.
      inversion Hall as [|g gs (tiv_entry & Htiv & [Hcol|(v & Hv & Hne)]) Hrest];
        subst; cbv in Htiv; injection Htiv as <-.
      * cbv in Hcol. discriminate.
      * cbv in Hv. injection Hv as <-. apply Hne. reflexivity.
  - destruct (fm_item_step Sample.grouped_fm_term_fields Sample.canexp_df no_locals
                (Sample.fm_row 2 2 1000 "coverage")) as [[loc' row]|e] eqn:E;
      [|vm_compute in E; discriminate].
    exists loc', row. split; [reflexivity|].
    destruct (terms_fraction_or_amount _ _ _ _ _ _ E)
      as (canexp_item & level_groups & Hsel & Hlg
          & [(_ & pre & gid & group & post & tiv_v & limit_v & ded_v & Hgroups & _
              & _ & _ & (entry & Hentry & Hv) & _ & (_ & Hamount) & _)
            |[(Hlevel & _)|(_ & Hall & _)]]).
    + cbv in Hsel. injection Hsel as <-. cbv in Hlg. injection Hlg as <-.
      destruct pre as [|g [|g' pre]]; try discriminate Hgroups.
      injection Hgroups as <- <- <-.
      cbv in Hentry. injection Hentry as <-.
      cbv in Hv. injection Hv as <-.
      apply Hamount. reflexivity.
    + exfalso. apply Hlevel. reflexivity.
    + exfalso. cbv in Hsel. injection Hsel as <-. cbv in Hlg. injection Hlg as <-.
      inversion Hall as [|g gs (tiv_entry & Htiv & [Hcol|(v & Hv & Hne)]) Hrest];
        subst; cbv in Htiv; injection Htiv as <-.
      * cbv in Hcol. discriminate.
      * cbv in Hv. injection Hv as <-. apply Hne. reflexivity.
  - destruct (fm_item_step Sample.grouped_fm_term_fields Sample.canexp_df no_locals
                (Sample.fm_row 2 2 1000 "policy")) as [[loc' row]|e] eqn:E;
      [|vm_compute in E; discriminate].
    exists loc', row. split; [reflexivity|].
    destruct (terms_fraction_or_amount _ _ _ _ _ _ E)
      as (canexp_item & level_groups & Hsel & Hlg
          & [(Hlevel & _)
            |[(_ & group & limit_v & ded_v & Hgroup & Hl & Hd & (_ & Hlimit)
               & (_ & Hded))
             |(Hlevel & _)]]); try discriminate Hlevel.
    cbv in Hsel. injection Hsel as <-. cbv in Hlg. injection Hlg as <-.
    cbv in Hgroup. injection Hgroup as <-.
    assert (Hlv : limit_v = 5000).
    { destruct Hl as [(entry & Hentry & _ & Hv)
                     |(_ & [Hnone|(entry & Hentry & [Hname|Hcol])])].
      - cbv in Hentry. injection Hentry as <-. cbv in Hv. injection Hv as <-.
        reflexivity.
      - cbv in Hnone. discriminate.
      - cbv in Hentry. injection Hentry as <-. cbv in Hname. discriminate.
      - cbv in Hentry. injection Hentry as <-. cbv in Hcol. discriminate. }
    assert (Hdv : ded_v = 250).
    { destruct Hd as [(entry & Hentry & _ & Hv)
                     |(_ & [Hnone|(entry & Hentry & [Hname|Hcol])])].
      - cbv in Hentry. injection Hentry as <-. cbv in Hv. injection Hv as <-.
        reflexivity.
      - cbv in Hnone. discriminate.
      - cbv in Hentry. injection Hentry as <-. cbv in Hname. discriminate.
      - cbv in Hentry. injection Hentry as <-. cbv in Hcol. discriminate. }
    subst limit_v ded_v. split; [apply Hlimit | apply Hded]; reflexivity.
Defined.

(** Every row of the expansion is fresh and has the positive TIV of its
    item. *)
Lemma fm_data_rows canexp_df keys_df tiv_fields exp_mdf levels :
  load_exposure_master_data_frame canexp_df keys_df tiv_fields = Ok exp_mdf ->
  Forall (fun r => 0 < Fm.tiv r /\ Fm.limit r = None) (fm_data levels exp_mdf).
Proof.
  intros H. apply items_positive_tiv in H. rewrite fm_data_flat_map.
  apply Forall_forall. intros r Hr. apply in_flat_map in Hr as (level & _ & Hr).
  apply in_map_iff in Hr as (it & <- & Hit).
  rewrite Forall_forall in H. split; [apply H; assumption | reflexivity].
Qed.

(** The table of the sample run over the first two keys rows. *)
Example fm_master_data_frame_sample :
  exists rows,
    fm_master_data_frame Sample.canexp_df (firstn 2 Sample.keys_df) Sample.tiv_fields
      Sample.fm_term_fields Sample.grouped_fm_term_fields = Ok rows /\
    map Fm.fm_level rows = ["coverage"; "coverage"; "policy"; "policy"] /\
    map Fm.itemid rows = [1; 2; 1; 2]%Z /\
    map Fm.calcrule rows = [Some 1; Some 1; Some 12; Some 1]%Z.
Proof.
  eexists. split; [vm_compute; reflexivity|]. repeat split.
Qed.

(** ** Where the code departs from the specification *)

(** A term of another level whose column the canonical file lacks
    resolves to 0. *)
Lemma level_term_value_absent canexp_item group term entry :
  dict_get String.eqb term group = Some entry ->
  has_column (lower (ProfileElementName entry)) canexp_item = false ->
  level_term_value canexp_item group term = Ok 0.
Proof.
  unfold level_term_value; intros -> ->. rewrite andb_false_r. reflexivity.
Qed.

(** A row of another level takes its deductible type from group 1 of the
    coverage level, whatever its own level declares. *)
Lemma other_level_deductible_type grouped canexp_item fm_item loc' row :
  other_level_terms grouped canexp_item fm_item = Ok (loc', row) ->
  exists coverage_groups coverage_group ded_entry,
    dict_get String.eqb "coverage" grouped = Some coverage_groups /\
    dict_get Z.eqb 1%Z coverage_groups = Some coverage_group /\
    dict_get String.eqb "deductible" coverage_group = Some ded_entry /\
    Fm.deductibletype row = Some (deductible_type_of ded_entry).
Proof.
  intros H. apply other_level_terms_inv in H
    as (_ & _ & limit_v & ded_v & cgs & cg & ded_entry & _ & _ & _ & _ & Hc & Hg
        & Hd & _ & ->).
  exists cgs, cg, ded_entry. auto.
Qed.

(** The coverage loop over groups that are all passed over assigns
    nothing. *)
Lemma coverage_loop_no_match canexp_item groups loc fm_item :
  Forall (passed_over canexp_item fm_item) groups ->
  coverage_loop canexp_item groups loc fm_item = Ok (loc, fm_item).
Proof.
  induction 1 as [|[gid group] groups (tiv_entry & Htiv & Hcol) _ IH];
    [reflexivity|].
  cbn [coverage_loop snd] in *. unfold dict_getitem. rewrite Htiv. cbn [bind].
  destruct Hcol as [Hcol|(v & Hv & Hne)].
  - rewrite Hcol. cbn [bind]. assumption.
  - destruct (has_column _ canexp_item); [|cbn [bind]; assumption].
    rewrite Hv. cbn [bind].
    destruct (Qeq_bool v (Fm.tiv fm_item)) eqn:E; [|assumption].
    apply Qeq_bool_iff in E. contradiction.
Qed.

(** A coverage row that no group matches, met before any row has bound
    the locals, raises at line 666. *)
Lemma unmatched_coverage_row_raises (grouped : dict string TermGroups) canexp_df
    canexp_item (groups : TermGroups) fm_item :
  Fm.fm_level fm_item = "coverage" ->
  select_eq canexp_df "row_id" (Fm.canlocid fm_item) = Ok canexp_item ->
  dict_get String.eqb "coverage" grouped = Some groups ->
  Forall (passed_over canexp_item fm_item) groups ->
  fm_item_step grouped canexp_df no_locals fm_item
    = Raise (UnboundLocalError "limit_val").
Proof.
  intros Hlevel Hsel Hcov Hall. unfold fm_item_step.
  rewrite Hsel, Hlevel. cbn [bind]. rewrite String.eqb_refl.
  unfold dict_getitem. rewrite Hcov. cbn [bind].
  rewrite coverage_loop_no_match by assumption. reflexivity.
Qed.

(** A coverage row whose matching group declares a limit column that the
    canonical file lacks raises [KeyError] for that column. *)
Lemma coverage_loop_missing_limit canexp_item gid group groups loc fm_item
    tiv_entry tiv_v limit_entry :
  dict_get String.eqb "tiv" group = Some tiv_entry ->
  float_of_column canexp_item (lower (ProfileElementName tiv_entry)) = Ok tiv_v ->
  tiv_v == Fm.tiv fm_item ->
  dict_get String.eqb "limit" group = Some limit_entry ->
  has_column (lower (ProfileElementName limit_entry)) canexp_item = false ->
  coverage_loop canexp_item ((gid, group) :: groups) loc fm_item
    = Raise (KeyError (lower (ProfileElementName limit_entry))).
Proof.
  intros Htiv Hv Heq Hlimit Hcol. cbn [coverage_loop].
  unfold dict_getitem. rewrite Htiv, Hlimit. cbn [bind].
  assert (Hhas : has_column (lower (ProfileElementName tiv_entry)) canexp_item = true).
  { unfold float_of_column in Hv.
    destruct (has_column _ canexp_item); [reflexivity | discriminate]. }
  rewrite Hhas, Hv. cbn [bind]. apply Qeq_bool_iff in Heq. rewrite Heq.
  unfold float_of_column. rewrite Hcol. reflexivity.
Qed.

(** C6 (code defect): the policy level of the sample declares its
    deductible with type 'MI', the coverage level with type 'B'; the policy
    row of item 1 gets type 'B', and with it calc rule 12 where 'MI' selects
    11. *)
Theorem policy_row_deductible_type_sample :
  exists loc' row policy_groups policy_group ded_entry,
    fm_item_step Sample.grouped_fm_term_fields Sample.canexp_df no_locals
      (Sample.fm_row 1 1 1000 "policy") = Ok (loc', row) /\
    dict_get String.eqb "policy" Sample.grouped_fm_term_fields = Some policy_groups /\
    dict_get Z.eqb 1%Z policy_groups = Some policy_group /\
    dict_get String.eqb "deductible" policy_group = Some ded_entry /\
    DeductibleType ded_entry = Some "MI" /\
    Fm.deductibletype row = Some "B" /\
    Fm.calcrule row = Some 12%Z /\
    calc_rule 0 0 "MI" = 11%Z.
Proof.
  do 5 eexists. split; [vm_compute; reflexivity|].
  repeat split; reflexivity.
Qed.

(** C7 (code defect): with the limit column of the coverage group missing
    from the canonical file the coverage row raises [KeyError], while the
    policy row of the same file, whose columns are missing too, resolves
    both terms to 0. *)
Theorem coverage_row_missing_column_sample :
  has_column "wscv1limit" Sample.canexp_df_no_limit = false /\
  fm_item_step Sample.grouped_fm_term_fields Sample.canexp_df_no_limit no_locals
    (Sample.fm_row 1 1 1000 "coverage") = Raise (KeyError "wscv1limit") /\
  fm_master_data_frame Sample.canexp_df_no_limit [Sample.key 1 1 11 101]
    Sample.tiv_fields Sample.fm_term_fields Sample.grouped_fm_term_fields
    = Raise (KeyError "wscv1limit") /\
  exists loc' row limit deductible,
    fm_item_step Sample.grouped_fm_term_fields Sample.canexp_df_no_limit no_locals
      (Sample.fm_row 1 1 1000 "policy") = Ok (loc', row) /\
    Fm.limit row = Some limit /\ limit == 0 /\
    Fm.deductible row = Some deductible /\ deductible == 0.
Proof.
  split; [reflexivity|]. split; [vm_compute; reflexivity|].
  split; [vm_compute; reflexivity|].
  do 4 eexists. split; [vm_compute; reflexivity|].
  repeat split; reflexivity.
Qed.

(** C8 (code defect): the item of the only keys row takes its TIV, 300,
    from [wscv2val]; the one coverage group has the TIV column [wscv1val],
    1000; the coverage loop assigns nothing and line 666 reads the unbound
    local [limit_val]. After a row that did bind it, such a row keeps its
    limit unset and takes the rule of the values left over. *)
Theorem unmatched_coverage_row_sample :
  fm_master_data_frame Sample.canexp_df Sample.keys_df_type2 Sample.tiv_fields
    Sample.fm_term_fields Sample.grouped_fm_term_fields
    = Raise (UnboundLocalError "limit_val") /\
  fm_item_step Sample.grouped_fm_term_fields Sample.canexp_df no_locals
    (Sample.fm_row 1 2 300 "coverage") = Raise (UnboundLocalError "limit_val") /\
  exists loc' row,
    fm_item_step Sample.grouped_fm_term_fields Sample.canexp_df
      {| limit_val := Some 1500; ded_type := Some "B" |}
      (Sample.fm_row 3 2 300 "coverage") = Ok (loc', row) /\
    Fm.limit row = None /\ Fm.deductibletype row = None /\
    Fm.calcrule row = Some 1%Z.
Proof.
  split; [vm_compute; reflexivity|]. split; [vm_compute; reflexivity|].
  do 2 eexists. split; [vm_compute; reflexivity|].
  repeat split; reflexivity.
Qed.

(** C1 (code defect): the calc rule of a coverage row that no term group
    matches is not the rule of the decision table for the row. In the sample
    run the third coverage row (item 3: location 2 under coverage type 2,
    TIV 300) ends with no limit, no deductible type and share 0, and with
    calc rule 1, the rule of the limit 1500 and the type 'B' that the row
    before it left, where the table gives 2 to every row whose type is
    none of 'B', 'MI' and 'MA'. In the run of the second sample the row of
    the same location and TIV ends with the same terms and with calc rule
    12, the row before it having left limit 0. *)
Theorem unmatched_coverage_row_calc_rule :
  (exists rows row,
     fm_master_data_frame Sample.canexp_df Sample.keys_df Sample.tiv_fields
       Sample.fm_term_fields Sample.grouped_fm_term_fields = Ok rows /\
     nth_error rows 2 = Some row /\
     Fm.itemid row = 3%Z /\ Fm.fm_level row = "coverage" /\
     Fm.canlocid row = 2 /\ Fm.tiv row = 300 /\
     Fm.limit row = None /\ Fm.deductibletype row = None /\
     Fm.share row = Some 0 /\
     Fm.calcrule row = Some 1%Z) /\
  (exists rows row,
     fm_master_data_frame Sample4.canexp_df Sample4.keys_df Sample.tiv_fields
       Sample.fm_term_fields Sample.grouped_fm_term_fields = Ok rows /\
     nth_error rows 1 = Some row /\
     Fm.itemid row = 2%Z /\ Fm.fm_level row = "coverage" /\
     Fm.canlocid row = 2 /\ Fm.tiv row = 300 /\
     Fm.limit row = None /\ Fm.deductibletype row = None /\
     Fm.share row = Some 0 /\
     Fm.calcrule row = Some 12%Z) /\
  (forall limit_val share ded_type,
     ded_type <> "B" -> ded_type <> "MI" -> ded_type <> "MA" ->
     calc_rule limit_val share ded_type = 2%Z).
Proof.
  split; [|split].
  - do 2 eexists. split; [vm_compute; reflexivity|].
    repeat split; reflexivity.
  - do 2 eexists. split; [vm_compute; reflexivity|].
    repeat split; reflexivity.
  - intros limit_val share ded_type HB HMI HMA. unfold calc_rule.
    apply String.eqb_neq in HB, HMI, HMA. rewrite HB, HMI, HMA, !andb_false_r.
    reflexivity.
Qed.

(** ** FM file generation *)

Lemma load_fm_exposure_master_data_frame_undefined :
  existsb (String.eqb "load_fm_exposure_master_data_frame")
    OasisExposuresManager_names = false.
Proof. reflexivity. Qed.

(** [load_fm_master_data_frame] hands no table to its caller. *)
Lemma load_fm_master_data_frame_returns canexp_df keys_df tiv_fields
    fm_term_fields grouped v :
  load_fm_master_data_frame canexp_df keys_df tiv_fields fm_term_fields grouped
    = Ok v -> v = PyNone.
Proof.
  unfold load_fm_master_data_frame; intros H. inv_bind H. congruence.
Qed.

(** C10 (code defect): [generate_fm_files] raises [AttributeError] on
    every input, before any FM generator runs, and so does
    [generate_oasis_files] with [include_fm] once the GUL files are written;
    no FM file path is returned. The generators themselves write nothing. *)
Theorem generate_fm_files_raises (k : kwargs) (fs : filesystem) :
  generate_fm_files k fs
    = Raise (AttributeError "load_fm_exposure_master_data_frame") /\
  (forall fs' gul_files,
     generate_gul_files k fs = Ok (fs', gul_files) ->
     generate_oasis_files true k fs
       = Raise (AttributeError "load_fm_exposure_master_data_frame")) /\
  (forall out, generate_oasis_files true k fs <> Ok out) /\
  (forall data_frame,
     fst (generate_fm_policytc_file data_frame k fs) = fs /\
     fst (generate_fm_profile_file data_frame k fs) = fs /\
     fst (generate_fm_programme_file data_frame k fs) = fs /\
     fst (generate_fm_xref_file data_frame k fs) = fs /\
     fst (generate_fmsummaryxref_file data_frame k fs) = fs).
Proof.
  assert (Hfm : forall fs0, generate_fm_files k fs0
            = Raise (AttributeError "load_fm_exposure_master_data_frame"))
    by reflexivity.
  split; [apply Hfm|]. split; [|split].
  - intros fs' gul_files Hgul. unfold generate_oasis_files.
    rewrite Hgul. cbn [bind negb]. rewrite Hfm. reflexivity.
  - intros out. unfold generate_oasis_files.
    destruct (generate_gul_files k fs) as [[fs' gul_files]|e]; cbn [bind negb];
      [rewrite Hfm|]; discriminate.
  - intros data_frame. repeat split.
Qed.

(** * Further properties of the item loop *)

Lemma bind_Raise_inv {A B} (m : result A) (k : A -> result B) (e : exn) :
  bind m k = Raise e -> m = Raise e \/ exists a, m = Ok a /\ k a = Raise e.
Proof.
  destruct m as [a|e']; simpl; intros H; [right; eauto|].
  injection H as ->. left; reflexivity.
Qed.

Lemma foldM_Raise_inv {A S} (body : S -> A -> result S) (l : list A) (s : S) (e : exn) :
  foldM body l s = Raise e -> exists a s', In a l /\ body s' a = Raise e.
Proof.
  revert s; induction l as [|a l IH]; intros s H; simpl in H; [discriminate|].
  apply bind_Raise_inv in H as [H|(s1 & _ & H)].
  - exists a, s. split; [left; reflexivity | assumption].
  - destruct (IH _ H) as (b & s' & Hin & Hb). exists b, s'. split; [right|]; assumption.
Qed.

Lemma filterM_Raise_inv {A} (pred : A -> result bool) (l : list A) (e : exn) :
  filterM pred l = Raise e -> exists a, In a l /\ pred a = Raise e.
Proof.
  induction l as [|a l IH]; simpl; intros H; [discriminate|].
  apply bind_Raise_inv in H as [H|(b & _ & H)].
  - exists a. split; [left; reflexivity | assumption].
  - apply bind_Raise_inv in H as [H|(ms & _ & [=])].
    destruct (IH H) as (c & Hin & Hc). exists c. split; [right|]; assumption.
Qed.

Lemma filterM_In {A} (pred : A -> result bool) (l ms : list A) :
  filterM pred l = Ok ms -> forall a, In a ms -> In a l /\ pred a = Ok true.
Proof.
  revert ms; induction l as [|b l IH]; intros ms H a Ha; simpl in H.
  - injection H as <-. destruct Ha.
  - bind_inv H as keep Hkeep. bind_inv H as rest Hrest. injection H as <-.
    destruct keep.
    + destruct Ha as [<-|Ha]; [split; [left; reflexivity | assumption]|].
      destruct (IH _ Hrest a Ha). split; [right|]; assumption.
    + destruct (IH _ Hrest a Ha). split; [right|]; assumption.
Qed.

(** With a coverage type on every TIV entry, the entries of a keys row are
    the ones that declare its coverage type, in the order of [tiv_fields]. *)
Lemma tiv_field_matches_filter tiv_fields keys_item :
  Forall (fun f => CoverageTypeID f <> None) tiv_fields ->
  tiv_field_matches tiv_fields keys_item
    = Ok (filter (declares (coveragetype keys_item)) tiv_fields).
Proof.
  unfold tiv_field_matches.
  induction 1 as [|f l Hf _ IH]; [reflexivity|].
  cbn [filterM filter]. rewrite IH. unfold declares at 2.
  destruct (CoverageTypeID f); [reflexivity | congruence].
Qed.

Lemma tiv_field_matches_declare tiv_fields keys_item ms f :
  tiv_field_matches tiv_fields keys_item = Ok ms -> In f ms ->
  In f tiv_fields /\ CoverageTypeID f = Some (coveragetype keys_item).
Proof.
  intros H Hf. destruct (filterM_In _ _ _ H f Hf) as (Hin & Hp).
  split; [assumption|]. destruct (CoverageTypeID f) as [c|]; [|discriminate].
  cbn in Hp. injection Hp as Hp. apply Z.eqb_eq in Hp. congruence.
Qed.

Lemma series_get_Ok s label v :
  series_get s label = Ok v ->
  existsb (String.eqb label) (index s) = true /\ v = values s label.
Proof.
  unfold series_get. destruct (existsb _ (index s)); [|discriminate].
  intros [= <-]; auto.
Qed.

Lemma tiv_field_step_Ok canexp_item keys_item st tiv_field st' :
  tiv_field_step canexp_item keys_item st tiv_field = Ok st' ->
  let tiv_value := values canexp_item (lower (ProfileElementName tiv_field)) in
  st' = if Qgt_bool tiv_value 0
        then ((fst st + 1)%Z,
              snd st ++ [new_item (fst st) (values canexp_item "row_id") tiv_value
                           keys_item])
        else st.
Proof.
  unfold tiv_field_step; intros H. bind_inv H as v Hv.
  apply series_get_Ok in Hv as (_ & ->). cbn zeta.
  destruct (Qgt_bool _ 0); [|congruence].
  bind_inv H as c Hc. apply series_get_Ok in Hc as (_ & ->).
  injection H as <-. reflexivity.
Qed.

Lemma matched_canonical_row canexp_df keys_item :
  matched canexp_df keys_item = true ->
  exists row, canonical_row canexp_df keys_item = Some row.
Proof.
  unfold matched, canonical_row. induction (rows canexp_df) as [|r l IH]; simpl;
    [discriminate|].
  destruct (Qeq_bool (r "row_id") (locid keys_item)); simpl; eauto.
Qed.

Lemma canonical_row_In canexp_df keys_item row :
  canonical_row canexp_df keys_item = Some row ->
  In row (rows canexp_df) /\ row "row_id" == locid keys_item.
Proof.
  unfold canonical_row; intros H. apply find_some in H as (Hin & Heq).
  apply Qeq_bool_iff in Heq. auto.
Qed.

(** A keys row with a canonical row runs the inner loop on that row. *)
Lemma keys_item_step_row canexp_df tiv_fields st keys_item row :
  has_column "row_id" canexp_df = true ->
  canonical_row canexp_df keys_item = Some row ->
  keys_item_step canexp_df tiv_fields st keys_item =
    bind (tiv_field_matches tiv_fields keys_item)
      (fun ms => foldM (tiv_field_step {| index := columns canexp_df; values := row |}
                          keys_item) ms st).
Proof.
  intros Hrow Hcan. unfold keys_item_step, select_eq. rewrite Hrow. cbn [bind].
  apply find_filter in Hcan as (t & Ht).
  unfold empty, iloc0; cbn [rows columns]. rewrite Ht.
  destruct (columns canexp_df) eqn:Ec;
    [apply has_column_nonempty in Hrow; congruence|].
  reflexivity.
Qed.

Lemma foldM_tiv_fields canexp_df row keys_item ms :
  has_column "row_id" canexp_df = true ->
  Forall (fun f => has_column (lower (ProfileElementName f)) canexp_df = true) ms ->
  forall st, exists new,
    foldM (tiv_field_step {| index := columns canexp_df; values := row |} keys_item)
      ms st = Ok ((fst st + Z.of_nat (length new))%Z, snd st ++ new) /\
    map Item.tiv new =
      filter (fun v => Qgt_bool v 0)
        (map (fun f => row (lower (ProfileElementName f))) ms) /\
    Forall (fun it => Item.canloc_id it = row "row_id" /\
                      Item.areaperil_id it = areaperilid keys_item /\
                      Item.vulnerability_id it = vulnerabilityid keys_item) new.
Proof.
  intros Hrow. induction 1 as [|f ms Hf _ IH]; intros st.
  - exists []. simpl. rewrite Z.add_0_r, app_nil_r. destruct st; auto.
  - cbn [foldM map filter]. unfold tiv_field_step at 1, series_get.
    cbn [index values]. unfold has_column in Hf, Hrow. rewrite Hf. cbn [bind].
    destruct (Qgt_bool (row (lower (ProfileElementName f))) 0) eqn:E.
    + rewrite Hrow. cbn [bind].
      match goal with |- context [foldM _ ms ?s] => destruct (IH s) as (new & -> & Ht & Hall) end.
      cbn [fst snd].
      eexists (_ :: new). split; [|split].
      * rewrite <- app_assoc. cbn [app length]. f_equal. f_equal. lia.
      * cbn [map Item.tiv]. f_equal. assumption.
      * constructor; [cbn; auto | assumption].
    + cbn [bind]. apply IH.
Qed.

(** X1: a keys row with a canonical row appends one item for every TIV
    entry that declares its coverage type and has a positive value on that
    row, in the order of [tiv_fields], each time moving the counter on by
    one; a keys row whose coverage type no entry declares, or whose values
    are all <= 0, appends nothing and raises nothing. *)
Theorem keys_row_emits canexp_df tiv_fields st keys_item row :
  schema_ok canexp_df tiv_fields = true ->
  canonical_row canexp_df keys_item = Some row ->
  exists new,
    keys_item_step canexp_df tiv_fields st keys_item
      = Ok ((fst st + Z.of_nat (length new))%Z, snd st ++ new) /\
    map Item.tiv new =
      filter (fun v => Qgt_bool v 0)
        (map (fun f => row (lower (ProfileElementName f)))
           (filter (declares (coveragetype keys_item)) tiv_fields)) /\
    Forall (fun it => Item.canloc_id it = row "row_id" /\
                      Item.areaperil_id it = areaperilid keys_item /\
                      Item.vulnerability_id it = vulnerabilityid keys_item) new.
Proof.
  intros Hs Hcan. unfold schema_ok in Hs. apply andb_true_iff in Hs as (Hrow & Hall).
  rewrite forallb_forall in Hall.
  rewrite (keys_item_step_row _ _ _ _ _ Hrow Hcan).
  rewrite tiv_field_matches_filter.
  - cbn [bind]. apply foldM_tiv_fields; [assumption|].
    apply Forall_forall. intros f Hf. apply filter_In in Hf as (Hf & _).
    specialize (Hall f Hf). destruct (CoverageTypeID f); [assumption | discriminate].
  - apply Forall_forall. intros f Hf. specialize (Hall f Hf).
    destruct (CoverageTypeID f); [discriminate | discriminate].
Qed.

Lemma keys_row_emits_sample :
  schema_ok Sample.canexp_df Sample.tiv_fields = true /\
  exists row new,
    canonical_row Sample.canexp_df (Sample.key 2 2 14 104) = Some row /\
    keys_item_step Sample.canexp_df Sample.tiv_fields (2%Z, []) (Sample.key 2 2 14 104)
      = Ok ((2 + Z.of_nat (length new))%Z, [] ++ new) /\
    map Item.tiv new = [300].
Proof.
  split; [reflexivity|].
  destruct (canonical_row Sample.canexp_df (Sample.key 2 2 14 104)) as [row|] eqn:E;
    [|vm_compute in E; discriminate].
  destruct (keys_row_emits Sample.canexp_df Sample.tiv_fields (2%Z, [])
              (Sample.key 2 2 14 104) row eq_refl E) as (new & Hstep & Htiv & _).
  exists row, new. split; [reflexivity|]. split; [exact Hstep|].
  rewrite Htiv. vm_compute in E. injection E as <-. reflexivity.
Defined.

(** X2: every item of the table comes from a keys row of the keys file, a
    canonical row whose row id is the location id of that keys row, and a
    TIV entry declared for the coverage type of the keys row: its TIV is the
    cell of that row under the entry's column, its location the row id, its
    area-peril and vulnerability ids those of the keys row, its summary ids
    1. *)
Theorem items_provenance canexp_df keys_df tiv_fields items :
  load_exposure_master_data_frame canexp_df keys_df tiv_fields = Ok items ->
  Forall (item_from canexp_df keys_df tiv_fields) items.
Proof.
  unfold load_exposure_master_data_frame; intros H. bind_inv H as st Hst.
  injection H as <-. revert Hst.
  apply (foldM_inv _ (fun st => Forall (item_from canexp_df keys_df tiv_fields) (snd st)));
    [|constructor].
  intros s k s' Hk Hs Hstep.
  destruct (has_column "row_id" canexp_df) eqn:Hrow;
    [|unfold keys_item_step, select_eq in Hstep; rewrite Hrow in Hstep; discriminate].
  destruct (matched canexp_df k) eqn:Hm;
    [|rewrite keys_item_step_unmatched, Hrow in Hstep by assumption; discriminate].
  destruct (matched_canonical_row _ _ Hm) as (row & Hcan).
  rewrite (keys_item_step_row _ _ _ _ _ Hrow Hcan) in Hstep.
  bind_inv Hstep as ms Hms. destruct (canonical_row_In _ _ _ Hcan) as (Hin & Heq).
  revert Hs Hstep.
  apply (foldM_inv _ (fun st => Forall (item_from canexp_df keys_df tiv_fields) (snd st))).
  intros s1 f s2 Hf Hs1 Hf2. apply tiv_field_step_Ok in Hf2. cbn [values] in Hf2.
  destruct (Qgt_bool _ 0); subst s2; [|assumption].
  cbn [snd]. apply Forall_app. split; [assumption|]. constructor; [|constructor].
  destruct (tiv_field_matches_declare _ _ _ _ Hms Hf) as (Hftf & Hcov).
  exists k, row, f. cbn. repeat split; assumption.
Qed.

Lemma items_provenance_sample :
  exists items,
    load_exposure_master_data_frame Sample.canexp_df Sample.keys_df Sample.tiv_fields
      = Ok items /\
    length items = 3%nat /\
    Forall (item_from Sample.canexp_df Sample.keys_df Sample.tiv_fields) items.
Proof.
  destruct (load_exposure_master_data_frame Sample.canexp_df Sample.keys_df
              Sample.tiv_fields) as [items|e] eqn:E; [|vm_compute in E; discriminate].
  exists items. split; [reflexivity|]. split.
  - vm_compute in E. injection E as <-. reflexivity.
  - exact (items_provenance _ _ _ _ E).
Defined.

(** X3: when the canonical file has the [row_id] column and the column of
    every TIV entry, every TIV entry names its coverage type and every keys
    row has a canonical row, the item loop ends without an exception. *)
Theorem load_exposure_master_data_frame_returns canexp_df keys_df tiv_fields :
  schema_ok canexp_df tiv_fields = true ->
  forallb (matched canexp_df) keys_df = true ->
  exists items,
    load_exposure_master_data_frame canexp_df keys_df tiv_fields = Ok items.
Proof.
  intros Hs Hm. unfold load_exposure_master_data_frame.
  destruct (foldM_total (keys_item_step canexp_df tiv_fields) keys_df)
    with (s := (0%Z, @nil Item.t)) as (st & ->); [|simpl; eauto].
  intros s k Hk. rewrite forallb_forall in Hm.
  apply keys_item_step_matched; auto.
Qed.

Lemma load_exposure_master_data_frame_returns_sample :
  schema_ok Sample.canexp_df Sample.tiv_fields = true /\
  forallb (matched Sample.canexp_df) Sample.keys_df = true /\
  exists items,
    load_exposure_master_data_frame Sample.canexp_df Sample.keys_df Sample.tiv_fields
      = Ok items.
Proof.
  split; [reflexivity|]. split; [reflexivity|].
  exact (load_exposure_master_data_frame_returns Sample.canexp_df Sample.keys_df
           Sample.tiv_fields eq_refl eq_refl).
Defined.

(** On a keys file that has its five columns and TIV entries that have
    their element name, as [KeysRow] and [ProfileEntry] give them, an
    exception of the item loop is one of four: the [OasisException] of a
    keys row without canonical row, [KeyError] for a canonical file without
    [row_id] column, [KeyError] for a TIV entry without [CoverageTypeID], or
    [KeyError] for the column of a TIV entry that the canonical file
    lacks. *)
Lemma item_loop_errors canexp_df keys_df tiv_fields e :
  load_exposure_master_data_frame canexp_df keys_df tiv_fields = Raise e ->
  item_loop_error canexp_df keys_df tiv_fields e.
Proof.
  unfold load_exposure_master_data_frame; intros H.
  apply bind_Raise_inv in H as [H|(st & _ & [=])].
  apply foldM_Raise_inv in H as (k & s & Hk & H). unfold item_loop_error.
  destruct (has_column "row_id" canexp_df) eqn:Hrow.
  - destruct (matched canexp_df k) eqn:Hm.
    + destruct (matched_canonical_row _ _ Hm) as (row & Hcan).
      rewrite (keys_item_step_row _ _ _ _ _ Hrow Hcan) in H.
      apply bind_Raise_inv in H as [H|(ms & Hms & H)].
      * right; right; left.
        apply filterM_Raise_inv in H as (f & Hf & H). exists f.
        destruct (CoverageTypeID f); [discriminate|].
        injection H as <-. auto.
      * right; right; right.
        apply foldM_Raise_inv in H as (f & s' & Hf & H).
        destruct (filterM_In _ _ _ Hms f Hf) as (Hftf & _). exists f.
        unfold tiv_field_step, series_get in H. cbn [index values] in H.
        unfold has_column in *.
        destruct (existsb _ (columns canexp_df)) eqn:Hcol.
        -- cbn [bind] in H. destruct (Qgt_bool _ 0); [|discriminate].
           rewrite Hrow in H. discriminate.
        -- injection H as <-. auto.
    + left. rewrite keys_item_step_unmatched, Hrow in H by assumption.
      injection H as <-. exists k. auto.
  - right; left. unfold keys_item_step, select_eq in H. rewrite Hrow in H.
    injection H as <-. auto.
Qed.

Lemma item_loop_errors_sample :
  load_exposure_master_data_frame Sample.canexp_df_no_limit Sample.keys_df_type2
    Sample.tiv_fields = Raise (OasisException (Sample.key 2 2 14 104)) /\
  item_loop_error Sample.canexp_df_no_limit Sample.keys_df_type2 Sample.tiv_fields
    (OasisException (Sample.key 2 2 14 104)).
Proof.
  split; [vm_compute; reflexivity|].
  apply item_loop_errors. vm_compute; reflexivity.
Defined.

(** * Further properties of the level order *)

Lemma insert_by_key_filter {A} (k : Z) (x : Z * A) (l : list (Z * A)) :
  filter (fun p => (fst p =? k)%Z) (insert_by_key x l)
  = filter (fun p => (fst p =? k)%Z) (x :: l).
Proof.
  induction l as [|y l IH]; [reflexivity|].
  cbn [insert_by_key]. destruct (fst x <=? fst y)%Z eqn:E; [reflexivity|].
  cbn [filter] in *. rewrite IH.
  destruct (Z.eqb_spec (fst x) k), (Z.eqb_spec (fst y) k); try reflexivity.
  lia.
Qed.

Lemma sort_by_key_filter {A} (k : Z) (l : list (Z * A)) :
  filter (fun p => (fst p =? k)%Z) (sort_by_key l)
  = filter (fun p => (fst p =? k)%Z) l.
Proof.
  induction l as [|x l IH]; [reflexivity|].
  cbn [sort_by_key]. rewrite insert_by_key_filter. cbn [filter]. rewrite IH.
  reflexivity.
Qed.

Lemma filter_keyed {A} (key : A -> result Z) (k : Z) (keyed : list (Z * A)) :
  Forall (fun p => key (snd p) = Ok (fst p)) keyed ->
  filter (has_key key k) (map snd keyed)
  = map snd (filter (fun p => (fst p =? k)%Z) keyed).
Proof.
  induction 1 as [|p l Hp _ IH]; [reflexivity|].
  cbn [map filter]. unfold has_key at 1. rewrite Hp, IH.
  destruct (fst p =? k)%Z; reflexivity.
Qed.

(** [sorted] is stable: the elements under one key keep their order. *)
Lemma sorted_stable {A} (l : list A) (key : A -> result Z) (out : list A) (k : Z) :
  sorted l key = Ok out ->
  filter (has_key key k) out = filter (has_key key k) l.
Proof.
  unfold sorted; intros H. bind_inv H as keyed Hkeyed. injection H as <-.
  apply mapM_keyed in Hkeyed as (Hsnd & Hall).
  subst l. rewrite !filter_keyed.
  - rewrite sort_by_key_filter. reflexivity.
  - assumption.
  - rewrite Forall_forall in *. intros p Hp. apply Hall.
    apply (Permutation_in p (sort_by_key_perm keyed) Hp).
Qed.

(** X5: levels that carry the same level order come out of line 610 in
    the order in which the index iterates them. *)
Theorem fm_levels_stable fm_term_fields levels (order : Z) :
  fm_levels fm_term_fields = Ok levels ->
  filter (has_key (level_order fm_term_fields) order) levels
  = filter (has_key (level_order fm_term_fields) order) (map fst fm_term_fields).
Proof.
  unfold fm_levels. apply sorted_stable.
Qed.

Lemma fm_levels_stable_sample :
  fm_levels Sample2.fm_term_fields = Ok ["coverage"; "policy"; "account"] /\
  filter (has_key (level_order Sample2.fm_term_fields) 3) ["coverage"; "policy"; "account"]
  = ["policy"; "account"].
Proof.
  split; [reflexivity|].
  rewrite (fm_levels_stable Sample2.fm_term_fields ["coverage"; "policy"; "account"]
             3 eq_refl).
  reflexivity.
Defined.

(** * Further properties of the row loop *)

Lemma calc_rule_no_share (limit_val : Q) (ded_type : string) :
  In (calc_rule limit_val 0 ded_type) [1; 2; 10; 11; 12]%Z.
Proof.
  unfold calc_rule.
  replace (Qgt_bool 0 0) with false by reflexivity.
  replace (Qeq_bool 0 0) with true by reflexivity.
  rewrite andb_false_r. cbn [andb].
  destruct (Qeq_bool limit_val 0 && true && (ded_type =? "B"));
    destruct (Qgt_bool limit_val 0 && true && (ded_type =? "B"));
    destruct (ded_type =? "MI"); destruct (ded_type =? "MA"); simpl; tauto.
Qed.

Lemma fm_item_step_frame grouped canexp_df loc fm_item loc' row :
  fm_item_step grouped canexp_df loc fm_item = Ok (loc', row) ->
  same_frame fm_item row /\ no_share_rule row.
Proof.
  intros H. unfold fm_item_step in H.
  bind_inv H as canexp_item Hsel. bind_inv H as p Hp. destruct p as [loc1 row1].
  bind_inv H as lv Hlv. bind_inv H as dt Hdt. injection H as <- <-.
  assert (Hframe : same_frame fm_item row1).
  { destruct (Fm.fm_level fm_item =? "coverage").
    - bind_inv Hp as coverage_groups Hcov.
      apply coverage_loop_inv in Hp
        as [[_ ->]|(gid & group & limit_v & ded_v & ded_entry & tiv_v & _ & _ & _
                    & _ & _ & _ & _ & ->)]; repeat split.
    - apply other_level_terms_inv in Hp
        as (_ & _ & limit_v & ded_v & _ & _ & ded_entry & _ & _ & _ & _ & _ & _ & _
            & _ & ->); repeat split. }
  split.
  - destruct Hframe as (? & ? & ? & ? & ? & ? & ? & ?). repeat split; assumption.
  - split; [reflexivity|]. eexists. split; [reflexivity|]. apply calc_rule_no_share.
Qed.

Lemma fm_loop_frame grouped canexp_df fm_df :
  forall loc rows,
  fm_loop grouped canexp_df loc fm_df = Ok rows ->
  Forall2 same_frame fm_df rows /\ Forall no_share_rule rows.
Proof.
  induction fm_df as [|fm_item fm_df IH]; intros loc rows H; simpl in H.
  - injection H as <-. split; constructor.
  - bind_inv H as p Hp. destruct p as [loc' row]. bind_inv H as rest Hrest.
    injection H as <-. apply fm_item_step_frame in Hp as (Hf & Hs).
    destruct (IH _ _ Hrest). split; constructor; assumption.
Qed.

(** X6: the table the row loop leaves has the rows of the level
    expansion, one for one and in the same order, with item id, location,
    TIV and level name as the expansion set them; the columns [levelid],
    [layerid], [aggid] and [policytcid] are unset in every row. *)
Theorem fm_table_frame canexp_df keys_df tiv_fields fm_term_fields grouped rows :
  fm_master_data_frame canexp_df keys_df tiv_fields fm_term_fields grouped = Ok rows ->
  exists exp_mdf levels,
    load_exposure_master_data_frame canexp_df keys_df tiv_fields = Ok exp_mdf /\
    fm_levels fm_term_fields = Ok levels /\
    Forall2 same_frame (fm_data levels exp_mdf) rows /\
    length rows = (length levels * length exp_mdf)%nat /\
    Forall (fun r => Fm.levelid r = None /\ Fm.layerid r = None /\
                     Fm.aggid r = None /\ Fm.policytcid r = None) rows.
Proof.
  unfold fm_master_data_frame; intros H.
  bind_inv H as exp_mdf Hitems. bind_inv H as levels Hlevels.
  apply fm_loop_frame in H as (Hframe & _).
  exists exp_mdf, levels. repeat split; try assumption.
  - rewrite <- (Forall2_length Hframe). unfold fm_data, preset_data.
    rewrite length_map, length_prod, length_map. reflexivity.
  - assert (Hblank : Forall (fun r => Fm.levelid r = None /\ Fm.layerid r = None /\
                               Fm.aggid r = None /\ Fm.policytcid r = None)
                       (fm_data levels exp_mdf)).
    { rewrite fm_data_flat_map. apply Forall_forall. intros r Hr.
      apply in_flat_map in Hr as (level & _ & Hr).
      apply in_map_iff in Hr as (it & <- & _). repeat split. }
    revert Hblank. induction Hframe as [|r0 r l0 l Hr _ IH]; intros Hb; constructor.
    + inversion Hb as [|? ? (H1 & H2 & H3 & H4) _]; subst.
      destruct Hr as (_ & _ & _ & _ & -> & -> & -> & ->). auto.
    + apply IH. inversion Hb; assumption.
Qed.

Lemma fm_table_frame_sample :
  exists rows exp_mdf levels,
    fm_master_data_frame Sample.canexp_df Sample.keys_df Sample.tiv_fields
      Sample.fm_term_fields Sample.grouped_fm_term_fields = Ok rows /\
    length rows = 6%nat /\
    Forall2 same_frame (fm_data levels exp_mdf) rows.
Proof.
  destruct (fm_master_data_frame Sample.canexp_df Sample.keys_df Sample.tiv_fields
              Sample.fm_term_fields Sample.grouped_fm_term_fields)
    as [rows|e] eqn:E; [|vm_compute in E; discriminate].
  destruct (fm_table_frame _ _ _ _ _ _ E) as (exp_mdf & levels & _ & _ & Hf & _ & _).
  exists rows, exp_mdf, levels. split; [reflexivity|]. split; [|exact Hf].
  vm_compute in E. injection E as <-. reflexivity.
Defined.

(** X7: every row of the table has share 0, and its calc rule is one of
    1, 2, 10, 11 and 12: rule 15, the one for a share without limit, is
    never selected. *)
Theorem fm_table_no_share canexp_df keys_df tiv_fields fm_term_fields grouped rows :
  fm_master_data_frame canexp_df keys_df tiv_fields fm_term_fields grouped = Ok rows ->
  Forall no_share_rule rows.
Proof.
  unfold fm_master_data_frame; intros H.
  bind_inv H as exp_mdf Hitems. bind_inv H as levels Hlevels.
  apply fm_loop_frame in H as (_ & Hs). exact Hs.
Qed.

Lemma fm_table_no_share_sample :
  exists rows,
    fm_master_data_frame Sample.canexp_df Sample.keys_df Sample.tiv_fields
      Sample.fm_term_fields Sample.grouped_fm_term_fields = Ok rows /\
    Forall no_share_rule rows.
Proof.
  destruct (fm_master_data_frame Sample.canexp_df Sample.keys_df Sample.tiv_fields
              Sample.fm_term_fields Sample.grouped_fm_term_fields)
    as [rows|e] eqn:E; [|vm_compute in E; discriminate].
  exists rows. split; [reflexivity|]. exact (fm_table_no_share _ _ _ _ _ _ E).
Defined.

Lemma coverage_loop_skip canexp_item pre rest loc fm_item :
  Forall (passed_over canexp_item fm_item) pre ->
  coverage_loop canexp_item (pre ++ rest) loc fm_item
  = coverage_loop canexp_item rest loc fm_item.
Proof.
  induction 1 as [|[gid group] groups (tiv_entry & Htiv & Hcol) _ IH];
    [reflexivity|].
  cbn [app coverage_loop snd] in *. unfold dict_getitem. rewrite Htiv. cbn [bind].
  destruct Hcol as [Hcol|(v & Hv & Hne)].
  - rewrite Hcol. cbn [bind]. assumption.
  - destruct (has_column _ canexp_item); [|cbn [bind]; assumption].
    rewrite Hv. cbn [bind].
    destruct (Qeq_bool v (Fm.tiv fm_item)) eqn:E; [|assumption].
    apply Qeq_bool_iff in E. contradiction.
Qed.

(** X8: the coverage loop stops at the first term group, in the
    iteration order of the coverage dict, whose TIV column holds the TIV of
    the row; the limit, the deductible and the deductible type of the row
    come from that group, whatever groups follow it. *)
Theorem coverage_first_match canexp_item pre gid group post loc fm_item
    tiv_entry tiv_v limit_entry limit_v ded_entry ded_v :
  Forall (passed_over canexp_item fm_item) pre ->
  dict_get String.eqb "tiv" group = Some tiv_entry ->
  float_of_column canexp_item (lower (ProfileElementName tiv_entry)) = Ok tiv_v ->
  tiv_v == Fm.tiv fm_item ->
  dict_get String.eqb "limit" group = Some limit_entry ->
  float_of_column canexp_item (lower (ProfileElementName limit_entry)) = Ok limit_v ->
  dict_get String.eqb "deductible" group = Some ded_entry ->
  float_of_column canexp_item (lower (ProfileElementName ded_entry)) = Ok ded_v ->
  coverage_loop canexp_item (pre ++ (gid, group) :: post) loc fm_item
  = Ok ({| limit_val := Some limit_v;
           ded_type := Some (deductible_type_of ded_entry) |},
        Fm.set_deductibletype (deductible_type_of ded_entry)
          (Fm.set_deductible (amount_or_fraction ded_v (Fm.tiv fm_item))
             (Fm.set_limit (amount_or_fraction limit_v (Fm.tiv fm_item)) fm_item))).
Proof.
  intros Hpre Htiv Htv Heq Hlimit Hlv Hded Hdv.
  rewrite coverage_loop_skip by assumption. cbn [coverage_loop].
  unfold dict_getitem. rewrite Htiv, Hlimit, Hded. cbn [bind].
  assert (Hhas : has_column (lower (ProfileElementName tiv_entry)) canexp_item = true).
  { unfold float_of_column in Htv.
    destruct (has_column _ canexp_item); [reflexivity | discriminate]. }
  rewrite Hhas, Htv. cbn [bind]. apply Qeq_bool_iff in Heq. rewrite Heq.
  rewrite Hlv. cbn [bind]. rewrite Hdv. reflexivity.
Qed.

Lemma coverage_first_match_sample :
  exists canexp_item loc' row limit,
    select_eq Sample.canexp_df "row_id" 2 = Ok canexp_item /\
    coverage_loop canexp_item
      ([] ++ (1%Z, [ ("deductible", Sample.WSCV1DED); ("limit", Sample.WSCV1LIMIT);
                    ("tiv", Sample.WSCV1VAL) ])
          :: [ (2%Z, [ ("deductible", Sample.POLDED); ("limit", Sample.POLLIMIT);
                       ("tiv", Sample.WSCV1VAL) ]) ])
      no_locals (Sample.fm_row 2 2 1000 "coverage") = Ok (loc', row) /\
    Fm.limit row = Some limit /\ limit == 1500 /\
    Fm.deductibletype row = Some "B".
Proof.
  destruct (select_eq Sample.canexp_df "row_id" 2) as [canexp_item|e] eqn:E;
    [|vm_compute in E; discriminate].
  assert (E' := E). cbv in E'. injection E' as <-.
  do 3 eexists. exists 1500. split; [reflexivity|]. split.
  - apply (coverage_first_match _ [] 1%Z _ _ no_locals (Sample.fm_row 2 2 1000 "coverage")
             Sample.WSCV1VAL 1000 Sample.WSCV1LIMIT 1500 Sample.WSCV1DED 50);
      try reflexivity. constructor.
  - repeat split; reflexivity.
Defined.

(** X9: a coverage row that no term group matches, met after an earlier
    row has bound the locals, keeps its limit, deductible and deductible type
    as they were and takes the calc rule of the values the earlier row
    left. *)
Theorem unmatched_coverage_row_stale (grouped : dict string TermGroups) canexp_df
    canexp_item (groups : TermGroups) fm_item limit_v ded_t :
  Fm.fm_level fm_item = "coverage" ->
  select_eq canexp_df "row_id" (Fm.canlocid fm_item) = Ok canexp_item ->
  dict_get String.eqb "coverage" grouped = Some groups ->
  Forall (passed_over canexp_item fm_item) groups ->
  fm_item_step grouped canexp_df
    {| limit_val := Some limit_v; ded_type := Some ded_t |} fm_item
  = Ok ({| limit_val := Some limit_v; ded_type := Some ded_t |},
        Fm.set_calcrule (calc_rule limit_v 0 ded_t) (Fm.set_share 0 fm_item)).
Proof.
  intros Hlevel Hsel Hcov Hall. unfold fm_item_step.
  rewrite Hsel, Hlevel. cbn [bind]. rewrite String.eqb_refl.
  unfold dict_getitem. rewrite Hcov. cbn [bind].
  rewrite coverage_loop_no_match by assumption. reflexivity.
Qed.

Lemma unmatched_coverage_row_stale_sample :
  exists canexp_item groups,
    select_eq Sample.canexp_df "row_id" 2 = Ok canexp_item /\
    dict_get String.eqb "coverage" Sample.grouped_fm_term_fields = Some groups /\
    fm_item_step Sample.grouped_fm_term_fields Sample.canexp_df
      {| limit_val := Some 1500; ded_type := Some "B" |}
      (Sample.fm_row 3 2 300 "coverage")
    = Ok ({| limit_val := Some 1500; ded_type := Some "B" |},
          Fm.set_calcrule 1 (Fm.set_share 0 (Sample.fm_row 3 2 300 "coverage"))).
Proof.
  destruct (select_eq Sample.canexp_df "row_id" 2) as [canexp_item|e] eqn:E;
    [|vm_compute in E; discriminate].
  assert (E' := E). cbv in E'. injection E' as <-.
  do 2 eexists. split; [reflexivity|]. split; [reflexivity|].
  apply (unmatched_coverage_row_stale Sample.grouped_fm_term_fields Sample.canexp_df
           _ _ (Sample.fm_row 3 2 300 "coverage") 1500 "B" eq_refl E eq_refl).
  constructor; [|constructor].
  exists Sample.WSCV1VAL. split; [reflexivity|]. right. exists 1000.
  split; [reflexivity|]. intros H; vm_compute in H; discriminate.
Defined.

Lemma select_eq_columns canexp_df label v canexp_item :
  select_eq canexp_df label v = Ok canexp_item ->
  columns canexp_item = columns canexp_df /\
  rows canexp_item = filter (fun r => Qeq_bool (r label) v) (rows canexp_df).
Proof.
  unfold select_eq. destruct (has_column label canexp_df); [|discriminate].
  intros [= <-]. auto.
Qed.

(** X10: when two canonical rows carry the row id of a coverage row, the
    row loop raises [TypeError] at the first TIV column it reads, where the
    item loop took the first of the two rows. *)
Theorem duplicate_row_id_raises (grouped : dict string TermGroups) canexp_df loc fm_item
    row1 row2 others gid group (groups : TermGroups) tiv_entry :
  has_column "row_id" canexp_df = true ->
  filter (fun r => Qeq_bool (r "row_id") (Fm.canlocid fm_item)) (rows canexp_df)
    = row1 :: row2 :: others ->
  Fm.fm_level fm_item = "coverage" ->
  dict_get String.eqb "coverage" grouped = Some ((gid, group) :: groups) ->
  dict_get String.eqb "tiv" group = Some tiv_entry ->
  has_column (lower (ProfileElementName tiv_entry)) canexp_df = true ->
  fm_item_step grouped canexp_df loc fm_item
    = Raise (TypeError "cannot convert the series to float").
Proof.
  intros Hrow Hrows Hlevel Hcov Htiv Hcol. unfold fm_item_step, select_eq.
  rewrite Hrow, Hlevel, Hrows. cbn [bind]. rewrite String.eqb_refl.
  unfold dict_getitem. rewrite Hcov. cbn [bind coverage_loop].
  unfold dict_getitem. rewrite Htiv. cbn [bind].
  unfold float_of_column, has_column in *. cbn [columns rows]. rewrite Hcol.
  reflexivity.
Qed.

Lemma duplicate_row_id_raises_sample :
  (exists items,
     load_exposure_master_data_frame Sample2.canexp_df_dup [Sample.key 1 1 11 101]
       Sample.tiv_fields = Ok items /\ map Item.tiv items = [1000]) /\
  fm_item_step Sample.grouped_fm_term_fields Sample2.canexp_df_dup no_locals
    (Sample.fm_row 1 1 1000 "coverage")
    = Raise (TypeError "cannot convert the series to float").
Proof.
  split; [eexists; split; [vm_compute; reflexivity | reflexivity]|].
  eapply (duplicate_row_id_raises Sample.grouped_fm_term_fields Sample2.canexp_df_dup
            no_locals (Sample.fm_row 1 1 1000 "coverage") _ _ _ 1%Z _ []
            Sample.WSCV1VAL); reflexivity.
Defined.

Lemma level_term_value_none canexp_df canexp_item group term :
  columns canexp_item = columns canexp_df ->
  no_term_value canexp_df group term ->
  level_term_value canexp_item group term = Ok 0.
Proof.
  intros Hc [Hnone|(entry & Hsome & Hcol)]; unfold level_term_value.
  - rewrite Hnone. reflexivity.
  - rewrite Hsome. unfold has_column in *. rewrite Hc, Hcol, andb_false_r.
    reflexivity.
Qed.

(** X11: a row of another level than coverage whose term group declares
    no limit and no deductible, or declares them on columns the canonical
    file lacks, gets limit 0 and deductible 0 and raises nothing; its
    deductible type is that of the coverage level, and at type 'B' its calc
    rule is 12. *)
Theorem other_level_defaults (grouped : dict string TermGroups) canexp_df loc fm_item
    (level_groups : TermGroups) group (coverage_groups : TermGroups) coverage_group
    ded_entry :
  has_column "row_id" canexp_df = true ->
  Fm.fm_level fm_item <> "coverage" ->
  dict_get String.eqb (Fm.fm_level fm_item) grouped = Some level_groups ->
  dict_get Z.eqb 1%Z level_groups = Some group ->
  no_term_value canexp_df group "limit" ->
  no_term_value canexp_df group "deductible" ->
  dict_get String.eqb "coverage" grouped = Some coverage_groups ->
  dict_get Z.eqb 1%Z coverage_groups = Some coverage_group ->
  dict_get String.eqb "deductible" coverage_group = Some ded_entry ->
  exists loc' row limit deductible,
    fm_item_step grouped canexp_df loc fm_item = Ok (loc', row) /\
    Fm.limit row = Some limit /\ limit == 0 /\
    Fm.deductible row = Some deductible /\ deductible == 0 /\
    Fm.deductibletype row = Some (deductible_type_of ded_entry) /\
    (deductible_type_of ded_entry = "B" -> Fm.calcrule row = Some 12%Z).
Proof.
  intros Hrow Hlevel Hlg Hg Hl Hd Hcov Hcg Hde.
  unfold fm_item_step, select_eq. rewrite Hrow. cbn [bind].
  apply String.eqb_neq in Hlevel. rewrite Hlevel.
  unfold other_level_terms, dict_getitem, dict_getitem_int.
  rewrite Hlg. cbn [bind]. rewrite Hg. cbn [bind].
  rewrite !(level_term_value_none canexp_df) by (assumption || reflexivity).
  cbn [bind]. rewrite Hcov. cbn [bind]. rewrite Hcg. cbn [bind]. rewrite Hde.
  cbn [bind read_local limit_val ded_type].
  do 4 eexists. split; [reflexivity|].
  cbn [Fm.limit Fm.deductible Fm.deductibletype Fm.calcrule Fm.set_calcrule
       Fm.set_share Fm.set_deductibletype Fm.set_deductible Fm.set_limit].
  split; [reflexivity|]. split; [apply Qmult_0_l|].
  split; [reflexivity|]. split; [apply Qmult_0_l|].
  split; [reflexivity|].
  intros HB. f_equal.
  apply (proj1 (calc_rule_table 0 0 _)); [reflexivity | reflexivity | assumption].
Qed.

Lemma other_level_defaults_sample :
  exists loc' row limit deductible,
    fm_item_step Sample2.grouped_fm_term_fields Sample.canexp_df no_locals
      (Sample.fm_row 1 1 1000 "site") = Ok (loc', row) /\
    Fm.limit row = Some limit /\ limit == 0 /\
    Fm.deductible row = Some deductible /\ deductible == 0 /\
    Fm.deductibletype row = Some "B" /\
    Fm.calcrule row = Some 12%Z.
Proof.
  pose (coverage_groups :=
          match dict_get String.eqb "coverage" Sample2.grouped_fm_term_fields with
          | Some g => g
          | None => []
          end).
  pose (coverage_group :=
          match dict_get Z.eqb 1%Z coverage_groups with
          | Some g => g
          | None => []
          end).
  assert (Hlevel : Fm.fm_level (Sample.fm_row 1 1 1000 "site") <> "coverage")
    by discriminate.
  destruct (other_level_defaults Sample2.grouped_fm_term_fields Sample.canexp_df
              no_locals (Sample.fm_row 1 1 1000 "site")
              [ (1%Z, [ ("tiv", Sample.WSCV1VAL) ]) ] [ ("tiv", Sample.WSCV1VAL) ]
              coverage_groups coverage_group Sample.WSCV1DED eq_refl Hlevel
              eq_refl eq_refl (or_introl eq_refl) (or_introl eq_refl)
              eq_refl eq_refl eq_refl)
    as (loc' & row & limit & deductible & Hstep & Hl & Hl0 & Hd & Hd0 & Ht & Hr).
  exists loc', row, limit, deductible. repeat split; try assumption.
  apply Hr. reflexivity.
Defined.

(** X12: the branch for the other levels looks its term group up under
    the id 1: a level whose term groups carry other ids makes the row loop
    raise [KeyError]. *)
Theorem other_level_group_id (grouped : dict string TermGroups) canexp_df loc fm_item
    (level_groups : TermGroups) :
  has_column "row_id" canexp_df = true ->
  Fm.fm_level fm_item <> "coverage" ->
  dict_get String.eqb (Fm.fm_level fm_item) grouped = Some level_groups ->
  dict_get Z.eqb 1%Z level_groups = None ->
  fm_item_step grouped canexp_df loc fm_item = Raise (KeyError "1").
Proof.
  intros Hrow Hlevel Hlg Hg. unfold fm_item_step, select_eq. rewrite Hrow.
  cbn [bind]. apply String.eqb_neq in Hlevel. rewrite Hlevel.
  unfold other_level_terms, dict_getitem, dict_getitem_int. rewrite Hlg.
  cbn [bind]. rewrite Hg. reflexivity.
Qed.

Lemma other_level_group_id_sample :
  dict_get String.eqb "account" Sample2.grouped_fm_term_fields
    = Some [ (2%Z, [ ("deductible", Sample2.ACCDED) ]) ] /\
  fm_item_step Sample2.grouped_fm_term_fields Sample.canexp_df no_locals
    (Sample.fm_row 1 1 1000 "account") = Raise (KeyError "1").
Proof.
  split; [reflexivity|].
  apply (other_level_group_id Sample2.grouped_fm_term_fields Sample.canexp_df
           no_locals (Sample.fm_row 1 1 1000 "account")
           [ (2%Z, [ ("deductible", Sample2.ACCDED) ]) ]); try reflexivity.
  discriminate.
Defined.

(** * Further properties of the GUL files *)

Lemma items_summary_ids canexp_df keys_df tiv_fields items :
  load_exposure_master_data_frame canexp_df keys_df tiv_fields = Ok items ->
  Forall (fun it => Item.summary_id it = 1%Z /\ Item.summaryset_id it = 1%Z) items.
Proof.
  unfold load_exposure_master_data_frame; intros H. bind_inv H as st Hst.
  injection H as <-. revert Hst.
  apply (foldM_inv _ (fun st => Forall (fun it => Item.summary_id it = 1%Z /\
                                                  Item.summaryset_id it = 1%Z) (snd st)));
    [|constructor].
  intros s k s' _ Hs Hstep. unfold keys_item_step in Hstep.
  bind_inv Hstep as sel Hsel. destruct (empty sel); [discriminate|].
  bind_inv Hstep as row Hrow. bind_inv Hstep as ms Hms.
  revert Hs Hstep.
  apply (foldM_inv _ (fun st => Forall (fun it => Item.summary_id it = 1%Z /\
                                                  Item.summaryset_id it = 1%Z) (snd st))).
  intros s1 f s2 _ Hs1 Hf. apply tiv_field_step_Ok in Hf. cbn zeta in Hf.
  destruct (Qgt_bool _ 0); subst s2; [|assumption].
  cbn [snd]. apply Forall_app. split; [assumption|].
  constructor; [split; reflexivity | constructor].
Qed.

(** X13: when the item loop returns a table and the three GUL paths
    differ, [generate_gul_files] writes three files and returns their paths:
    the items file with item, coverage, area-peril, vulnerability and group
    id of every item, the coverages file with coverage id and TIV, the
    summary cross-reference with coverage id and the summary ids 1 and 1,
    each with one line per item in table order; files under other paths stay
    as they were. *)
Theorem generate_gul_files_writes (k : kwargs) (fs : filesystem) items :
  load_exposure_master_data_frame (canonical_exposures_file k) (keys_file k)
    (profile_tiv_fields k) = Ok items ->
  NoDup [items_file_path k; coverages_file_path k; gulsummaryxref_file_path k] ->
  exists fs',
    generate_gul_files k fs
      = Ok (fs', [ ("items_file_path", items_file_path k);
                   ("coverages_file_path", coverages_file_path k);
                   ("gulsummaryxref_file_path", gulsummaryxref_file_path k) ]) /\
    dict_get String.eqb (items_file_path k) fs'
      = Some (["item_id"; "coverage_id"; "areaperil_id"; "vulnerability_id"; "group_id"],
              map (fun it => [inject_Z (Item.item_id it);
                              inject_Z (Item.coverage_id it);
                              inject_Z (Item.areaperil_id it);
                              inject_Z (Item.vulnerability_id it);
                              inject_Z (Item.group_id it)]) items) /\
    dict_get String.eqb (coverages_file_path k) fs'
      = Some (["coverage_id"; "tiv"],
              map (fun it => [inject_Z (Item.coverage_id it); Item.tiv it]) items) /\
    dict_get String.eqb (gulsummaryxref_file_path k) fs'
      = Some (["coverage_id"; "summary_id"; "summaryset_id"],
              map (fun it => [inject_Z (Item.coverage_id it); 1; 1]) items) /\
    (forall path,
       ~ In path [items_file_path k; coverages_file_path k;
                  gulsummaryxref_file_path k] ->
       dict_get String.eqb path fs' = dict_get String.eqb path fs).
Proof.
  intros Hload Hnd. unfold generate_gul_files. rewrite Hload. cbn [bind].
  eexists. split; [reflexivity|].
  unfold generate_items_file, generate_coverages_file, generate_gulsummaryxref_file,
    _write_csvs. cbn [fst dict_get].
  inversion Hnd as [|? ? Hn1 Hnd1]; subst. inversion Hnd1 as [|? ? Hn2 _]; subst.
  assert (H12 : items_file_path k <> coverages_file_path k)
    by (intros E; apply Hn1; left; auto).
  assert (H13 : items_file_path k <> gulsummaryxref_file_path k)
    by (intros E; apply Hn1; right; left; auto).
  assert (H23 : coverages_file_path k <> gulsummaryxref_file_path k)
    by (intros E; apply Hn2; left; auto).
  apply String.eqb_neq in H12, H13, H23.
  rewrite !String.eqb_refl, H12, H13, H23. rewrite !map_map.
  split; [reflexivity|]. split; [reflexivity|]. split.
  - f_equal. f_equal. apply map_ext_in. intros it Hit.
    apply items_summary_ids in Hload. rewrite Forall_forall in Hload.
    destruct (Hload it Hit) as (Hs1 & Hs2).
    change (map (item_cell it) ["coverage_id"; "summary_id"; "summaryset_id"])
      with [inject_Z (Item.coverage_id it); inject_Z (Item.summary_id it);
            inject_Z (Item.summaryset_id it)].
    rewrite Hs1, Hs2. reflexivity.
  - intros path Hpath.
    assert (P1 : path <> items_file_path k) by (intros E; apply Hpath; left; auto).
    assert (P2 : path <> coverages_file_path k)
      by (intros E; apply Hpath; right; left; auto).
    assert (P3 : path <> gulsummaryxref_file_path k)
      by (intros E; apply Hpath; right; right; left; auto).
    apply String.eqb_neq in P1, P2, P3. rewrite P1, P2, P3. reflexivity.
Qed.

Lemma generate_gul_files_writes_sample :
  exists items fs' cells,
    load_exposure_master_data_frame (canonical_exposures_file Sample.kw)
      (keys_file Sample.kw) (profile_tiv_fields Sample.kw) = Ok items /\
    generate_gul_files Sample.kw []
      = Ok (fs', [ ("items_file_path", "items.csv");
                   ("coverages_file_path", "coverages.csv");
                   ("gulsummaryxref_file_path", "gulsummaryxref.csv") ]) /\
    dict_get String.eqb "coverages.csv" fs' = Some (["coverage_id"; "tiv"], cells) /\
    cells = [[1; 1000]; [2; 1000]; [3; 300]].
Proof.
  destruct (load_exposure_master_data_frame (canonical_exposures_file Sample.kw)
              (keys_file Sample.kw) (profile_tiv_fields Sample.kw))
    as [items|e] eqn:E; [|vm_compute in E; discriminate].
  assert (Hnd : NoDup [items_file_path Sample.kw; coverages_file_path Sample.kw;
                       gulsummaryxref_file_path Sample.kw]).
  { repeat constructor; simpl; intuition discriminate. }
  destruct (generate_gul_files_writes Sample.kw [] items E Hnd)
    as (fs' & Hgen & _ & Hcov & _).
  exists items, fs'. eexists. split; [reflexivity|]. split; [exact Hgen|].
  split; [exact Hcov|].
  vm_compute in E. injection E as <-. reflexivity.
Defined.

(** * The models dict *)

Lemma dict_get_set {V} (k k' : string) (v : V) (d : dict string V) :
  dict_get String.eqb k' (dict_set k v d)
  = if k' =? k then Some v else dict_get String.eqb k' d.
Proof.
  induction d as [|[k1 v1] d IH]; cbn [dict_set dict_get].
  - destruct (k' =? k); reflexivity.
  - destruct (String.eqb_spec k k1) as [->|Hne]; cbn [dict_get].
    + destruct (k' =? k1); reflexivity.
    + rewrite IH. destruct (String.eqb_spec k' k1) as [->|_]; [|reflexivity].
      apply String.eqb_neq in Hne. rewrite String.eqb_sym, Hne. reflexivity.
Qed.

Lemma dict_get_del {V} (k k' : string) (d : dict string V) :
  dict_get String.eqb k' (dict_del k d)
  = if k' =? k then None else dict_get String.eqb k' d.
Proof.
  unfold dict_del. induction d as [|[k1 v1] d IH]; cbn [filter dict_get fst].
  - destruct (k' =? k); reflexivity.
  - destruct (String.eqb_spec k k1) as [->|Hne]; cbn [negb dict_get].
    + rewrite IH. destruct (k' =? k1); reflexivity.
    + rewrite IH. destruct (String.eqb_spec k' k1) as [->|_]; [|reflexivity].
      apply String.eqb_neq in Hne. rewrite String.eqb_sym, Hne. reflexivity.
Qed.

Lemma dict_get_not_key {V} (k : string) (d : dict string V) :
  ~ In k (map fst d) -> dict_get String.eqb k d = None.
Proof.
  induction d as [|[k1 v1] d IH]; cbn [map fst dict_get]; [reflexivity|].
  intros Hn. destruct (String.eqb_spec k k1) as [->|_].
  - exfalso; apply Hn; left; reflexivity.
  - apply IH. intros H; apply Hn; right; assumption.
Qed.

Lemma find_last {A} (p : A -> bool) (l : list A) (a : A) :
  find p (l ++ [a])
  = match find p l with Some x => Some x | None => if p a then Some a else None end.
Proof.
  induction l as [|b l IH]; cbn [app find]; [reflexivity|].
  destruct (p b); [reflexivity | assumption].
Qed.

Lemma add_models_lookup (_models : dict string Model.t) (l : list Model.t) (k : string) :
  dict_get String.eqb k (add_models _models (Some l))
  = match find (fun m => Model.key m =? k) (rev l) with
    | Some m => Some m
    | None => dict_get String.eqb k _models
    end.
Proof.
  unfold add_models. revert _models.
  induction l as [|a l IH]; intros _models; [reflexivity|].
  cbn [fold_left rev]. rewrite IH, find_last.
  destruct (find _ (rev l)); [reflexivity|].
  unfold add_model; cbn [fst]. rewrite dict_get_set, String.eqb_sym.
  destruct (Model.key a =? k); reflexivity.
Qed.

(** X14: the manager built from a list of models holds, under every key,
    the last model of the list with that key, and no model under a key that
    no model of the list has; built from [None] it holds no model. *)
Theorem init_lookup (l : list Model.t) (k : string) :
  dict_get String.eqb k (__init__ (Some l))
    = find (fun m => Model.key m =? k) (rev l) /\
  __init__ None = [].
Proof.
  split; [|reflexivity]. unfold __init__. rewrite add_models_lookup.
  destruct (find _ (rev l)); reflexivity.
Qed.

(** X15: [delete_model] on a model whose key the manager does not hold
    changes nothing and clears no pipeline, even for a model without files
    pipeline; on a key it holds, it clears the pipeline of the model passed
    in, removes the key and leaves the other keys alone; and when that model
    has no files pipeline it raises [KeyError]. *)
Theorem delete_model_lookup (ext : External) (_models : dict string Model.t)
    (oasis_model : Model.t) :
  (dict_get String.eqb (Model.key oasis_model) _models = None ->
   delete_model ext _models oasis_model = Ok (_models, oasis_model)) /\
  (forall held pipeline cleared,
     dict_get String.eqb (Model.key oasis_model) _models = Some held ->
     dict_get String.eqb "oasis_files_pipeline" (Model.resources oasis_model)
       = Some pipeline ->
     pipeline_clear ext pipeline = Ok cleared ->
     exists _models',
       delete_model ext _models oasis_model
         = Ok (_models',
               Model.set_resource "oasis_files_pipeline" cleared oasis_model) /\
       dict_get String.eqb (Model.key oasis_model) _models' = None /\
       forall k, k <> Model.key oasis_model ->
         dict_get String.eqb k _models' = dict_get String.eqb k _models) /\
  (forall held,
     dict_get String.eqb (Model.key oasis_model) _models = Some held ->
     dict_get String.eqb "oasis_files_pipeline" (Model.resources oasis_model) = None ->
     delete_model ext _models oasis_model = Raise (KeyError "oasis_files_pipeline")).
Proof.
  unfold delete_model, dict_has, dict_getitem. split; [|split].
  - intros ->. reflexivity.
  - intros held pipeline cleared -> -> Hclear. cbn [bind]. rewrite Hclear.
    cbn [bind]. eexists. split; [reflexivity|]. split.
    + rewrite dict_get_del, String.eqb_refl. reflexivity.
    + intros k Hk. rewrite dict_get_del. apply String.eqb_neq in Hk.
      rewrite Hk. reflexivity.
  - intros held -> ->. reflexivity.
Qed.

Lemma dict_update_lookup {V} (d other : dict string V) (k : string) :
  NoDup (map fst other) ->
  dict_get String.eqb k (dict_update d other)
  = match dict_get String.eqb k other with
    | Some v => Some v
    | None => dict_get String.eqb k d
    end.
Proof.
  unfold dict_update. revert d.
  induction other as [|[k1 v1] other IH]; intros d Hnd; [reflexivity|].
  cbn [map fst] in Hnd. inversion Hnd as [|? ? Hnotin Hnd']; subst.
  cbn [fold_left fst snd dict_get]. rewrite IH by assumption.
  rewrite dict_get_set.
  destruct (String.eqb_spec k k1) as [->|_]; [|reflexivity].
  rewrite dict_get_not_key by assumption. reflexivity.
Qed.

(** X16: the [models] setter replaces the models by those of the dict
    assigned, key for key; assigning the manager's own dict leaves the
    manager without models, since the dict is cleared before it is read. *)
Theorem models_setter_lookup (_models val : dict string Model.t) (k : string) :
  NoDup (map fst val) ->
  dict_get String.eqb k (models_setter _models (OtherDict val))
    = dict_get String.eqb k val /\
  models_setter _models SameDict = [].
Proof.
  intros Hnd. split; [|reflexivity]. unfold models_setter.
  rewrite dict_update_lookup by assumption.
  destruct (dict_get String.eqb k val); reflexivity.
Qed.

Lemma models_setter_lookup_sample :
  dict_get String.eqb "supplier/model/1"
    (models_setter [ ("supplier/other/1", Sample3.other_model) ]
       (OtherDict [ ("supplier/model/1", Sample3.model) ]))
    = Some Sample3.model /\
  dict_get String.eqb "supplier/other/1"
    (models_setter [ ("supplier/other/1", Sample3.other_model) ]
       (OtherDict [ ("supplier/model/1", Sample3.model) ]))
    = None.
Proof.
  assert (Hnd : NoDup (map fst [ ("supplier/model/1", Sample3.model) ])).
  { repeat constructor. simpl; tauto. }
  split.
  - rewrite (proj1 (models_setter_lookup [ ("supplier/other/1", Sample3.other_model) ]
                      [ ("supplier/model/1", Sample3.model) ] "supplier/model/1" Hnd)).
    reflexivity.
  - rewrite (proj1 (models_setter_lookup [ ("supplier/other/1", Sample3.other_model) ]
                      [ ("supplier/model/1", Sample3.model) ] "supplier/other/1" Hnd)).
    reflexivity.
Defined.

(** * Default keyword arguments *)

Lemma dict_get_setdefault {V} (k k' : string) (v : V) (d : dict string V) :
  dict_get String.eqb k' (dict_setdefault k v d)
  = match dict_get String.eqb k' d with
    | Some x => Some x
    | None => if k' =? k then Some v else None
    end.
Proof.
  unfold dict_setdefault, dict_has.
  destruct (dict_get String.eqb k d) eqn:E.
  - destruct (dict_get String.eqb k' d) eqn:E'; [reflexivity|].
    destruct (String.eqb_spec k' k) as [->|_]; [congruence | reflexivity].
  - rewrite dict_get_set.
    destruct (String.eqb_spec k' k) as [->|_].
    + rewrite E. reflexivity.
    + destruct (dict_get String.eqb k' d); reflexivity.
Qed.

(** The [setdefault] lines never replace a value, and touch no key but
    their own. *)
Lemma setdefault_lines (oasis_model : Model.t) (lines : list (string * default_source))
    (kwargs kwargs' : dict string value) :
  foldM (setdefault_step oasis_model) lines kwargs = Ok kwargs' ->
  (forall k v, dict_get String.eqb k kwargs = Some v ->
               dict_get String.eqb k kwargs' = Some v) /\
  (forall k, ~ In k (map fst lines) ->
             dict_get String.eqb k kwargs' = dict_get String.eqb k kwargs).
Proof.
  revert kwargs. induction lines as [|[k1 src] lines IH]; intros kwargs H; simpl in H.
  - injection H as <-. auto.
  - bind_inv H as kw1 Hstep. unfold setdefault_step in Hstep.
    bind_inv Hstep as v1 Hv1. injection Hstep as <-. cbn [fst] in *.
    destruct (IH _ H) as (Hkeep & Hother). split.
    + intros k v Hk. apply Hkeep. rewrite dict_get_setdefault, Hk. reflexivity.
    + intros k Hk. cbn [map fst] in Hk. rewrite Hother.
      * rewrite dict_get_setdefault.
        destruct (dict_get String.eqb k kwargs); [reflexivity|].
        destruct (String.eqb_spec k k1) as [->|_]; [|reflexivity].
        exfalso; apply Hk; left; reflexivity.
      * intros Hin; apply Hk; right; assumption.
Qed.

Lemma dict_get_or_None_get (k : string) (d d' : dict string value) :
  dict_get String.eqb k d' = dict_get String.eqb k d ->
  dict_get_or_None k d' = dict_get_or_None k d.
Proof. unfold dict_get_or_None; intros ->; reflexivity. Qed.

(** After the [setdefault] lines, the two profile steps touch only the
    profile keys, and those only when their value is falsy. *)
Lemma _process_default_kwargs_inv ext oasis_model kwargs kwargs' oasis_model' :
  _process_default_kwargs ext oasis_model kwargs = Ok (kwargs', oasis_model') ->
  exists kw1,
    match oasis_model with
    | Some m => foldM (setdefault_step m) default_kwargs kwargs
    | None => Ok kwargs
    end = Ok kw1 /\
    forall k,
      (k <> "canonical_exposures_profile" /\ k <> "canonical_account_profile") \/
      truth (dict_get_or_None k kw1) = true ->
      dict_get String.eqb k kwargs' = dict_get String.eqb k kw1.
Proof.
  unfold _process_default_kwargs; intros H.
  bind_inv H as kw1 Hkw1. exists kw1. split; [assumption|].
  bind_inv H as p Hp. destruct p as [kw2 om2].
  assert (H2 : forall k,
             k <> "canonical_exposures_profile" \/
             truth (dict_get_or_None k kw1) = true ->
             dict_get String.eqb k kw2 = dict_get String.eqb k kw1).
  { intros k Hk.
    destruct (truth (dict_get_or_None "canonical_exposures_profile" kw1)) eqn:Et;
      cbn [negb] in Hp.
    - injection Hp as <- <-. reflexivity.
    - bind_inv Hp as q Hq. destruct q as [profile om]. injection Hp as <- <-.
      rewrite dict_get_set.
      destruct (String.eqb_spec k "canonical_exposures_profile") as [->|_];
        [|reflexivity].
      destruct Hk as [Hk|Hk]; congruence. }
  intros k Hk.
  assert (H3 : dict_get String.eqb k kwargs' = dict_get String.eqb k kw2).
  { destruct (truth (dict_get_or_None "include_fm" kw2)
              && negb (truth (dict_get_or_None "canonical_account_profile" kw2)))
      eqn:Ec.
    - bind_inv H as q Hq. destruct q as [profile om]. injection H as <- <-.
      rewrite dict_get_set.
      destruct (String.eqb_spec k "canonical_account_profile") as [->|_];
        [|reflexivity].
      apply andb_true_iff in Ec as (_ & Ec). apply negb_true_iff in Ec.
      destruct Hk as [(_ & Hk)|Hk]; [congruence|].
      rewrite (dict_get_or_None_get _ kw1 kw2) in Ec; [congruence|].
      apply H2. left; discriminate.
    - injection H as <- <-. reflexivity. }
  rewrite H3. apply H2. destruct Hk as [(Hk & _)|Hk]; auto.
Qed.

(** X17: a keyword argument the caller passes is returned as passed,
    whatever the model's resources and pipeline hold; only a falsy
    [canonical_exposures_profile] or [canonical_account_profile] is
    replaced. *)
Theorem explicit_kwargs_win ext oasis_model kwargs kwargs' oasis_model' k v :
  _process_default_kwargs ext oasis_model kwargs = Ok (kwargs', oasis_model') ->
  dict_get String.eqb k kwargs = Some v ->
  (k <> "canonical_exposures_profile" /\ k <> "canonical_account_profile") \/
  truth v = true ->
  dict_get String.eqb k kwargs' = Some v.
Proof.
  intros H Hk Hcond.
  apply _process_default_kwargs_inv in H as (kw1 & Hkw1 & Hpost).
  assert (Hk1 : dict_get String.eqb k kw1 = Some v).
  { destruct oasis_model as [m|].
    - apply (proj1 (setdefault_lines _ _ _ _ Hkw1)). assumption.
    - injection Hkw1 as <-. assumption. }
  rewrite Hpost; [assumption|].
  destruct Hcond as [?|Ht]; [left; assumption|].
  right. unfold dict_get_or_None. rewrite Hk1. assumption.
Qed.

Lemma explicit_kwargs_win_sample :
  exists kwargs' oasis_model',
    _process_default_kwargs Sample3.ext (Some Sample3.model)
      [ ("items_file_path", VStr "my_items.csv") ] = Ok (kwargs', oasis_model') /\
    dict_get String.eqb "items_file_path" kwargs' = Some (VStr "my_items.csv") /\
    dict_get String.eqb "coverages_file_path" kwargs'
      = Some (VStr "/run/coverages_file_path").
Proof.
  destruct (_process_default_kwargs Sample3.ext (Some Sample3.model)
              [ ("items_file_path", VStr "my_items.csv") ])
    as [[kwargs' oasis_model']|e] eqn:E; [|vm_compute in E; discriminate].
  exists kwargs', oasis_model'. split; [reflexivity|]. split.
  - apply (explicit_kwargs_win _ _ _ _ _ "items_file_path" (VStr "my_items.csv") E
             eq_refl).
    left. split; discriminate.
  - vm_compute in E. injection E as <- <-. reflexivity.
Defined.

(** X18: a key outside the [setdefault] lines and the two profile keys is
    never filled in: it is in the result exactly when the caller passed it.
    The FM programme path, the source account validation path and the
    source-to-canonical account transformation path are such keys. *)
Theorem undefaulted_kwargs ext oasis_model kwargs kwargs' oasis_model' k :
  _process_default_kwargs ext oasis_model kwargs = Ok (kwargs', oasis_model') ->
  ~ In k (map fst default_kwargs) ->
  dict_get String.eqb k kwargs' = dict_get String.eqb k kwargs.
Proof.
  intros H Hk.
  apply _process_default_kwargs_inv in H as (kw1 & Hkw1 & Hpost).
  rewrite Hpost.
  - destruct oasis_model as [m|].
    + apply (proj2 (setdefault_lines _ _ _ _ Hkw1)). assumption.
    + injection Hkw1 as <-. reflexivity.
  - left. split; intros ->; apply Hk; simpl; tauto.
Qed.

Lemma undefaulted_kwargs_sample :
  exists kwargs' oasis_model',
    _process_default_kwargs Sample3.ext (Some Sample3.model) []
      = Ok (kwargs', oasis_model') /\
    dict_get String.eqb "fm_programme_file_path" kwargs' = None /\
    dict_get String.eqb "source_account_validation_file_path" kwargs' = None /\
    dict_get String.eqb "source_to_canonical_account_transformation_file_path" kwargs'
      = None /\
    dict_get String.eqb "fm_policytc_file_path" kwargs'
      = Some (VStr "/run/fm_policytc_file_path").
Proof.
  destruct (_process_default_kwargs Sample3.ext (Some Sample3.model) [])
    as [[kwargs' oasis_model']|e] eqn:E; [|vm_compute in E; discriminate].
  assert (Hnot : forall k,
             existsb (String.eqb k) (map fst default_kwargs) = false ->
             ~ In k (map fst default_kwargs)).
  { intros k Hk Hin. assert (Hex : existsb (String.eqb k) (map fst default_kwargs) = true).
    { apply existsb_exists. exists k. split; [assumption | apply String.eqb_refl]. }
    congruence. }
  exists kwargs', oasis_model'. split; [reflexivity|].
  split; [|split; [|split]].
  - rewrite (undefaulted_kwargs _ _ _ _ _ "fm_programme_file_path" E);
      [reflexivity | apply Hnot; reflexivity].
  - rewrite (undefaulted_kwargs _ _ _ _ _ "source_account_validation_file_path" E);
      [reflexivity | apply Hnot; reflexivity].
  - rewrite (undefaulted_kwargs _ _ _ _ _
               "source_to_canonical_account_transformation_file_path" E);
      [reflexivity | apply Hnot; reflexivity].
  - vm_compute in E. injection E as <- <-. reflexivity.
Defined.

Lemma resources_lines_return (oasis_model : Model.t)
    (lines : list (string * default_source)) :
  Forall (fun line => exists name, snd line = FromResources name) lines ->
  forall kwargs, exists kwargs',
    foldM (setdefault_step oasis_model) lines kwargs = Ok kwargs'.
Proof.
  induction 1 as [|[k src] lines (name & Hsrc) _ IH]; intros kwargs; [simpl; eauto|].
  cbn [foldM]. unfold setdefault_step at 1. cbn [snd fst] in *. subst src.
  cbn [default_value bind]. apply IH.
Qed.

(** X19: with a model that has no files pipeline among its resources the
    defaults cannot be read: [_process_default_kwargs] raises [KeyError],
    also when the caller passes every path itself. *)
Theorem default_kwargs_need_pipeline ext (oasis_model : Model.t) kwargs :
  dict_get String.eqb "oasis_files_pipeline" (Model.resources oasis_model) = None ->
  _process_default_kwargs ext (Some oasis_model) kwargs
    = Raise (KeyError "oasis_files_pipeline").
Proof.
  intros Hnone. unfold _process_default_kwargs.
  change default_kwargs with (firstn 10 default_kwargs ++ skipn 10 default_kwargs).
  rewrite foldM_app.
  destruct (resources_lines_return oasis_model (firstn 10 default_kwargs))
    with (kwargs := kwargs) as (kw1 & ->).
  { cbn [firstn default_kwargs]. repeat constructor; cbn [snd]; eauto. }
  cbn [bind skipn default_kwargs foldM]. unfold setdefault_step at 1.
  cbn [snd default_value]. unfold dict_getitem. rewrite Hnone. reflexivity.
Qed.

Lemma default_kwargs_need_pipeline_sample :
  _process_default_kwargs Sample3.ext (Some Sample3.other_model)
    [ ("items_file_path", VStr "my_items.csv") ]
    = Raise (KeyError "oasis_files_pipeline").
Proof.
  apply (default_kwargs_need_pipeline Sample3.ext Sample3.other_model). reflexivity.
Defined.

(** * Keys and transformations *)

(** X20: without a model object [get_keys] raises [UnboundLocalError],
    whatever paths and lookup the caller passes and whatever the lookup
    factory would do: the locals it reads are bound only under
    [if oasis_model:]. *)
Theorem get_keys_without_model ext model_exposures_file_path lookup keys_file_path
    keys_errors_file_path :
  get_keys ext None model_exposures_file_path lookup keys_file_path
    keys_errors_file_path
  = Raise (UnboundLocalError "_model_exposures_file_path").
Proof. reflexivity. Qed.

Lemma getattr_setattr obj attr v obj' :
  setattr obj attr v = Ok obj' ->
  getattr obj' attr = Ok v /\
  forall attr', attr' <> attr -> getattr obj' attr' = getattr obj attr'.
Proof.
  destruct obj; try discriminate. intros [= <-]. cbn [getattr]. split.
  - rewrite dict_get_set, String.eqb_refl. reflexivity.
  - intros attr' Hne. rewrite dict_get_set. apply String.eqb_neq in Hne.
    rewrite Hne. reflexivity.
Qed.

Lemma set_pipeline_attr_get oasis_model attr v oasis_model' :
  set_pipeline_attr oasis_model attr v = Ok oasis_model' ->
  pipeline_attr oasis_model' attr = Ok v /\
  (forall attr', attr' <> attr ->
     pipeline_attr oasis_model' attr' = pipeline_attr oasis_model attr') /\
  Model.key oasis_model' = Model.key oasis_model /\
  (forall name, name <> "oasis_files_pipeline" ->
     dict_get String.eqb name (Model.resources oasis_model')
     = dict_get String.eqb name (Model.resources oasis_model)).
Proof.
  unfold set_pipeline_attr, pipeline_attr; intros H.
  bind_inv H as pipeline Hp. bind_inv H as pipeline' Hset. injection H as <-.
  apply getattr_setattr in Hset as (Hget & Hother).
  unfold dict_getitem in *. cbn [Model.resources Model.set_resource Model.key].
  rewrite dict_get_set, String.eqb_refl. cbn [bind].
  destruct (dict_get String.eqb "oasis_files_pipeline" (Model.resources oasis_model));
    [|discriminate].
  injection Hp as ->. cbn [bind]. repeat split; try assumption.
  intros name Hne. rewrite dict_get_set. apply String.eqb_neq in Hne.
  rewrite Hne. reflexivity.
Qed.

(** X21: when [get_keys] returns for a model, the keys path and the
    keys-errors path it returns are the ones the files pipeline of the model
    holds afterwards; the key of the model and its other resources are as
    before. *)
Theorem get_keys_stores_paths ext (oasis_model : Model.t) model_exposures_file_path
    lookup keys_file_path keys_errors_file_path returned_keys returned_errors after :
  get_keys ext (Some oasis_model) model_exposures_file_path lookup keys_file_path
    keys_errors_file_path = Ok (returned_keys, returned_errors, after) ->
  exists oasis_model',
    after = Some oasis_model' /\
    pipeline_attr oasis_model' "keys_file_path" = Ok returned_keys /\
    pipeline_attr oasis_model' "keys_errors_file_path" = Ok returned_errors /\
    Model.key oasis_model' = Model.key oasis_model /\
    (forall name, name <> "oasis_files_pipeline" ->
       dict_get String.eqb name (Model.resources oasis_model')
       = dict_get String.eqb name (Model.resources oasis_model)).
Proof.
  unfold get_keys; intros H.
  bind_inv H as locs Hlocs. destruct locs as [[[la lb] lc] ld].
  bind_inv H as a Ha. bind_inv H as c Hc. bind_inv H as d Hd.
  bind_inv H as a' Ha'. bind_inv H as c' Hc'. bind_inv H as d' Hd'.
  bind_inv H as b Hb. bind_inv H as saved Hsaved.
  destruct saved as [[[kfp x] kefp] y].
  bind_inv H as om Hom. injection H as <- <- <-.
  bind_inv Hom as m1 Hm1. bind_inv Hom as m2 Hm2. injection Hom as <-.
  apply set_pipeline_attr_get in Hm1 as (G1 & O1 & K1 & R1).
  apply set_pipeline_attr_get in Hm2 as (G2 & O2 & K2 & R2).
  exists m2. repeat split.
  - rewrite O2 by discriminate. assumption.
  - assumption.
  - congruence.
  - intros name Hne. rewrite R2, R1 by assumption. reflexivity.
Qed.

Lemma get_keys_stores_paths_sample :
  exists after oasis_model',
    get_keys Sample3.ext (Some Sample3.model) VNone VNone (VStr "keys.csv") VNone
      = Ok (VStr "/cwd/keys.csv", VStr "/run/keys_errors_file_path", after) /\
    after = Some oasis_model' /\
    pipeline_attr oasis_model' "keys_file_path" = Ok (VStr "/cwd/keys.csv").
Proof.
  destruct (get_keys Sample3.ext (Some Sample3.model) VNone VNone (VStr "keys.csv")
              VNone) as [[[k e] after]|err] eqn:E; [|vm_compute in E; discriminate].
  assert (E' := E). vm_compute in E'. injection E' as <- <- <-.
  destruct (get_keys_stores_paths _ _ _ _ _ _ _ _ _ E)
    as (oasis_model' & Hafter & Hk & _).
  eexists. exists oasis_model'. split; [reflexivity|]. split; assumption.
Defined.

Lemma kwargs_outside_defaults ext oasis_model kwargs kwargs' oasis_model' k :
  _process_default_kwargs ext oasis_model kwargs = Ok (kwargs', oasis_model') ->
  existsb (String.eqb k) (map fst default_kwargs) = false ->
  dict_get String.eqb k kwargs' = dict_get String.eqb k kwargs.
Proof.
  intros H Hk.
  assert (Hnot : ~ In k (map fst default_kwargs)).
  { intros Hin.
    assert (Hex : existsb (String.eqb k) (map fst default_kwargs) = true).
    { apply existsb_exists. exists k. split; [assumption | apply String.eqb_refl]. }
    congruence. }
  apply _process_default_kwargs_inv in H as (kw1 & Hkw1 & Hpost).
  rewrite Hpost.
  - destruct oasis_model as [m|].
    + apply (proj2 (setdefault_lines _ _ _ _ Hkw1)). assumption.
    + injection Hkw1 as <-. reflexivity.
  - left. split; intros ->; apply Hnot; simpl; tauto.
Qed.

(** X22: the transformation of a source account file needs the key
    [source_account_validation_file_path], which no default fills in: unless
    the caller passes it, [transform_source_to_canonical] with source type
    ['account'] raises [KeyError] once the source account path is read, and
    the translator is not run. *)
Theorem account_transform_needs_validation_path ext oasis_model kwargs kwargs'
    oasis_model' source_account_file_path :
  _process_default_kwargs ext oasis_model kwargs = Ok (kwargs', oasis_model') ->
  dict_get String.eqb "source_account_file_path" kwargs'
    = Some (VStr source_account_file_path) ->
  dict_get String.eqb "source_account_validation_file_path" kwargs = None ->
  transform_source_to_canonical ext oasis_model "account" kwargs
    = Raise (KeyError "source_account_validation_file_path").
Proof.
  intros H Hsrc Hval. unfold transform_source_to_canonical. rewrite H.
  cbn [bind]. replace ("account" =? "account") with true by reflexivity.
  unfold kwargs_path at 1, dict_getitem. rewrite Hsrc. cbn [bind].
  unfold kwargs_path at 1, dict_getitem.
  rewrite (kwargs_outside_defaults _ _ _ _ _ "source_account_validation_file_path" H)
    by reflexivity.
  rewrite Hval. reflexivity.
Qed.

Lemma account_transform_needs_validation_path_sample :
  transform_source_to_canonical Sample3.ext (Some Sample3.model) "account" []
    = Raise (KeyError "source_account_validation_file_path").
Proof.
  destruct (_process_default_kwargs Sample3.ext (Some Sample3.model) [])
    as [[kwargs' oasis_model']|e] eqn:E; [|vm_compute in E; discriminate].
  apply (account_transform_needs_validation_path _ _ _ kwargs' oasis_model'
           "/in/account.csv" E); [|reflexivity].
  vm_compute in E. injection E as <- <-. reflexivity.
Defined.

(** X23: when the caller passes a non-empty exposures profile and does
    not ask for FM, [_process_default_kwargs] parses no JSON: it returns the
    same result whatever the JSON parser and the other external calls
    would do. *)
Theorem given_profile_is_not_reloaded ext ext' oasis_model kwargs profile :
  dict_get String.eqb "canonical_exposures_profile" kwargs = Some profile ->
  truth profile = true ->
  truth (dict_get_or_None "include_fm" kwargs) = false ->
  _process_default_kwargs ext oasis_model kwargs
  = _process_default_kwargs ext' oasis_model kwargs.
Proof.
  intros Hp Ht Hfm. unfold _process_default_kwargs.
  destruct (match oasis_model with
            | Some m => foldM (setdefault_step m) default_kwargs kwargs
            | None => Ok kwargs
            end) as [kw1|e] eqn:E; [|reflexivity].
  cbn [bind].
  assert (Hp1 : dict_get String.eqb "canonical_exposures_profile" kw1 = Some profile).
  { destruct oasis_model as [m|].
    - apply (proj1 (setdefault_lines _ _ _ _ E)). assumption.
    - injection E as <-. assumption. }
  assert (Hfm1 : dict_get String.eqb "include_fm" kw1
                 = dict_get String.eqb "include_fm" kwargs).
  { destruct oasis_model as [m|].
    - apply (proj2 (setdefault_lines _ _ _ _ E)). simpl. intuition discriminate.
    - injection E as <-. reflexivity. }
  assert (Hg : dict_get_or_None "canonical_exposures_profile" kw1 = profile).
  { unfold dict_get_or_None. rewrite Hp1. reflexivity. }
  rewrite Hg, Ht. cbn [negb bind].
  rewrite (dict_get_or_None_get "include_fm" kwargs kw1 Hfm1), Hfm. reflexivity.
Qed.

Lemma given_profile_is_not_reloaded_sample :
  (exists out,
     _process_default_kwargs (no_json Sample3.ext) None
       [ ("canonical_exposures_profile", VProfile [ ("WSCV1VAL", Sample.WSCV1VAL) ]) ]
       = Ok out) /\
  _process_default_kwargs (no_json Sample3.ext) None
    [ ("canonical_exposures_profile_json", VStr "{}") ]
    = Raise (TypeError "not JSON").
Proof.
  split; [|reflexivity]. eexists.
  rewrite (given_profile_is_not_reloaded (no_json Sample3.ext) Sample3.ext None
             [ ("canonical_exposures_profile",
                VProfile [ ("WSCV1VAL", Sample.WSCV1VAL) ]) ]
             (VProfile [ ("WSCV1VAL", Sample.WSCV1VAL) ]) eq_refl eq_refl eq_refl).
  reflexivity.
Defined.
